(** * Yappi mission compiler: the trajectory generator, the variable table,
      the parameter validator and the plan emitter

    A shallow embedding of [src/modules/trajectories.py],
    [src/modules/analyzator.py], [src/modules/processing.py],
    [src/modules/translators.py] and the line filter of
    [src/modules/parser.py].

    Conventions of the embedding.
    - A Python [float] is an exact rational ([Q]) where only the values of
      the coordinates are at stake: arithmetic is the exact one, without
      binary rounding.  [math.pi] is the rational value of the Python
      constant.  [math.cos] and [math.sin] are parameters of the geometry
      section.
    - Where a count, the end of a loop or an exception depends on the
      rounding of a float operation (the pass count of the meander, the
      radius of the spiral, the arithmetic of [eval]), the code is embedded
      on IEEE 754 binary64, in [Binary64] and [Generators64]; the statements
      about these are made there.
    - A Python [str] is a [string] of UTF-8 bytes.
    - A Python exception is a value of [exn] carried by [result].
    - A [dict] is an association list in insertion order. *)

From Stdlib Require Import ZArith QArith Qround Qabs List String Ascii Bool Lia Lqa.
From Stdlib Require Import Floats.SpecFloat.
Import ListNotations.

Local Open Scope Q_scope.

(** ** Exceptions and results *)

Inductive exn : Type :=
| ZeroDivisionError
| ValueError
| TypeError
| KeyError
| IndexError
| AttributeError
| NameError
| SyntaxError
| StopIteration
| OverflowError.

Inductive result (A : Type) : Type :=
| Ok (a : A)
| Raise (e : exn).

Arguments Ok {A} a.
Arguments Raise {A} e.

Definition bind {A B : Type} (r : result A) (k : A -> result B) : result B :=
  match r with
  | Ok a => k a
  | Raise e => Raise e
  end.

Notation "x <- r ;; k" := (bind r (fun x => k))
  (at level 61, r at next level, right associativity).

(** ** Numbers *)

Definition Qlt_bool (x y : Q) : bool := negb (Qle_bool y x).

(** [int(x)] on a float: truncation toward zero. *)
Definition py_int (x : Q) : Z :=
  if Qle_bool 0 x then Qfloor x else Qceiling x.

(** [x / y] on floats. *)
Definition py_div (x y : Q) : result Q :=
  if Qeq_bool y 0 then Raise ZeroDivisionError else Ok (x / y).

(** Rounding to the nearest integer, ties to the even one. *)
Definition round_half_even (x : Q) : Z :=
  let f := Qfloor x in
  match Qcompare (x - inject_Z f) (1 # 2) with
  | Lt => f
  | Gt => (f + 1)%Z
  | Eq => if Z.even f then f else (f + 1)%Z
  end.

(** [round(x, 6)]. *)
Definition round6 (x : Q) : Q := round_half_even (x * 1000000) # 1000000.

(** The value of the constant [math.pi]. *)
Definition math_pi : Q := 884279719003555 # 281474976710656.

(** [math.radians]. *)
Definition radians (x : Q) : Q := x * (math_pi / 180).

(** ** Floats as IEEE 754 binary64

    The functions whose count, termination or exception depends on the
    rounding of a float operation are embedded a second time on binary64:
    a float is a [spec_float] of the Standard Library, whose operations are
    the correctly rounded ones (to nearest, ties to even) of the format with
    53 bits of precision. *)

Module Binary64.

Definition float : Type := spec_float.

Definition prec : Z := 53.
Definition emax : Z := 1024.

Definition add : float -> float -> float := SFadd prec emax.
Definition sub : float -> float -> float := SFsub prec emax.
Definition mul : float -> float -> float := SFmul prec emax.
Definition div : float -> float -> float := SFdiv prec emax.
Definition neg : float -> float := SFopp.
Definition abs : float -> float := SFabs.

(** [x <= y] and [x < y]: false when an operand is a NaN. *)
Definition leb : float -> float -> bool := SFleb.
Definition ltb : float -> float -> bool := SFltb.

(** [float(z)] for an [int] inside the range of the format. *)
Definition of_int (z : Z) : float := binary_normalize prec emax z 0 false.

Definition zero : float := S754_zero false.

Definition is_zero (x : float) : bool :=
  match x with S754_zero _ => true | _ => false end.

Definition is_infinite (x : float) : bool :=
  match x with S754_infinity _ => true | _ => false end.

Definition is_nan (x : float) : bool :=
  match x with S754_nan => true | _ => false end.

(** Neither an infinity nor a NaN. *)
Definition is_finite (x : float) : bool :=
  match x with S754_zero _ | S754_finite _ _ _ => true | _ => false end.

(** [x / y] on floats: [ZeroDivisionError] for a divisor that is a zero. *)
Definition truediv (x y : float) : result float :=
  if is_zero y then Raise ZeroDivisionError else Ok (div x y).

(** [int(x)]: truncation toward zero. *)
Definition to_int (x : float) : result Z :=
  match x with
  | S754_nan => Raise ValueError
  | S754_infinity _ => Raise OverflowError
  | S754_zero _ => Ok 0%Z
  | S754_finite s m e =>
      let n := Z.shiftl (Zpos m) e in
      Ok (if s then Z.opp n else n)
  end.

(** The rational a float that is finite stands for, in lowest terms. *)
Definition to_Q (x : float) : Q :=
  match x with
  | S754_finite s m e =>
      let q := Qred (inject_Z (Zpos m) * Qpower 2 e) in
      if s then - q else q
  | _ => 0
  end.

(** The float nearest to the decimal numeral [m / 10^k], for [m] and [10^k]
    below 2^53. *)
Definition decimal (m : Z) (k : Z) : float := div (of_int m) (of_int (10 ^ k)).

(** [math.pi] *)
Definition math_pi : float := S754_finite false 7074237752028440 (-51).

End Binary64.

(** ** Strings *)

Local Open Scope string_scope.

(** [needle in hay] *)
Fixpoint contains (needle hay : string) : bool :=
  if String.prefix needle hay then true
  else match hay with
       | EmptyString => false
       | String _ hay' => contains needle hay'
       end.

(** [s.split(sep)] for a separator that is not empty: [cur] is the piece
    being read and [skip] counts the characters of a separator still to pass. *)
Fixpoint split_from (sep : string) (skip : nat) (cur s : string) : list string :=
  match s with
  | EmptyString => [cur]
  | String c rest =>
      match skip with
      | S k => split_from sep k cur rest
      | O =>
          if String.prefix sep s
          then cur :: split_from sep (String.length sep - 1) "" rest
          else split_from sep 0 (cur ++ String c "") rest
      end
  end.

Definition split (sep s : string) : list string := split_from sep 0 "" s.

(** [s.split(sep, 1)]: at most one cut, at the first separator. *)
Fixpoint split_once_from (sep cur s : string) : list string :=
  match s with
  | EmptyString => [cur]
  | String c rest =>
      if String.prefix sep s
      then [cur; substring (String.length sep) (String.length s) s]
      else split_once_from sep (cur ++ String c "") rest
  end.

Definition split_once (sep s : string) : list string := split_once_from sep "" s.

Definition in_range (lo hi n : nat) : bool := (lo <=? n)%nat && (n <=? hi)%nat.

(** [s.lower()] on the UTF-8 bytes of [s]: the Latin capitals A-Z and the
    Cyrillic capitals U+0400-U+042F are mapped to their small letters, every
    other character is kept.  (Python lowers the capitals of the other
    alphabets as well; none of them becomes a Latin or Cyrillic letter.) *)
Fixpoint lower (s : string) : string :=
  match s with
  | EmptyString => EmptyString
  | String c rest =>
      let n := nat_of_ascii c in
      if in_range 65 90 n then String (ascii_of_nat (n + 32)) (lower rest)
      else if (n =? 208)%nat then
        match rest with
        | EmptyString => String c EmptyString
        | String c2 rest2 =>
            let m := nat_of_ascii c2 in
            if in_range 144 159 m then
              String c (String (ascii_of_nat (m + 32)) (lower rest2))
            else if in_range 160 175 m then
              String (ascii_of_nat 209) (String (ascii_of_nat (m - 32)) (lower rest2))
            else if in_range 128 143 m then
              String (ascii_of_nat 209) (String (ascii_of_nat (m + 16)) (lower rest2))
            else String c (String c2 (lower rest2))
        end
      else String c (lower rest)
  end.

Definition is_space (c : ascii) : bool :=
  let n := nat_of_ascii c in in_range 9 13 n || in_range 28 32 n.

Fixpoint lstrip (s : string) : string :=
  match s with
  | EmptyString => EmptyString
  | String c rest => if is_space c then lstrip rest else s
  end.

Fixpoint rev_string (acc s : string) : string :=
  match s with
  | EmptyString => acc
  | String c rest => rev_string (String c acc) rest
  end.

Definition rstrip (s : string) : string :=
  rev_string "" (lstrip (rev_string "" s)).

(** [s.strip()] (ASCII white space). *)
Definition strip (s : string) : string := rstrip (lstrip s).

(** ** Values and dictionaries *)

(** The Python values that reach a parameter map. *)
Inductive pyval : Type :=
| VNone
| VInt (z : Z)
| VFloat (q : Q)
| VStr (s : string)
| VCoords (d : list (string * list (Q * Q))).

Definition dict (V : Type) : Type := list (string * V).

Fixpoint dict_get {V : Type} (k : string) (d : dict V) : option V :=
  match d with
  | [] => None
  | (k', v) :: d' => if String.eqb k k' then Some v else dict_get k d'
  end.

Definition dict_mem {V : Type} (k : string) (d : dict V) : bool :=
  match dict_get k d with Some _ => true | None => false end.

(** [d[k] = v]: the value is replaced in place, a new key goes last. *)
Fixpoint dict_set {V : Type} (k : string) (v : V) (d : dict V) : dict V :=
  match d with
  | [] => [(k, v)]
  | (k', v') :: d' =>
      if String.eqb k k' then (k', v) :: d' else (k', v') :: dict_set k v d'
  end.

(** [d.pop(k)] for a key that is present. *)
Fixpoint dict_pop {V : Type} (k : string) (d : dict V) : dict V :=
  match d with
  | [] => []
  | (k', v') :: d' =>
      if String.eqb k k' then d' else (k', v') :: dict_pop k d'
  end.

(** [d[k]] *)
Definition dict_item {V : Type} (k : string) (d : dict V) : result V :=
  match dict_get k d with
  | Some v => Ok v
  | None => Raise KeyError
  end.

(** [d.get(k, default)] *)
Definition dict_get_default {V : Type} (k : string) (default : V) (d : dict V) : V :=
  match dict_get k d with
  | Some v => v
  | None => default
  end.

(** What a command maps its name to: the parameter map of a function token,
    or the text of a condition record. *)
Inductive cmdval : Type :=
| CParams (params : dict pyval)
| CText (s : string).

Definition command_dict : Type := dict cmdval.

Local Close Scope string_scope.

(** Rational stand-ins for [math.cos] and [math.sin], the first terms of
    their series: they run the generators on concrete inputs. *)
Definition cos_series (x : Q) : Q := 1 - x * x / 2 + x * x * x * x / 24.
Definition sin_series (x : Q) : Q := x - x * x * x / 6 + x * x * x * x * x / 120.

(** ** [trajectories.py]: the trajectory generator *)

Module Trajectories.

(** A waypoint: (longitude, latitude). *)
Definition point : Type := (Q * Q)%type.

Definition EARTH_RADIUS : Q := 6371000.
Definition DEG_TO_RAD : Q := math_pi / 180.
Definition RAD_TO_DEG : Q := 180 / math_pi.
Definition COS_LAT_THRESHOLD : Q := 1 # 1000000000000.
Definition METERS_PER_DEGREE : Q := 111320.

Definition vertical : string := "вертикально".

(** [SpiralGenerator.ANGLE_STEP] *)
Definition ANGLE_STEP : Q := math_pi / 8.

Section Generators.

(** [math.cos] and [math.sin]. *)
Variables cos sin : Q -> Q.

(** [TrajectoryGenerator.add_meters_to_coordinates] *)
Definition add_meters_to_coordinates
    (lat lon meters_north meters_east : Q) : point :=
  if Qle_bool 90 (Qabs lat) then
    let delta_lat := meters_north / EARTH_RADIUS * RAD_TO_DEG in
    (round6 lon, round6 (lat + delta_lat))
  else
    let lat_rad := lat * DEG_TO_RAD in
    let delta_lat := meters_north / EARTH_RADIUS * RAD_TO_DEG in
    let cos_lat := cos lat_rad in
    let delta_lon :=
      if Qlt_bool COS_LAT_THRESHOLD (Qabs cos_lat)
      then meters_east / (EARTH_RADIUS * cos_lat) * RAD_TO_DEG
      else 0 in
    (round6 (lon + delta_lon), round6 (lat + delta_lat)).

(** [TrajectoryGenerator.rotate_point] *)
Definition rotate_point (origin p : point) (angle_deg : Q) : point :=
  let '(ox, oy) := origin in
  let '(px, py) := p in
  let angle_rad := angle_deg * DEG_TO_RAD in
  let cos_a := cos angle_rad in
  let sin_a := sin angle_rad in
  let dx := px - ox in
  let dy := py - oy in
  (round6 (ox + cos_a * dx - sin_a * dy),
   round6 (oy + sin_a * dx + cos_a * dy)).

(** The body of the loop of [_generate_meander_segment] at index [i]:
    the two waypoints the pass appends to [points]. *)
Definition meander_pass (start_lon start_lat size spacing_m : Q)
    (is_vertical : bool) (i : nat) : list point :=
  let offset := inject_Z (Z.of_nat i) * spacing_m in
  if is_vertical then
    let current := add_meters_to_coordinates start_lat start_lon 0 offset in
    if Nat.even i then
      let end_ := add_meters_to_coordinates (snd current) (fst current) size 0 in
      [current; end_]
    else
      let top := add_meters_to_coordinates start_lat start_lon size offset in
      [top; current]
  else
    let current := add_meters_to_coordinates start_lat start_lon offset 0 in
    if Nat.even i then
      let end_ := add_meters_to_coordinates (snd current) (fst current) 0 size in
      [current; end_]
    else
      let right := add_meters_to_coordinates start_lat start_lon offset size in
      [right; current].

(** The number of passes less one: [max(1, int(steps / spacing_m))], on the
    exact quotient.  The count on the rounded quotient, and the exceptions
    of [int], are those of [Generators64.meander_num_passes]. *)
Definition meander_num_passes (steps spacing_m : Q) : result Z :=
  q <- py_div steps spacing_m ;;
  Ok (Z.max 1 (py_int q)).

(** [BaseMeanderGenerator._generate_meander_segment] *)
Definition _generate_meander_segment
    (start_lon start_lat width_m length_m spacing_m : Q)
    (direction : string) : result (list point) :=
  let is_vertical := String.eqb direction vertical in
  let '(size, steps) :=
    if is_vertical then (length_m, width_m) else (width_m, length_m) in
  num_passes <- meander_num_passes steps spacing_m ;;
  Ok (flat_map (meander_pass start_lon start_lat size spacing_m is_vertical)
               (seq 0 (Z.to_nat (num_passes + 1)%Z))).

(** [MeanderGenerator.generate_meander] *)
Definition generate_meander
    (start_lon start_lat width_m length_m spacing_m : Q)
    (direction : string) (angle_deg : Q) : result (list point) :=
  points <- _generate_meander_segment start_lon start_lat width_m length_m
              spacing_m direction ;;
  if Qeq_bool angle_deg 0 then Ok points
  else Ok (map (fun p => rotate_point (start_lon, start_lat) p angle_deg) points).

(** [CenteredMeanderGenerator.generate_centered_meander] *)
Definition generate_centered_meander
    (center_lon center_lat width_m length_m spacing_m : Q)
    (direction : string) (angle_deg : Q) : result (list point) :=
  let half_width_m := width_m / 2 in
  let half_length_m := length_m / 2 in
  let '(start_lon, start_lat) :=
    add_meters_to_coordinates center_lat center_lon
      (- half_length_m) (- half_width_m) in
  points <- _generate_meander_segment start_lon start_lat width_m length_m
              spacing_m direction ;;
  let points := tl points in
  if Qeq_bool angle_deg 0 then Ok points
  else Ok (map (fun p => rotate_point (center_lon, center_lat) p angle_deg) points).

(** [points.extend(body(i))] for [i] in [range]: the first exception ends
    the loop. *)
Fixpoint for_extend {A : Type} (body : nat -> result (list A)) (range : list nat)
    : result (list A) :=
  match range with
  | [] => Ok []
  | i :: range' =>
      ps <- body i ;;
      qs <- for_extend body range' ;;
      Ok (ps ++ qs)
  end.

(** One turn of the [while] loop of [generate_spiral]: the new radius and
    the new [points], the radius growing by the exact increment.  The turn
    on rounded floats, where a radius may absorb the increment and
    [math.cos] raises at an infinity, is [Generators64.spiral_step]. *)
Definition spiral_step (center_lon center_lat spacing_m direction : Q)
    (point_freq : Z) (radius : Q) (points : list point)
    : result (Q * list point) :=
  let radius := radius + spacing_m * ANGLE_STEP / (2 * math_pi) in
  angle <- py_div (direction * 2 * math_pi * radius) spacing_m ;;
  let dx := radius * cos angle in
  let dy := radius * sin angle in
  if (point_freq =? 0)%Z then Raise ZeroDivisionError
  else if (Z.of_nat (List.length points) mod point_freq =? 0)%Z
  then Ok (radius,
           points ++ [add_meters_to_coordinates center_lat center_lon dy dx])
  else Ok (radius, points).

(** The [while radius <= float(max_radius_m)] loop; [None] when [fuel]
    turns do not reach its end. *)
Fixpoint spiral_loop (fuel : nat)
    (center_lon center_lat max_radius_m spacing_m direction : Q)
    (point_freq : Z) (radius : Q) (points : list point)
    : option (result (list point)) :=
  if Qle_bool radius max_radius_m then
    match fuel with
    | O => None
    | S fuel' =>
        match spiral_step center_lon center_lat spacing_m direction
                point_freq radius points with
        | Ok (radius', points') =>
            spiral_loop fuel' center_lon center_lat max_radius_m spacing_m
              direction point_freq radius' points'
        | Raise e => Some (Raise e)
        end
    end
  else Some (Ok points).

(** [SpiralGenerator.generate_spiral] *)
Definition generate_spiral (fuel : nat)
    (center_lon center_lat max_radius_m spacing_m : Q)
    (clockwise : bool) (point_freq : Z) : option (result (list point)) :=
  let points := [(center_lon, center_lat)] in
  let direction := if clockwise then 1 else - (1) in
  spiral_loop fuel center_lon center_lat max_radius_m spacing_m direction
    point_freq 0 points.

Definition round_point (p : point) : point := (round6 (fst p), round6 (snd p)).

(** The body of the loop of [generate_star] at index [i]. *)
Definition star_ray (center_lon center_lat radius_m angle_step cos_lat
    angle_offset line_length : Q) (i : nat) : result (list point) :=
  let angle := radians angle_offset + inject_Z (Z.of_nat i) * angle_step in
  ox <- py_div (line_length * cos angle) (111320 * cos_lat) ;;
  let outer := (center_lon + ox, center_lat + (line_length * sin angle) / 111320) in
  if Qlt_bool 0 radius_m then
    let inner_angle := angle + angle_step / 2 in
    ix <- py_div (radius_m * cos inner_angle) (111320 * cos_lat) ;;
    let inner :=
      (center_lon + ix, center_lat + (radius_m * sin inner_angle) / 111320) in
    Ok [outer; inner; (center_lon, center_lat)]
  else Ok [outer; (center_lon, center_lat)].

(** [StarGenerator.generate_star] *)
Definition generate_star (center_lon center_lat radius_m num_lines
    angle_offset line_length : Q) : result (list point) :=
  if Qlt_bool num_lines 2 then Raise ValueError
  else
    let angle_step := 2 * math_pi / num_lines in
    let cos_lat := cos (center_lat * math_pi / 180) in
    points <- for_extend
                (star_ray center_lon center_lat radius_m angle_step cos_lat
                   angle_offset line_length)
                (seq 0 (Z.to_nat (py_int num_lines))) ;;
    Ok (map round_point points).

(** The body of the loop of [generate_rosette] at index [i]. *)
Definition rosette_ray (center_lon center_lat radius_m angle_step cos_lat
    angle_offset : Q) (i : nat) : result (list point) :=
  let angle := radians angle_offset + inject_Z (Z.of_nat i) * angle_step in
  ex <- py_div (radius_m * cos angle) (111320 * cos_lat) ;;
  let end_ := (center_lon + ex, center_lat + (radius_m * sin angle) / 111320) in
  Ok [end_; (center_lon, center_lat)].

(** [RosetteGenerator.generate_rosette] *)
Definition generate_rosette (center_lon center_lat radius_m : Q)
    (num_passes : Z) (angle_offset : Q) : result (list point) :=
  angle_step <- py_div math_pi (inject_Z num_passes) ;;
  let cos_lat := cos (radians center_lat) in
  points <- for_extend
              (rosette_ray center_lon center_lat radius_m angle_step cos_lat
                 angle_offset)
              (seq 0 (Z.to_nat num_passes)) ;;
  Ok (map round_point points).

End Generators.

Local Open Scope string_scope.

(** The keys of [Figure.TRAJECTORY_MAP]. *)
Definition TRAJECTORY_MAP : list string :=
  ["меандр"; "центральный_меандр"; "спираль"; "звезда"; "розетка"].

(** A [Figure] after [__init__]: the two coordinates are already decoded. *)
Record Figure : Type := mkFigure {
  lon : Q;
  lat : Q;
  key : string;
  command : command_dict
}.

(** [Figure._get_trajectory_type] *)
Definition _get_trajectory_type (self : Figure) : result (option string) :=
  match dict_get (key self) (command self) with
  | None => Ok None
  | Some (CText _) => Raise AttributeError
  | Some (CParams params) =>
      match dict_get_default "траектория" (VStr "") params with
      | VStr text =>
          let traj := lower (hd "" (split "," text)) in
          Ok (if contains "меандр" traj && String.eqb (key self) "обследование_точки"
              then Some "центральный_меандр"
              else if contains "меандр" traj then Some "меандр"
              else if contains "спираль" traj then Some "спираль"
              else if contains "звезда" traj then Some "звезда"
              else if contains "розетка" traj || contains "веер" traj
              then Some "розетка"
              else None)
      | _ => Raise AttributeError
      end
  end.

(** *** The dispatch as the spec words it *)

(** The text before the first comma. *)
Fixpoint before_comma (s : string) : string :=
  match s with
  | EmptyString => EmptyString
  | String c rest =>
      if Ascii.eqb c "," then EmptyString else String c (before_comma rest)
  end.

(** The keywords in the order they are tried, each with the pattern it
    selects; the last one is the second name of the rosette. *)
Definition pattern_keywords : list (string * string) :=
  [("меандр", "меандр"); ("спираль", "спираль"); ("звезда", "звезда");
   ("розетка", "розетка"); ("веер", "розетка")].

(** The pattern of the first keyword that occurs in [traj]. *)
Definition first_keyword (traj : string) : option string :=
  match find (fun kw => contains (fst kw) traj) pattern_keywords with
  | Some kw => Some (snd kw)
  | None => None
  end.

(** The pattern a command of name [key] gets: the centred meander takes the
    place of the meander in a point survey. *)
Definition spec_trajectory_type (key traj : string) : option string :=
  match first_keyword traj with
  | Some pattern =>
      if String.eqb pattern "меандр" && String.eqb key "обследование_точки"
      then Some "центральный_меандр"
      else Some pattern
  | None => None
  end.

(** A parameter read as a number; [None] for a value that is not one (the
    type errors of the arithmetic on such a value are not followed). *)
Definition num (v : pyval) : option Q :=
  match v with
  | VInt z => Some (inject_Z z)
  | VFloat q => Some q
  | _ => None
  end.

(** [text.split(", ")[1]] *)
Definition direction_of (text : string) : result string :=
  match split ", " text with
  | _ :: d :: _ => Ok d
  | _ => Raise IndexError
  end.

Section Dispatch.

Variables cos sin : Q -> Q.

(** The arguments of the two meander calls of [coordinates], read in the
    order of the call, then the call of [generator]. *)
Definition meander_call
    (generator : Q -> Q -> Q -> Q -> Q -> string -> Q -> result (list point))
    (self : Figure) (params : dict pyval) : option (result (list point)) :=
  match dict_get "длина" params, dict_get "ширина" params,
        dict_get "межгалс" params with
  | None, _, _ | _, None, _ | _, _, None => Some (Raise KeyError)
  | Some width, Some length, Some spacing =>
      match dict_get_default "траектория" (VStr "") params with
      | VStr text =>
          match direction_of text with
          | Raise e => Some (Raise e)
          | Ok direction =>
              match num width, num length, num spacing,
                    num (dict_get_default "угол" (VInt 0) params) with
              | Some w, Some l, Some s, Some a =>
                  Some (generator (lon self) (lat self) w l s direction a)
              | _, _, _, _ => None
              end
          end
      | _ => Some (Raise AttributeError)
      end
  end.

(** The spiral call of [coordinates]. *)
Definition spiral_call (fuel : nat) (self : Figure) (params : dict pyval)
    : option (result (list point)) :=
  match dict_get "радиус" params, dict_get "межгалс" params with
  | None, _ | _, None => Some (Raise KeyError)
  | Some radius, Some spacing =>
      match num radius, num spacing with
      | Some r, Some s =>
          match dict_get_default "направление" (VStr "по часовой") params with
          | VStr d =>
              generate_spiral cos sin fuel (lon self) (lat self) r s
                (String.eqb (lower d) "против часовой") 1
          | _ => Some (Raise AttributeError)
          end
      | _, _ => None
      end
  end.

(** The star call of [coordinates]. *)
Definition star_call (self : Figure) (params : dict pyval)
    : option (result (list point)) :=
  match num (dict_get_default "радиус" (VInt 10) params),
        num (dict_get_default "угол" (VInt 0) params),
        num (dict_get_default "линии" (VInt 5) params),
        num (dict_get_default "длина_луча" (VInt 20) params) with
  | Some radius_m, Some angle_offset, Some num_lines, Some line_length =>
      Some (generate_star cos sin (lon self) (lat self) radius_m num_lines
              angle_offset line_length)
  | _, _, _, _ => None
  end.

(** The rosette call of [coordinates]: [range(num_passes)] needs an
    [int]. *)
Definition rosette_call (self : Figure) (params : dict pyval)
    : option (result (list point)) :=
  match dict_get_default "проходы" (VInt 6) params with
  | VInt num_passes =>
      match num (dict_get_default "радиус" (VInt 10) params),
            num (dict_get_default "угол" (VInt 0) params) with
      | Some radius_m, Some angle_offset =>
          Some (generate_rosette cos sin (lon self) (lat self) radius_m
                  num_passes angle_offset)
      | _, _ => None
      end
  | VFloat q =>
      Some (Raise (if Qeq_bool q 0 then ZeroDivisionError else TypeError))
  | _ => Some (Raise TypeError)
  end.

(** [Figure.coordinates]; [None] when the spiral loop is out of [fuel] or a
    parameter is not a number. *)
Definition coordinates (fuel : nat) (self : Figure)
    : option (result (list point)) :=
  match _get_trajectory_type self with
  | Raise e => Some (Raise e)
  | Ok None => Some (Ok [])
  | Ok (Some trajectory_type) =>
      if negb (existsb (String.eqb trajectory_type) TRAJECTORY_MAP)
      then Some (Ok [])
      else
        match dict_get (key self) (command self) with
        | Some (CParams params) =>
            if String.eqb trajectory_type "меандр" then
              meander_call (generate_meander cos sin) self params
            else if String.eqb trajectory_type "центральный_меандр" then
              meander_call (generate_centered_meander cos sin) self params
            else if String.eqb trajectory_type "спираль" then
              spiral_call fuel self params
            else if String.eqb trajectory_type "звезда" then
              star_call self params
            else rosette_call self params
        | Some (CText _) => Some (Raise TypeError)
        | None => Some (Raise KeyError)
        end
  end.

End Dispatch.

Local Close Scope string_scope.

End Trajectories.

(** ** [trajectories.py] on binary64: the meander and the spiral *)

Module Generators64.

Import Binary64.

(** A waypoint: (longitude, latitude). *)
Definition point : Type := (float * float)%type.

Definition EARTH_RADIUS : float := of_int 6371000.
Definition DEG_TO_RAD : float := div math_pi (of_int 180).
Definition RAD_TO_DEG : float := div (of_int 180) math_pi.
(** The literal [1e-12]. *)
Definition COS_LAT_THRESHOLD : float := div (of_int 1) (of_int 1000000000000).

(** [SpiralGenerator.ANGLE_STEP] *)
Definition ANGLE_STEP : float := div math_pi (of_int 8).

Section Generators.

(** [math.cos] and [math.sin] where they return, that is off the infinities,
    and [round(x, 6)], which returns on every float. *)
Variables cos sin : float -> float.
Variable round6 : float -> float.

(** [math.cos(x)] and [math.sin(x)]: [ValueError] at an infinity. *)
Definition math_cos (x : float) : result float :=
  if is_infinite x then Raise ValueError else Ok (cos x).

Definition math_sin (x : float) : result float :=
  if is_infinite x then Raise ValueError else Ok (sin x).

(** [TrajectoryGenerator.add_meters_to_coordinates].  [math.cos] is called
    at [lat * DEG_TO_RAD] with [abs(lat) < 90] or [lat] a NaN, never at an
    infinity, and does not raise here. *)
Definition add_meters_to_coordinates
    (lat lon meters_north meters_east : float) : point :=
  if leb (of_int 90) (abs lat) then
    let delta_lat := mul (div meters_north EARTH_RADIUS) RAD_TO_DEG in
    (round6 lon, round6 (add lat delta_lat))
  else
    let lat_rad := mul lat DEG_TO_RAD in
    let delta_lat := mul (div meters_north EARTH_RADIUS) RAD_TO_DEG in
    let cos_lat := cos lat_rad in
    let delta_lon :=
      if ltb COS_LAT_THRESHOLD (abs cos_lat)
      then mul (div meters_east (mul EARTH_RADIUS cos_lat)) RAD_TO_DEG
      else zero in
    (round6 (add lon delta_lon), round6 (add lat delta_lat)).

(** [TrajectoryGenerator.rotate_point] *)
Definition rotate_point (origin p : point) (angle_deg : float) : result point :=
  let '(ox, oy) := origin in
  let '(px, py) := p in
  let angle_rad := mul angle_deg DEG_TO_RAD in
  cos_a <- math_cos angle_rad ;;
  sin_a <- math_sin angle_rad ;;
  let dx := sub px ox in
  let dy := sub py oy in
  Ok (round6 (sub (add ox (mul cos_a dx)) (mul sin_a dy)),
      round6 (add (add oy (mul sin_a dx)) (mul cos_a dy))).

(** The body of the loop of [_generate_meander_segment] at index [i]. *)
Definition meander_pass (start_lon start_lat size spacing_m : float)
    (is_vertical : bool) (i : nat) : list point :=
  let offset := mul (of_int (Z.of_nat i)) spacing_m in
  if is_vertical then
    let current := add_meters_to_coordinates start_lat start_lon zero offset in
    if Nat.even i then
      let end_ := add_meters_to_coordinates (snd current) (fst current) size zero in
      [current; end_]
    else
      let top := add_meters_to_coordinates start_lat start_lon size offset in
      [top; current]
  else
    let current := add_meters_to_coordinates start_lat start_lon offset zero in
    if Nat.even i then
      let end_ := add_meters_to_coordinates (snd current) (fst current) zero size in
      [current; end_]
    else
      let right := add_meters_to_coordinates start_lat start_lon offset size in
      [right; current].

(** [max(1, int(steps / spacing_m))] *)
Definition meander_num_passes (steps spacing_m : float) : result Z :=
  q <- truediv steps spacing_m ;;
  n <- to_int q ;;
  Ok (Z.max 1 n).

(** [BaseMeanderGenerator._generate_meander_segment] *)
Definition _generate_meander_segment
    (start_lon start_lat width_m length_m spacing_m : float)
    (direction : string) : result (list point) :=
  let is_vertical := String.eqb direction Trajectories.vertical in
  let '(size, steps) :=
    if is_vertical then (length_m, width_m) else (width_m, length_m) in
  num_passes <- meander_num_passes steps spacing_m ;;
  Ok (flat_map (meander_pass start_lon start_lat size spacing_m is_vertical)
               (seq 0 (Z.to_nat (num_passes + 1)%Z))).

(** [[f(p) for p in points]] *)
Fixpoint for_each {A B : Type} (f : A -> result B) (l : list A) : result (list B) :=
  match l with
  | [] => Ok []
  | a :: rest =>
      b <- f a ;;
      bs <- for_each f rest ;;
      Ok (b :: bs)
  end.

(** [MeanderGenerator.generate_meander]: a float is true unless it is a
    zero. *)
Definition generate_meander
    (start_lon start_lat width_m length_m spacing_m : float)
    (direction : string) (angle_deg : float) : result (list point) :=
  points <- _generate_meander_segment start_lon start_lat width_m length_m
              spacing_m direction ;;
  if is_zero angle_deg then Ok points
  else for_each (fun p => rotate_point (start_lon, start_lat) p angle_deg) points.

(** [CenteredMeanderGenerator.generate_centered_meander] *)
Definition generate_centered_meander
    (center_lon center_lat width_m length_m spacing_m : float)
    (direction : string) (angle_deg : float) : result (list point) :=
  let half_width_m := div width_m (of_int 2) in
  let half_length_m := div length_m (of_int 2) in
  let '(start_lon, start_lat) :=
    add_meters_to_coordinates center_lat center_lon
      (neg half_length_m) (neg half_width_m) in
  points <- _generate_meander_segment start_lon start_lat width_m length_m
              spacing_m direction ;;
  let points := tl points in
  if is_zero angle_deg then Ok points
  else for_each (fun p => rotate_point (center_lon, center_lat) p angle_deg) points.

(** One turn of the [while] loop of [generate_spiral]. *)
Definition spiral_step (center_lon center_lat spacing_m : float) (direction : Z)
    (point_freq : Z) (radius : float) (points : list point)
    : result (float * list point) :=
  let radius :=
    add radius (div (mul spacing_m ANGLE_STEP) (mul (of_int 2) math_pi)) in
  angle <- truediv (mul (mul (of_int (direction * 2)) math_pi) radius) spacing_m ;;
  c <- math_cos angle ;;
  s <- math_sin angle ;;
  let dx := mul radius c in
  let dy := mul radius s in
  if (point_freq =? 0)%Z then Raise ZeroDivisionError
  else if (Z.of_nat (List.length points) mod point_freq =? 0)%Z
  then Ok (radius,
           (points ++ [add_meters_to_coordinates center_lat center_lon dy dx])%list)
  else Ok (radius, points).

(** The [while radius <= float(max_radius_m)] loop; [None] when [fuel]
    turns do not reach its end. *)
Fixpoint spiral_loop (fuel : nat)
    (center_lon center_lat max_radius_m spacing_m : float) (direction : Z)
    (point_freq : Z) (radius : float) (points : list point)
    : option (result (list point)) :=
  if leb radius max_radius_m then
    match fuel with
    | O => None
    | S fuel' =>
        match spiral_step center_lon center_lat spacing_m direction
                point_freq radius points with
        | Ok (radius', points') =>
            spiral_loop fuel' center_lon center_lat max_radius_m spacing_m
              direction point_freq radius' points'
        | Raise e => Some (Raise e)
        end
    end
  else Some (Ok points).

(** [SpiralGenerator.generate_spiral] *)
Definition generate_spiral (fuel : nat)
    (center_lon center_lat max_radius_m spacing_m : float)
    (clockwise : bool) (point_freq : Z) : option (result (list point)) :=
  let points := [(center_lon, center_lat)] in
  let direction := if clockwise then 1%Z else (-1)%Z in
  spiral_loop fuel center_lon center_lat max_radius_m spacing_m direction
    point_freq zero points.

End Generators.

(** Stand-ins for the runs on concrete inputs: the first terms of the
    series, and the identity for the decimal rounding. *)
Definition cos_stub (x : float) : float :=
  sub (of_int 1) (div (mul x x) (of_int 2)).
Definition sin_stub (x : float) : float := x.
Definition round_stub (x : float) : float := x.

(** The floats of the runs: 0.5, 0.1 and 5e-324, the least positive float. *)
Definition half : float := decimal 5 1.
Definition tenth : float := decimal 1 1.
Definition smallest : float := S754_finite false 1 (-1074).

End Generators64.


(** ** [analyzator.py]: the variable table *)

Module Analyzator.

Local Open Scope string_scope.

(** *** The expressions [eval] is followed on

    [eval] is the Python builtin.  It is followed on one fragment only: a
    text of at most 200 bytes made of decimal integers, decimal numerals
    [digits.digits] of at most 15 digits, names, [+], [-], [*], [/],
    parentheses, spaces and tabs.  A float is a binary64 float.  Three
    outcomes of the parser: an expression, a text Python rejects with
    [SyntaxError], and a text that is not followed (a keyword, a call, the
    empty tuple, a character or an operator outside the fragment). *)

Inductive token : Type :=
| TNum (z : Z)
| TFloat (f : Binary64.float)
| TName (s : string)
| TPlus
| TMinus
| TStar
| TSlash
| TLParen
| TRParen.

Inductive lex_state : Type :=
| LIdle
| LNum (digits : string)
| LFrac (digits fraction : string)
| LName (chars : string).

Definition is_digit (c : ascii) : bool := in_range 48 57 (nat_of_ascii c).

Definition is_letter (c : ascii) : bool :=
  let n := nat_of_ascii c in
  in_range 65 90 n || in_range 97 122 n || (n =? 95)%nat.

(** The first byte of a Cyrillic letter U+0400-U+047F, and its second byte. *)
Definition is_cyrillic_lead (c : ascii) : bool := in_range 208 209 (nat_of_ascii c).
Definition is_continuation (c : ascii) : bool := in_range 128 191 (nat_of_ascii c).

Fixpoint Z_of_digits (acc : Z) (s : string) : Z :=
  match s with
  | EmptyString => acc
  | String c rest => Z_of_digits (acc * 10 + Z.of_nat (nat_of_ascii c - 48))%Z rest
  end.

(** The float of the numeral [digits.fraction]: the nearest one, as the
    quotient of two integers that are floats themselves.  A numeral of more
    than 15 digits, or without a digit after the point, is left out. *)
Definition float_literal (digits fraction : string) : option Binary64.float :=
  let k := String.length fraction in
  if (k =? 0)%nat || (15 <? String.length digits + k)%nat then None
  else Some (Binary64.decimal (Z_of_digits 0 (digits ++ fraction)) (Z.of_nat k)).

(** The token a finished run of characters makes.  An integer of several
    digits that starts with [0] is left out. *)
Definition flush (st : lex_state) : option (list token) :=
  match st with
  | LIdle => Some []
  | LNum ds =>
      if String.prefix "0" ds && (1 <? String.length ds)%nat then None
      else Some [TNum (Z_of_digits 0 ds)]
  | LFrac ds fs =>
      match float_literal ds fs with
      | Some f => Some [TFloat f]
      | None => None
      end
  | LName cs => Some [TName cs]
  end.

Definition emit (st : lex_state) (t : list token) (rest : option (list token))
    : option (list token) :=
  match flush st, rest with
  | Some a, Some b => Some (a ++ t ++ b)%list
  | _, _ => None
  end.

(** [**] and [//] are operators of their own, outside the fragment. *)
Definition doubled (c : ascii) (rest : string) : bool :=
  match rest with
  | String c' _ => Ascii.eqb c c'
  | EmptyString => false
  end.

Fixpoint lex (st : lex_state) (s : string) : option (list token) :=
  match s with
  | EmptyString => flush st
  | String c rest =>
      if is_digit c then
        match st with
        | LIdle => lex (LNum (String c "")) rest
        | LNum ds => lex (LNum (ds ++ String c "")) rest
        | LFrac ds fs => lex (LFrac ds (fs ++ String c "")) rest
        | LName cs => lex (LName (cs ++ String c "")) rest
        end
      else if is_letter c then
        match st with
        | LIdle => lex (LName (String c "")) rest
        | LNum _ | LFrac _ _ => None
        | LName cs => lex (LName (cs ++ String c "")) rest
        end
      else if is_cyrillic_lead c then
        match rest with
        | EmptyString => None
        | String c2 rest2 =>
            if is_continuation c2 then
              match st with
              | LIdle => lex (LName (String c (String c2 ""))) rest2
              | LNum _ | LFrac _ _ => None
              | LName cs => lex (LName (cs ++ String c (String c2 ""))) rest2
              end
            else None
        end
      else if Ascii.eqb c "." then
        match st with
        | LNum ds => lex (LFrac ds "") rest
        | _ => None
        end
      else if Ascii.eqb c " " || Ascii.eqb c "009" then emit st [] (lex LIdle rest)
      else if Ascii.eqb c "+" then emit st [TPlus] (lex LIdle rest)
      else if Ascii.eqb c "-" then emit st [TMinus] (lex LIdle rest)
      else if Ascii.eqb c "*" then
        if doubled c rest then None else emit st [TStar] (lex LIdle rest)
      else if Ascii.eqb c "/" then
        if doubled c rest then None else emit st [TSlash] (lex LIdle rest)
      else if Ascii.eqb c "(" then emit st [TLParen] (lex LIdle rest)
      else if Ascii.eqb c ")" then emit st [TRParen] (lex LIdle rest)
      else None
  end.

Inductive expr : Type :=
| ENum (z : Z)
| EFloat (f : Binary64.float)
| EName (x : string)
| EPos (a : expr)
| ENeg (a : expr)
| EAdd (a b : expr)
| ESub (a b : expr)
| EMul (a b : expr)
| EDiv (a b : expr).

(** What the parser makes of a text: [Invalid] is Python's [SyntaxError],
    [Unfollowed] a text outside the fragment. *)
Inductive parsed (A : Type) : Type :=
| Parsed (a : A)
| Invalid
| Unfollowed.

Arguments Parsed {A} a.
Arguments Invalid {A}.
Arguments Unfollowed {A}.

Definition parser : Type := list token -> parsed (expr * list token).

(** An opening parenthesis after an atom is a call. *)
Definition no_call (e : expr) (rest : list token) : parsed (expr * list token) :=
  match rest with
  | TLParen :: _ => Unfollowed
  | _ => Parsed (e, rest)
  end.

(** [term: factor (('*' | '/') factor)*] after its first factor. *)
Fixpoint term_tail (factor : parser) (fuel : nat) (acc : expr) (ts : list token)
    : parsed (expr * list token) :=
  match ts, fuel with
  | TStar :: rest, S fuel' =>
      match factor rest with
      | Parsed (e, rest') => term_tail factor fuel' (EMul acc e) rest'
      | Invalid => Invalid
      | Unfollowed => Unfollowed
      end
  | TSlash :: rest, S fuel' =>
      match factor rest with
      | Parsed (e, rest') => term_tail factor fuel' (EDiv acc e) rest'
      | Invalid => Invalid
      | Unfollowed => Unfollowed
      end
  | TStar :: _, O | TSlash :: _, O => Unfollowed
  | _, _ => Parsed (acc, ts)
  end.

Definition parse_term (factor : parser) (fuel : nat) : parser :=
  fun ts =>
    match factor ts with
    | Parsed (e, rest) => term_tail factor fuel e rest
    | Invalid => Invalid
    | Unfollowed => Unfollowed
    end.

(** [sum: term (('+' | '-') term)*] after its first term. *)
Fixpoint sum_tail (factor : parser) (fuel : nat) (acc : expr) (ts : list token)
    : parsed (expr * list token) :=
  match ts, fuel with
  | TPlus :: rest, S fuel' =>
      match parse_term factor fuel' rest with
      | Parsed (e, rest') => sum_tail factor fuel' (EAdd acc e) rest'
      | Invalid => Invalid
      | Unfollowed => Unfollowed
      end
  | TMinus :: rest, S fuel' =>
      match parse_term factor fuel' rest with
      | Parsed (e, rest') => sum_tail factor fuel' (ESub acc e) rest'
      | Invalid => Invalid
      | Unfollowed => Unfollowed
      end
  | TPlus :: _, O | TMinus :: _, O => Unfollowed
  | _, _ => Parsed (acc, ts)
  end.

Definition parse_sum (factor : parser) (fuel : nat) : parser :=
  fun ts =>
    match parse_term factor fuel ts with
    | Parsed (e, rest) => sum_tail factor fuel e rest
    | Invalid => Invalid
    | Unfollowed => Unfollowed
    end.

(** [factor: ('+' | '-') factor | NUMBER | NAME | '(' sum ')'].  The pair
    [()] is the empty tuple. *)
Fixpoint parse_factor (fuel : nat) (ts : list token) : parsed (expr * list token) :=
  match fuel with
  | O => Unfollowed
  | S fuel' =>
      match ts with
      | TNum z :: rest => no_call (ENum z) rest
      | TFloat f :: rest => no_call (EFloat f) rest
      | TName x :: rest => no_call (EName x) rest
      | TPlus :: rest =>
          match parse_factor fuel' rest with
          | Parsed (e, rest') => Parsed (EPos e, rest')
          | r => r
          end
      | TMinus :: rest =>
          match parse_factor fuel' rest with
          | Parsed (e, rest') => Parsed (ENeg e, rest')
          | r => r
          end
      | TLParen :: TRParen :: _ => Unfollowed
      | TLParen :: rest =>
          match parse_sum (parse_factor fuel') fuel' rest with
          | Parsed (e, TRParen :: rest') => no_call e rest'
          | Parsed (_, _) => Invalid
          | Invalid => Invalid
          | Unfollowed => Unfollowed
          end
      | _ => Invalid
      end
  end.

(** The keywords, and the three constants that are keywords too. *)
Definition python_keywords : list string :=
  ["and"; "as"; "assert"; "async"; "await"; "break"; "case"; "class";
   "continue"; "def"; "del"; "elif"; "else"; "except"; "finally"; "for";
   "from"; "global"; "if"; "import"; "in"; "is"; "lambda"; "match";
   "nonlocal"; "not"; "or"; "pass"; "raise"; "return"; "try"; "type";
   "while"; "with"; "yield"; "True"; "False"; "None"].

Definition is_keyword (t : token) : bool :=
  match t with
  | TName x => existsb (String.eqb x) python_keywords
  | _ => false
  end.

(** The whole text as one expression. *)
Definition parse (s : string) : parsed expr :=
  if (200 <? String.length s)%nat then Unfollowed
  else
    match lex LIdle s with
    | Some ts =>
        if existsb is_keyword ts then Unfollowed
        else
          let fuel := S (List.length ts) in
          match parse_sum (parse_factor fuel) fuel ts with
          | Parsed (e, []) => Parsed e
          | Parsed (_, _ :: _) => Invalid
          | Invalid => Invalid
          | Unfollowed => Unfollowed
          end
    | None => Unfollowed
    end.

(** The names some Python scope may bind where [eval] is called: the
    keywords, the locals of [get_variable] and [set_variable], the globals of
    the module and the builtins.  Every name that starts with a capital or
    an underscore counts as such. *)
Definition python_names : list string :=
  ["and"; "as"; "assert"; "async"; "await"; "break"; "case"; "class";
   "continue"; "def"; "del"; "elif"; "else"; "except"; "finally"; "for";
   "from"; "global"; "if"; "import"; "in"; "is"; "lambda"; "match";
   "nonlocal"; "not"; "or"; "pass"; "raise"; "return"; "try"; "type";
   "while"; "with"; "yield";
   "self"; "name"; "default"; "value"; "re";
   "abs"; "aiter"; "all"; "anext"; "any"; "ascii"; "bin"; "bool";
   "breakpoint"; "bytearray"; "bytes"; "callable"; "chr"; "classmethod";
   "compile"; "complex"; "copyright"; "credits"; "delattr"; "dict"; "dir";
   "divmod"; "enumerate"; "eval"; "exec"; "exit"; "filter"; "float";
   "format"; "frozenset"; "getattr"; "globals"; "hasattr"; "hash"; "help";
   "hex"; "id"; "input"; "int"; "isinstance"; "issubclass"; "iter"; "len";
   "license"; "list"; "locals"; "map"; "max"; "memoryview"; "min"; "next";
   "object"; "oct"; "open"; "ord"; "pow"; "print"; "property"; "quit";
   "range"; "repr"; "reversed"; "round"; "set"; "setattr"; "slice";
   "sorted"; "staticmethod"; "str"; "sum"; "super"; "tuple"; "vars"; "zip"].

Definition python_name_known (x : string) : bool :=
  match x with
  | EmptyString => true
  | String c _ =>
      in_range 65 90 (nat_of_ascii c) || (nat_of_ascii c =? 95)%nat
      || existsb (String.eqb x) python_names
  end.

(** A number: an [int] or a [float]. *)
Inductive num : Type :=
| NInt (z : Z)
| NFloat (f : Binary64.float).

(** The float an operand of a mixed operation is converted to:
    [OverflowError] for an [int] beyond the range of the floats. *)
Definition as_float (x : num) : result Binary64.float :=
  match x with
  | NFloat f => Ok f
  | NInt z =>
      let f := Binary64.of_int z in
      if Binary64.is_infinite f then Raise OverflowError else Ok f
  end.

(** [x + y], [x - y] and [x * y]: on two [int]s the exact operation, else
    the float one. *)
Definition arith_op (on_int : Z -> Z -> Z)
    (on_float : Binary64.float -> Binary64.float -> Binary64.float)
    (x y : num) : option (result num) :=
  match x, y with
  | NInt a, NInt b => Some (Ok (NInt (on_int a b)))
  | _, _ =>
      Some (a <- as_float x ;; b <- as_float y ;; Ok (NFloat (on_float a b)))
  end.

(** [x / y]: a float.  The quotient of two [int]s is the nearest float to
    the exact one; it is followed when both are floats themselves (below
    2^53), so that the float division gives it. *)
Definition true_divide (x y : num) : option (result num) :=
  match x, y with
  | NInt a, NInt b =>
      if (b =? 0)%Z then Some (Raise ZeroDivisionError)
      else if (Z.abs a <? 2 ^ 53)%Z && (Z.abs b <? 2 ^ 53)%Z
      then Some (Ok (NFloat (Binary64.div (Binary64.of_int a) (Binary64.of_int b))))
      else None
  | _, _ =>
      Some (a <- as_float x ;; b <- as_float y ;;
            q <- Binary64.truediv a b ;; Ok (NFloat q))
  end.

Definition negate (x : num) : num :=
  match x with
  | NInt z => NInt (- z)
  | NFloat f => NFloat (Binary64.neg f)
  end.

(** The value of an expression of the fragment, left to right, [scope]
    giving what a name evaluates to.  [None] is "not followed". *)
Fixpoint arith (scope : string -> option (result num)) (e : expr)
    : option (result num) :=
  let unary (f : num -> num) (a : option (result num)) :=
    match a with
    | Some (Ok x) => Some (Ok (f x))
    | r => r
    end in
  let binary (f : num -> num -> option (result num)) (a b : option (result num)) :=
    match a with
    | Some (Ok x) =>
        match b with
        | Some (Ok y) => f x y
        | r => r
        end
    | r => r
    end in
  match e with
  | ENum z => Some (Ok (NInt z))
  | EFloat f => Some (Ok (NFloat f))
  | EName x => scope x
  | EPos a => unary (fun x => x) (arith scope a)
  | ENeg a => unary negate (arith scope a)
  | EAdd a b => binary (arith_op Z.add Binary64.add) (arith scope a) (arith scope b)
  | ESub a b => binary (arith_op Z.sub Binary64.sub) (arith scope a) (arith scope b)
  | EMul a b => binary (arith_op Z.mul Binary64.mul) (arith scope a) (arith scope b)
  | EDiv a b => binary true_divide (arith scope a) (arith scope b)
  end.

(** The scope of [eval] in [get_variable] and [set_variable]: a name that
    no scope binds raises [NameError]; a name some scope may bind is not
    followed. *)
Definition python_scope (x : string) : option (result num) :=
  if python_name_known x then None else Some (Raise NameError).

Definition eval_expr (e : expr) : option (result num) := arith python_scope e.

(** The Python value of a number.  An infinity or a NaN has no place in
    [pyval] and is not followed; the sign of a zero is dropped. *)
Definition pyval_of_num (x : num) : option pyval :=
  match x with
  | NInt z => Some (VInt z)
  | NFloat f =>
      if Binary64.is_finite f then Some (VFloat (Binary64.to_Q f)) else None
  end.

(** [eval(text)] on the fragment. *)
Definition py_eval (text : string) : option (result pyval) :=
  match parse text with
  | Parsed e =>
      match eval_expr e with
      | Some (Ok x) => option_map Ok (pyval_of_num x)
      | Some (Raise err) => Some (Raise err)
      | None => None
      end
  | Invalid => Some (Raise SyntaxError)
  | Unfollowed => None
  end.

(** *** [class Variables] *)

(** [Variables._variables] *)
Definition variables : Type := dict pyval.

(** [Variables.set_raw_variable] *)
Definition set_raw_variable (raw_variable : string) (vars : variables)
    : result variables :=
  match map strip (split_once "=" raw_variable) with
  | [name; value] => Ok (dict_set name (VStr value) vars)
  | _ => Raise ValueError
  end.

(** [Variables.set_variable] *)
Definition set_variable (name value : string) (vars : variables)
    : option (result variables) :=
  match py_eval value with
  | Some (Ok v) => Some (Ok (dict_set name v vars))
  | Some (Raise NameError) | Some (Raise SyntaxError) =>
      Some (Ok (dict_set name (VStr value) vars))
  | Some (Raise e) => Some (Raise e)
  | None => None
  end.

(** [Variables.get_variable] *)
Definition get_variable (vars : variables) (name : string) (default : pyval)
    : option (result pyval) :=
  match dict_get name vars with
  | None => Some (Ok default)
  | Some (VStr value) =>
      match py_eval value with
      | Some (Ok v) => Some (Ok v)
      | Some (Raise NameError) | Some (Raise SyntaxError) => Some (Ok (VStr value))
      | Some (Raise e) => Some (Raise e)
      | None => None
      end
  | Some value => Some (Ok value)
  end.

(** The variable tokens of [Analyzator.analyze], in line order. *)
Fixpoint bind_lines (lines : list string) (vars : variables) : result variables :=
  match lines with
  | [] => Ok vars
  | line :: rest =>
      vars' <- set_raw_variable line vars ;;
      bind_lines rest vars'
  end.




(** *** The spec's reading of [resolve] *)



Local Close Scope string_scope.

End Analyzator.

(** ** [processing.py]: the parameter validator *)

Module Processing.

Local Open Scope string_scope.

Inductive ptype : Type := TFloat | TInt.

(** [ParametersValidator.PARAM_TYPES] *)
Definition PARAM_TYPES : dict ptype :=
  [("ширина", TFloat); ("длина", TFloat); ("высота", TFloat);
   ("глубина", TFloat); ("межгалс", TFloat); ("радиус", TFloat);
   ("скорость", TFloat); ("угол", TFloat); ("линии", TInt);
   ("максимальное_время", TInt); ("время_без_связи", TInt)].

(** The rule set [_load_parameters] leaves in the validator. *)
Record ParametersValidator : Type := mkValidator {
  required_keys : dict (list string);
  optional_keys : dict (dict pyval);
  trajectory_dependent : dict (dict (list string))
}.

Section Validator.

(** [float(s)] and [int(s)] on a [str]; [None] is [ValueError]. *)
Variable float_of_string : string -> option Q.
Variable int_of_string : string -> option Z.

(** [_prompt_for_parameter]: what the operator answers for a parameter of a
    command. *)
Variable _prompt_for_parameter : string -> string -> pyval.

Variable self : ParametersValidator.

(** [float(v)] *)
Definition py_float (v : pyval) : result Q :=
  match v with
  | VFloat q => Ok q
  | VInt z => Ok (inject_Z z)
  | VStr s =>
      match float_of_string s with
      | Some q => Ok q
      | None => Raise ValueError
      end
  | _ => Raise TypeError
  end.

(** [int(v)] *)
Definition py_int_of (v : pyval) : result Z :=
  match v with
  | VInt z => Ok z
  | VFloat q => Ok (py_int q)
  | VStr s =>
      match int_of_string s with
      | Some z => Ok z
      | None => Raise ValueError
      end
  | _ => Raise TypeError
  end.

(** [if param not in params: params[param] = self._prompt_for_parameter(cmd, param)] *)
Definition prompt_missing (cmd_name : string) (params : dict pyval)
    (param : string) : dict pyval :=
  if dict_mem param params then params
  else dict_set param (_prompt_for_parameter cmd_name param) params.

(** [_process_point_survey] *)
Definition _process_point_survey (params : dict pyval) : result (dict pyval) :=
  let params := prompt_missing "обследование_точки" params "траектория" in
  match dict_get "обследование_точки" (trajectory_dependent self) with
  | None => Ok params
  | Some dependent =>
      match dict_get "траектория" params with
      | Some (VStr text) =>
          let trajectory := lower text in
          Ok (fold_left
                (fun params (item : string * list string) =>
                   if contains (fst item) trajectory
                   then fold_left (prompt_missing "обследование_точки")
                          (snd item) params
                   else params)
                dependent params)
      | _ => Raise AttributeError
      end
  end.

(** [_process_height_depth] *)
Definition _process_height_depth (cmd_name : string) (params : dict pyval)
    : result (dict pyval) :=
  let has_height := dict_mem "высота" params in
  let has_depth := dict_mem "глубина" params in
  if has_height && has_depth then Ok (dict_pop "глубина" params)
  else if has_depth then
    depth <- dict_item "глубина" params ;;
    x <- py_float depth ;;
    Ok (dict_pop "глубина" (dict_set "высота" (VFloat (- Qabs x)) params))
  else if negb has_height then
    match dict_get cmd_name (required_keys self) with
    | Some required =>
        if existsb (String.eqb "высота") required
        then Ok (dict_set "высота" (_prompt_for_parameter cmd_name "высота") params)
        else Ok params
    | None => Ok params
    end
  else Ok params.

(** [_check_required_parameters] *)
Definition _check_required_parameters (cmd_name : string) (params : dict pyval)
    : dict pyval :=
  match dict_get cmd_name (required_keys self) with
  | None => params
  | Some required => fold_left (prompt_missing cmd_name) required params
  end.

(** [if param not in params: params[param] = default_value] *)
Definition apply_default (params : dict pyval) (item : string * pyval)
    : dict pyval :=
  if dict_mem (fst item) params then params
  else dict_set (fst item) (snd item) params.

(** [_apply_optional_parameters] *)
Definition _apply_optional_parameters (cmd_name : string) (params : dict pyval)
    : dict pyval :=
  match dict_get cmd_name (optional_keys self) with
  | None => params
  | Some optional => fold_left apply_default optional params
  end.

(** The body of the loop of [_convert_parameter_types] on a parameter with
    a declared type: every failure of the conversion is raised again as
    [ValueError]. *)
Definition convert_value (t : ptype) (value : pyval) : result pyval :=
  match value, t with
  | VNone, _ => Ok VNone
  | VFloat _, TFloat => Ok value
  | VInt _, TInt => Ok value
  | _, TFloat =>
      match py_float value with
      | Ok q => Ok (VFloat q)
      | Raise _ => Raise ValueError
      end
  | _, TInt =>
      match py_int_of value with
      | Ok z => Ok (VInt z)
      | Raise _ => Raise ValueError
      end
  end.

(** [_convert_parameter_types] *)
Fixpoint _convert_parameter_types (params : dict pyval) : result (dict pyval) :=
  match params with
  | [] => Ok []
  | (param_name, value) :: rest =>
      value' <- match dict_get param_name PARAM_TYPES with
                | Some t => convert_value t value
                | None => Ok value
                end ;;
      rest' <- _convert_parameter_types rest ;;
      Ok ((param_name, value') :: rest')
  end.

(** [_validate_command] on the name and the parameter map of a command. *)
Definition validate_params (cmd_name : string) (params : dict pyval)
    : result (dict pyval) :=
  params <- (if String.eqb cmd_name "обследование_точки"
             then _process_point_survey params else Ok params) ;;
  params <- _process_height_depth cmd_name params ;;
  let params := _check_required_parameters cmd_name params in
  let params := _apply_optional_parameters cmd_name params in
  _convert_parameter_types params.

(** [_validate_command]: the command is the first item of [command_data].
    A condition record is not followed. *)
Definition _validate_command (command_data : command_dict)
    : option (result command_dict) :=
  match command_data with
  | [] => Some (Raise StopIteration)
  | (cmd_name, CParams params) :: rest =>
      Some (params' <- validate_params cmd_name params ;;
            Ok ((cmd_name, CParams params') :: rest))
  | (_, CText _) :: _ => None
  end.

End Validator.

(** *** Stand-ins for the runs on concrete inputs *)

Fixpoint digits_value (acc : Z) (s : string) : option Z :=
  match s with
  | EmptyString => Some acc
  | String c rest =>
      let n := nat_of_ascii c in
      if in_range 48 57 n
      then digits_value (acc * 10 + Z.of_nat (n - 48))%Z rest
      else None
  end.

Definition unsigned_part (s : string) : bool * string :=
  match s with
  | String "-" rest => (true, rest)
  | String "+" rest => (false, rest)
  | _ => (false, s)
  end.

(** [float(s)] on the numerals [digits] and [digits.digits] with an optional
    sign; [None] elsewhere. *)
Definition float_of_decimal (s : string) : option Q :=
  let (negative, body) := unsigned_part s in
  let signed (q : Q) := if negative then Qopp q else q in
  match split "." body with
  | [i] =>
      if (0 <? String.length i)%nat
      then option_map (fun z => signed (inject_Z z)) (digits_value 0 i)
      else None
  | [i; f] =>
      if (0 <? String.length i)%nat && (0 <? String.length f)%nat
      then option_map
             (fun z => signed (Qmake z (Pos.pow 10 (Pos.of_nat (String.length f)))))
             (digits_value 0 (i ++ f))
      else None
  | _ => None
  end.

(** [int(s)] on the numerals [digits] with an optional sign; [None]
    elsewhere. *)
Definition int_of_decimal (s : string) : option Z :=
  let (negative, body) := unsigned_part s in
  if (0 <? String.length body)%nat
  then option_map (fun z => if negative then Z.opp z else z) (digits_value 0 body)
  else None.

(** An operator who answers 1 for a number and the empty text otherwise. *)
Definition operator_answer (cmd_name param_name : string) : pyval :=
  match dict_get param_name PARAM_TYPES with
  | Some TFloat => VFloat 1
  | Some TInt => VInt 1
  | None => VStr ""
  end.

Local Close Scope string_scope.

End Processing.

(** ** [translators.py]: the plan emitter *)

Module Translators.

Local Open Scope string_scope.
Local Open Scope list_scope.

(** A task of the mission plan.  [SidesonarOn] stands for the record with
    [SidesonarDist] 100, [SidesonarPulse] 1500, [SidesonarDecimation] 1 and
    [SidesonarRawData] false; [PhotoOn] for the one with [PhotoPeriod] 2,
    [PhotoLight] 100, [PhotoExposure] 7000, [PhotoGain] 1 and [PhotoAuto]
    true. *)
Inductive task : Type :=
| TackPoint (TackPointUp TackPointVelocity : pyval) (TackPointLon TackPointLat : Q)
| SidesonarOn
| SidesonarPause
| SidesonarResume
| SidesonarOff
| MBEOnHf
| MBEPause
| MBEOff
| PhotoOn.

(** [Translator.movement] *)
Definition movement (depth speed : pyval) (lon lat : Q) : task :=
  TackPoint depth speed lon lat.

(** [Translator.action]; [None] is the [None] a call returns when no branch
    does. *)
Definition action (device : pyval) (status : string) : option task :=
  match device with
  | VStr d =>
      if String.eqb d "гбо" then
        if String.eqb status "вкл" then Some SidesonarOn
        else if String.eqb status "пауза" then Some SidesonarPause
        else if String.eqb status "продолжить" then Some SidesonarResume
        else if String.eqb status "выкл" then Some SidesonarOff
        else None
      else if String.eqb d "млэ" then
        if String.eqb status "вкл" then Some MBEOnHf
        else if String.eqb status "пауза" then Some MBEPause
        else if String.eqb status "выкл" then Some MBEOff
        else None
      else if String.eqb d "фотокамера" then Some PhotoOn
      else None
  | _ => None
  end.

(** The list [tasks]: what [tasks.append] receives, [None] included. *)
Definition tasks : Type := list (option task).

(** [value[k]] on the value of a command. *)
Definition value_item (k : string) (value : cmdval) : result pyval :=
  match value with
  | CParams params => dict_item k params
  | CText _ => Raise TypeError
  end.

(** [for i in coordinate] of the first branch: a movement, then the pause or
    the resume; [device] is the flag of the same name. *)
Fixpoint toggle_waypoints (value : cmdval) (coordinate : list (Q * Q))
    (device : bool) (acc : tasks) : result (bool * tasks) :=
  match coordinate with
  | [] => Ok (device, acc)
  | i :: rest =>
      depth <- value_item "высота" value ;;
      speed <- value_item "скорость" value ;;
      let acc := acc ++ [Some (movement depth speed (fst i) (snd i))] in
      dev <- value_item "прибор" value ;;
      if negb device
      then toggle_waypoints value rest true (acc ++ [action dev "пауза"])
      else toggle_waypoints value rest false (acc ++ [action dev "продолжить"])
  end.

(** [for i in coordinate] of the second branch: the movements alone. *)
Fixpoint plain_waypoints (value : cmdval) (coordinate : list (Q * Q))
    (acc : tasks) : result tasks :=
  match coordinate with
  | [] => Ok acc
  | i :: rest =>
      depth <- value_item "высота" value ;;
      speed <- value_item "скорость" value ;;
      plain_waypoints value rest (acc ++ [Some (movement depth speed (fst i) (snd i))])
  end.

(** [command[key]["координаты"].items()] *)
Definition coordinate_lists (value : cmdval) : result (list (string * list (Q * Q))) :=
  c <- value_item "координаты" value ;;
  match c with
  | VCoords d => Ok d
  | _ => Raise AttributeError
  end.

(** [for _, coordinate in ...items()] of the first branch. *)
Fixpoint toggle_lists (value : cmdval) (lists : list (string * list (Q * Q)))
    (device : bool) (acc : tasks) : result tasks :=
  match lists with
  | [] => Ok acc
  | (_, coordinate) :: rest =>
      r <- toggle_waypoints value coordinate device acc ;;
      toggle_lists value rest (fst r) (snd r)
  end.

(** [for _, coordinate in ...items()] of the second branch. *)
Fixpoint plain_lists (value : cmdval) (lists : list (string * list (Q * Q)))
    (acc : tasks) : result tasks :=
  match lists with
  | [] => Ok acc
  | (_, coordinate) :: rest =>
      acc' <- plain_waypoints value coordinate acc ;;
      plain_lists value rest acc'
  end.

(** [value["траектория"] == "меандр"] *)
Definition is_meander (value : cmdval) : result bool :=
  t <- value_item "траектория" value ;;
  match t with
  | VStr s => Ok (String.eqb s "меандр")
  | _ => Ok false
  end.

(** The body of [for key, value in command.items()]. *)
Definition translate_item (key : string) (value : cmdval) (acc : tasks)
    : result tasks :=
  toggling <- (if String.eqb key "обследование_фигуры" then Ok true
               else if String.eqb key "обследование_точки" then is_meander value
               else Ok false) ;;
  if toggling then
    dev <- value_item "прибор" value ;;
    let acc := acc ++ [action dev "вкл"] in
    lists <- coordinate_lists value ;;
    acc <- toggle_lists value lists false acc ;;
    dev <- value_item "прибор" value ;;
    Ok (acc ++ [action dev "выкл"])
  else if String.eqb key "обследование_точки" then
    dev <- value_item "прибор" value ;;
    let acc := acc ++ [action dev "вкл"] in
    lists <- coordinate_lists value ;;
    acc <- plain_lists value lists acc ;;
    dev <- value_item "прибор" value ;;
    Ok (acc ++ [action dev "выкл"])
  else Ok acc.

Fixpoint translate_command (items : command_dict) (acc : tasks) : result tasks :=
  match items with
  | [] => Ok acc
  | (key, value) :: rest =>
      acc' <- translate_item key value acc ;;
      translate_command rest acc'
  end.

(** [Translator.__init__]: the tasks stored in the mission plan. *)
Fixpoint translate (commands : list command_dict) (acc : tasks) : result tasks :=
  match commands with
  | [] => Ok acc
  | command :: rest =>
      acc' <- translate_command command acc ;;
      translate rest acc'
  end.

Definition Translator (commands : list command_dict) : result tasks :=
  translate commands [].

(** *** The emission protocol as the spec words it *)

(** For each waypoint one movement, then the pause or the resume, by turns;
    [device] tells that the instrument is paused. *)
Fixpoint interleaved (depth speed dev : pyval) (device : bool)
    (waypoints : list (Q * Q)) : tasks :=
  match waypoints with
  | [] => []
  | i :: rest =>
      Some (movement depth speed (fst i) (snd i))
      :: action dev (if device then "продолжить" else "пауза")
      :: interleaved depth speed dev (negb device) rest
  end.

(** All the waypoints of a command, list after list. *)
Definition all_waypoints (lists : list (string * list (Q * Q))) : list (Q * Q) :=
  List.concat (map snd lists).

Local Close Scope string_scope.

End Translators.

(** ** [parser.py]: the lines of a mission file *)

Module Parser.

Local Open Scope string_scope.

(** The test of the comprehension of [preprocess_lines]:
    [line.strip() and not line.lstrip().startswith('#')]. *)
Definition kept (line : string) : bool :=
  negb (String.eqb (strip line) "") && negb (String.prefix "#" (lstrip line)).

(** [Parser.preprocess_lines] *)
Definition preprocess_lines (lines : list string) : list string :=
  map strip (filter kept lines).

Local Close Scope string_scope.

End Parser.

(** ** [analyzator.py]: the token classifier and the analyzer *)

Module Lexer.

Import Analyzator.

Local Open Scope string_scope.

(** [s.count(c)] for a one-character [c]. *)
Fixpoint count (c : ascii) (s : string) : nat :=
  match s with
  | EmptyString => 0
  | String x rest => (if Ascii.eqb x c then 1 else 0) + count c rest
  end.

(** [s.rfind(c)]: the index of the last [c], or -1; [i] is the index of the
    head of [s] and [last] the answer so far. *)
Fixpoint rfind_from (c : ascii) (i last : Z) (s : string) : Z :=
  match s with
  | EmptyString => last
  | String x rest =>
      rfind_from c (i + 1)%Z (if Ascii.eqb x c then i else last) rest
  end.

Definition rfind (c : ascii) (s : string) : Z := rfind_from c 0 (-1) s.

(** [s[i]]: a negative index counts from the end. *)
Definition item (s : string) (i : Z) : result ascii :=
  let n := Z.of_nat (String.length s) in
  let j := if (i <? 0)%Z then (i + n)%Z else i in
  if (j <? 0)%Z || (n <=? j)%Z then Raise IndexError
  else match String.get (Z.to_nat j) s with
       | Some c => Ok c
       | None => Raise IndexError
       end.

(** [Lexical.isvariable] *)
Definition isvariable (token : string) : bool := contains "=" token.

(** [Lexical.isfunction] *)
Definition isfunction (token : string) : result bool :=
  if contains "(" token then
    if (count ")" token <? count "(" token)%nat then Ok true
    else if (count "(" token =? count ")" token)%nat then
      c <- item token (rfind ")" token - 1)%Z ;;
      Ok (Ascii.eqb c ")")
    else Ok false
  else Ok false.

(** [Lexical.iscondition] *)
Definition iscondition (token : string) : bool :=
  String.prefix "событие" (strip token).

(** [Lexical.check_type] *)
Definition check_type (token : string) : result string :=
  if isvariable token then Ok "variable"
  else
    f <- isfunction token ;;
    if f then Ok "function"
    else if iscondition token then Ok "condition"
    else Ok "addition".

(** The loop of [Analyzator.lexical_analysis]. *)
Fixpoint lexical_loop (data token_types tokens : list string)
    : result (list string * list string) :=
  match data with
  | [] => Ok (token_types, tokens)
  | line :: rest =>
      token_type <- check_type line ;;
      match String.eqb token_type "addition", tokens with
      | true, _ :: _ =>
          lexical_loop rest token_types
            (removelast tokens ++ [String.append (last tokens "") (String.append " " line)])%list
      | _, _ =>
          lexical_loop rest (token_types ++ [token_type])%list
            (tokens ++ [line])%list
      end
  end.

(** [Analyzator.lexical_analysis] *)
Definition lexical_analysis (data : list string)
    : result (list string * list string) :=
  lexical_loop data [] [].

(** [Variables.get_variable_names] *)
Definition get_variable_names (vars : variables) : list string := map fst vars.

(** The body of the inner loop of [semantic_analysis]: the new value of a
    parameter. *)
Definition substitute (vars : variables) (param_value : pyval)
    : option (result pyval) :=
  match param_value with
  | VStr s =>
      if existsb (String.eqb s) (get_variable_names vars)
      then get_variable vars s VNone
      else Some (Ok param_value)
  | _ => Some (Ok param_value)
  end.

(** [for param, param_value in value.items()] *)
Fixpoint semantic_params (vars : variables) (params : dict pyval)
    : option (result (dict pyval)) :=
  match params with
  | [] => Some (Ok [])
  | (param, param_value) :: rest =>
      match substitute vars param_value with
      | None => None
      | Some (Raise e) => Some (Raise e)
      | Some (Ok v) =>
          match semantic_params vars rest with
          | None => None
          | Some (Raise e) => Some (Raise e)
          | Some (Ok rest') => Some (Ok ((param, v) :: rest'))
          end
      end
  end.

(** [Analyzator.semantic_analysis] *)
Fixpoint semantic_analysis (vars : variables) (command : command_dict)
    : option (result command_dict) :=
  match command with
  | [] => Some (Ok [])
  | (key, CText _) :: _ => Some (Raise AttributeError)
  | (key, CParams params) :: rest =>
      match semantic_params vars params with
      | None => None
      | Some (Raise e) => Some (Raise e)
      | Some (Ok params') =>
          match semantic_analysis vars rest with
          | None => None
          | Some (Raise e) => Some (Raise e)
          | Some (Ok rest') => Some (Ok ((key, CParams params') :: rest'))
          end
      end
  end.

(** [sep.join(l)] *)
Fixpoint join (sep : string) (l : list string) : string :=
  match l with
  | [] => ""
  | x :: rest =>
      match rest with
      | [] => x
      | _ :: _ => x ++ sep ++ join sep rest
      end
  end.

(** [Commands.set_title_command] *)
Definition set_title_command (raw_command : string) : string :=
  strip (hd "" (split "(" raw_command)).

(** A stand-in for [set_raw_command] in the runs on concrete inputs: the
    command of a call without parameters. *)
Definition command_without_parameters (raw_command : string)
    : result command_dict :=
  Ok [(set_title_command raw_command, CParams [])].

(** The tokens of [zip(token_types, tokens)] classified [variable], and the
    number of the others. *)
Definition variable_tokens (pairs : list (string * string)) : list string :=
  map snd (filter (fun p => String.eqb (fst p) "variable") pairs).

Definition other_tokens (pairs : list (string * string)) : nat :=
  List.length (filter (fun p => negb (String.eqb (fst p) "variable")) pairs).

Section Analyze.

(** [Commands.set_raw_command]: the search of the regular expression
    [(\w+)\(([^)]+)\)] in the token is not followed; the command it returns is
    a parameter. *)
Variable set_raw_command : string -> result command_dict.

(** [Analyzator.syntactic_analysis] *)
Definition syntactic_analysis (vars : variables) (token_type token : string)
    : option (result command_dict) :=
  if String.eqb token_type "function" then
    match set_raw_command token with
    | Ok raw_command => semantic_analysis vars raw_command
    | Raise e => Some (Raise e)
    end
  else if String.eqb token_type "condition" then
    Some (Ok [("type", CText "condition"); ("value", CText token)])
  else Some (Ok []).

(** The loop of [Analyzator.analyze] over [zip(token_types, tokens)]: the
    variable table and the list [result] it leaves. *)
Fixpoint analyze_loop (pairs : list (string * string)) (vars : variables)
    (acc : list command_dict) : option (result (variables * list command_dict)) :=
  match pairs with
  | [] => Some (Ok (vars, acc))
  | (token_type, token) :: rest =>
      if String.eqb token_type "variable" then
        match set_raw_variable token vars with
        | Ok vars' => analyze_loop rest vars' acc
        | Raise e => Some (Raise e)
        end
      else
        match syntactic_analysis vars token_type token with
        | None => None
        | Some (Raise e) => Some (Raise e)
        | Some (Ok entry) => analyze_loop rest vars (acc ++ [entry])%list
        end
  end.

(** [Analyzator.analyze] *)
Definition analyze (data : list string)
    : option (result (variables * list command_dict)) :=
  match lexical_analysis data with
  | Raise e => Some (Raise e)
  | Ok (token_types, tokens) => analyze_loop (combine token_types tokens) [] []
  end.

End Analyze.

Local Close Scope string_scope.

End Lexer.

(** ** [trajectories.py]: the parallel line *)

Module Parallel.

Import Trajectories.

Local Open Scope string_scope.

(** [math.degrees] *)
Definition degrees (x : Q) : Q := x * (180 / math_pi).

(** [x % m] on floats, for [m > 0]. *)
Definition py_mod (x m : Q) : Q := x - m * inject_Z (Qfloor (x / m)).

Section ParallelLine.

(** [math.cos], [math.sin], [math.atan2], and [math.asin] with its
    [ValueError] outside [-1, 1]. *)
Variables cos sin : Q -> Q.
Variable atan2 : Q -> Q -> Q.
Variable asin : Q -> result Q.

(** [ParallelLineGenerator._calculate_bearing] *)
Definition _calculate_bearing (point1 point2 : point) : Q :=
  let lon1 := radians (fst point1) in
  let lat1 := radians (snd point1) in
  let lon2 := radians (fst point2) in
  let lat2 := radians (snd point2) in
  let d_lon := lon2 - lon1 in
  let y := sin d_lon * cos lat2 in
  let x := cos lat1 * sin lat2 - sin lat1 * cos lat2 * cos d_lon in
  let bearing := atan2 y x in
  py_mod (degrees bearing + 360) 360.

(** [ParallelLineGenerator._offset_point] *)
Definition _offset_point (p : point) (bearing_deg distance_m : Q)
    : result point :=
  let lon := fst p in
  let lat := snd p in
  let bearing_rad := radians bearing_deg in
  let lat_rad := radians lat in
  let angular_distance := distance_m / EARTH_RADIUS in
  new_lat <- asin (sin lat_rad * cos angular_distance
                   + cos lat_rad * sin angular_distance * cos bearing_rad) ;;
  let new_lon :=
    lon + atan2 (sin bearing_rad * sin angular_distance * cos lat_rad)
                (cos angular_distance - sin lat_rad * sin new_lat)
          * RAD_TO_DEG in
  Ok (round6 new_lon, round6 (degrees new_lat)).

(** The body of the loop over [range(len(points))] of the sideways branch. *)
Definition side_point (points : list point) (distance_m : Q) (position : string)
    (i : nat) : result point :=
  let at_ (k : nat) := nth k points (0, 0) in
  let quarter := if String.eqb position "left" then 90 else - (90) in
  let offset_angle :=
    if (i =? 0)%nat then
      _calculate_bearing (at_ i) (at_ (i + 1)%nat) + quarter
    else if (i =? List.length points - 1)%nat then
      _calculate_bearing (at_ (i - 1)%nat) (at_ i) + quarter
    else
      (_calculate_bearing (at_ (i - 1)%nat) (at_ i)
       + _calculate_bearing (at_ i) (at_ (i + 1)%nat)) / 2 + quarter in
  _offset_point (at_ i) offset_angle distance_m.

(** [parallel_points.append(body(i))] for [i] in [range]. *)
Fixpoint for_append (body : nat -> result point) (range : list nat)
    : result (list point) :=
  match range with
  | [] => Ok []
  | i :: range' =>
      p <- body i ;;
      ps <- for_append body range' ;;
      Ok (p :: ps)
  end.

(** [ParallelLineGenerator.generate_parallel_line] *)
Definition generate_parallel_line (points : list point) (distance_m : Q)
    (position : string) : result (list point) :=
  if (List.length points <? 2)%nat then Raise ValueError
  else if String.eqb position "left" || String.eqb position "right" then
    for_append (side_point points distance_m position)
      (seq 0 (List.length points))
  else
    let sign := if String.eqb position "top" then 1 else - (1) in
    Ok (map (fun p => (fst p, snd p + sign * distance_m / METERS_PER_DEGREE))
            points).

End ParallelLine.

Local Close Scope string_scope.

End Parallel.

(** ** [processing.py]: a list of commands *)

Module Validation.

Import Processing.

(** [ParametersValidator.validate] *)
Fixpoint validate (float_of_string : string -> option Q)
    (int_of_string : string -> option Z)
    (_prompt_for_parameter : string -> string -> pyval)
    (self : ParametersValidator) (commands_data : list command_dict)
    : option (result (list command_dict)) :=
  match commands_data with
  | [] => Some (Ok [])
  | cmd :: rest =>
      match _validate_command float_of_string int_of_string
              _prompt_for_parameter self cmd with
      | None => None
      | Some (Raise e) => Some (Raise e)
      | Some (Ok cmd') =>
          match validate float_of_string int_of_string _prompt_for_parameter
                  self rest with
          | None => None
          | Some (Raise e) => Some (Raise e)
          | Some (Ok rest') => Some (Ok (cmd' :: rest'))
          end
      end
  end.

End Validation.

(** ** Views of a mission plan *)

Module Plan.

Import Translators.

Local Open Scope list_scope.

(** The waypoint a task moves to: none for an instrument action or a null
    entry. *)
Definition waypoint_of (t : option task) : list (Q * Q) :=
  match t with
  | Some (TackPoint _ _ lon lat) => [(lon, lat)]
  | _ => []
  end.

(** The waypoints a plan visits, in its order. *)
Definition waypoints_of (plan : tasks) : list (Q * Q) := flat_map waypoint_of plan.

(** [r] with [acc] in front of the tasks it returns. *)
Definition after (acc : tasks) (r : result tasks) : result tasks :=
  match r with
  | Ok p => Ok (acc ++ p)
  | Raise e => Raise e
  end.

End Plan.

(** ** Inputs of the runs *)

Module Examples.

Import Processing.

Local Open Scope string_scope.

Definition example_rules : ParametersValidator :=
  mkValidator
    [("обследование_точки", ["высота"; "скорость"])]
    [("обследование_точки", [("угол", VInt 0)])]
    [("обследование_точки", [("меандр", ["длина"; "ширина"; "межгалс"])])].

Definition example_params : dict pyval :=
  [("прибор", VStr "гбо"); ("глубина", VStr "12.5");
   ("траектория", VStr "Меандр, вертикально"); ("длина", VInt 20)].

Definition example_out : dict pyval :=
  [("прибор", VStr "гбо"); ("траектория", VStr "Меандр, вертикально");
   ("длина", VFloat 20); ("ширина", VFloat 1); ("межгалс", VFloat 1);
   ("высота", VFloat (- Qabs (125 # 10))); ("скорость", VFloat 1);
   ("угол", VFloat 0)].

Definition example_survey : dict pyval :=
  [("прибор", VStr "гбо"); ("высота", VFloat 5); ("скорость", VFloat 1);
   ("траектория", VStr "звезда");
   ("координаты", VCoords [("координаты", [(30, 60); (31, 61)])])].

Local Close Scope string_scope.

End Examples.

(** * Properties *)

(** ** Numbers *)

Lemma Qlt_bool_iff (x y : Q) : Qlt_bool x y = true <-> x < y.
Proof.
  unfold Qlt_bool. rewrite negb_true_iff.
  split; intro H.
  - apply Qnot_le_lt. intro Hle. apply Qle_bool_iff in Hle. congruence.
  - destruct (Qle_bool y x) eqn:E; [|reflexivity].
    apply Qle_bool_iff in E. exfalso. apply (Qlt_not_le _ _ H E).
Qed.


Lemma round_half_even_comp (x y : Q) :
  x == y -> round_half_even x = round_half_even y.
Proof.
  intro H. unfold round_half_even.
  rewrite (Qfloor_comp x y H).
  assert (E : x - inject_Z (Qfloor y) == y - inject_Z (Qfloor y))
    by (rewrite H; reflexivity).
  rewrite (Qcompare_comp _ _ E _ _ (Qeq_refl (1 # 2))).
  reflexivity.
Qed.

Lemma round6_comp (x y : Q) : x == y -> round6 x = round6 y.
Proof.
  intro H. unfold round6. f_equal. apply round_half_even_comp.
  rewrite H. reflexivity.
Qed.

Lemma py_div_ok (x y : Q) : ~ y == 0 -> py_div x y = Ok (x / y).
Proof.
  intro H. unfold py_div.
  destruct (Qeq_bool y 0) eqn:E; [|reflexivity].
  apply Qeq_bool_eq in E. contradiction.
Qed.

Lemma py_div_zero (x y : Q) : y == 0 -> py_div x y = Raise ZeroDivisionError.
Proof.
  intro H. unfold py_div. rewrite (Qeq_eq_bool _ _ H). reflexivity.
Qed.

Lemma py_int_nonneg (x : Q) : 0 <= x -> py_int x = Qfloor x.
Proof.
  intro H. unfold py_int. apply Qle_bool_iff in H. rewrite H. reflexivity.
Qed.

Lemma flat_map_pairs_length {A B : Type} (f : A -> list B) (l : list A) :
  (forall a, List.length (f a) = 2%nat) ->
  List.length (flat_map f l) = (2 * List.length l)%nat.
Proof.
  intro H. induction l as [|a l IH]; simpl; [reflexivity|].
  rewrite length_app, H, IH. lia.
Qed.

(** ** The trajectory generator *)

Module TrajectoryFacts.

Import Trajectories.

Section Offset.

Variable cos : Q -> Q.

(** With no displacement the offset rounds its input, at every latitude:
    both branches add a zero. *)
Lemma offset_zero_any_latitude (lat lon : Q) :
  add_meters_to_coordinates cos lat lon 0 0 = (round6 lon, round6 lat).
Proof.
  unfold add_meters_to_coordinates.
  assert (Hlat : lat + 0 / EARTH_RADIUS * RAD_TO_DEG == lat).
  { unfold Qdiv. ring. }
  destruct (Qle_bool 90 (Qabs lat)).
  - f_equal. apply round6_comp, Hlat.
  - f_equal; [|apply round6_comp, Hlat].
    apply round6_comp.
    destruct (Qlt_bool COS_LAT_THRESHOLD (Qabs (cos (lat * DEG_TO_RAD)))).
    + unfold Qdiv. ring.
    + ring.
Qed.

(** C9.  For a latitude with |lat| < 90 and any longitude, the planar
    offset by zero metres north and zero metres east returns the input
    coordinates rounded to 6 decimal places, as the waypoint
    (longitude, latitude). *)
Theorem offset_zero_identity (lat lon : Q) :
  Qabs lat < 90 ->
  add_meters_to_coordinates cos lat lon 0 0 = (round6 lon, round6 lat).
Proof.
  intros _. apply offset_zero_any_latitude.
Qed.

End Offset.

Lemma offset_zero_identity_witness :
  Qabs 45 < 90 /\
  add_meters_to_coordinates cos_series 45 30 0 0 = (round6 30, round6 45).
Proof.
  split; [reflexivity | apply offset_zero_identity; reflexivity].
Defined.

Section Meander.

Variable cos : Q -> Q.

Lemma meander_pass_length slon slat size spacing is_vertical i :
  List.length (meander_pass cos slon slat size spacing is_vertical i) = 2%nat.
Proof.
  unfold meander_pass. destruct is_vertical, (Nat.even i); reflexivity.
Qed.

End Meander.

Section Spiral.

Variables cos sin : Q -> Q.
Variables center_lon center_lat max_radius_m spacing_m direction : Q.
Variable point_freq : Z.

(** The growth of the radius in one turn of the loop. *)
Lemma radius_increment_value :
  spacing_m * ANGLE_STEP / (2 * math_pi) == spacing_m * ((math_pi / 8) / (2 * math_pi)).
Proof. unfold ANGLE_STEP, Qdiv. ring. Qed.






End Spiral.





(** A spiral of maximum radius 1 m at a spacing of 5 m makes 4 turns of the
    loop.  With the factor 1 the 4 generated points follow the centre; with
    the factor 2 none of them does. *)
Example spiral_factor_one_keeps_all :
  option_map (fun r => match r with Ok l => List.length l | Raise _ => 0%nat end)
    (generate_spiral cos_series sin_series 10 0 0 1 5 true 1) = Some 5%nat.
Proof. vm_compute. reflexivity. Qed.

Example spiral_factor_two_keeps_none :
  generate_spiral cos_series sin_series 10 0 0 1 5 true 2 = Some (Ok [(0, 0)]).
Proof. vm_compute. reflexivity. Qed.

Lemma for_extend_total {A : Type} (body : nat -> result (list A))
    (f : nat -> list A) (range : list nat) :
  (forall i, In i range -> body i = Ok (f i)) ->
  for_extend body range = Ok (flat_map f range).
Proof.
  induction range as [|i range IH]; intro H; simpl; [reflexivity|].
  rewrite (H i (or_introl eq_refl)). cbn [bind].
  rewrite IH by (intros j Hj; apply H; right; exact Hj).
  reflexivity.
Qed.

Lemma nth_error_pairs {A : Type} (f g : nat -> A) (n : nat) : forall a i,
  (i < n)%nat ->
  nth_error (flat_map (fun k => [f k; g k]) (seq a n)) (2 * i) = Some (f (a + i)%nat) /\
  nth_error (flat_map (fun k => [f k; g k]) (seq a n)) (2 * i + 1) = Some (g (a + i)%nat).
Proof.
  induction n as [|n IH]; intros a i Hi; [lia|].
  destruct i as [|i].
  - simpl. rewrite Nat.add_0_r. split; reflexivity.
  - replace (2 * S i)%nat with (S (S (2 * i))) by lia.
    replace (S (S (2 * i)) + 1)%nat with (S (S (2 * i + 1))) by lia.
    cbn [seq flat_map app nth_error].
    replace (a + S i)%nat with (S a + i)%nat by lia.
    apply IH. lia.
Qed.

Section Rosette.

Variables cos sin : Q -> Q.
Variables center_lon center_lat radius_m angle_offset : Q.

Lemma rosette_ray_ok angle_step cos_lat i :
  ~ cos_lat == 0 ->
  rosette_ray cos sin center_lon center_lat radius_m angle_step cos_lat
    angle_offset i
  = Ok [(center_lon
           + radius_m * cos (radians angle_offset + inject_Z (Z.of_nat i) * angle_step)
             / (111320 * cos_lat),
         center_lat
           + radius_m * sin (radians angle_offset + inject_Z (Z.of_nat i) * angle_step)
             / 111320);
        (center_lon, center_lat)].
Proof.
  intro H. unfold rosette_ray.
  rewrite py_div_ok; [reflexivity|].
  intro E. apply H.
  apply (Qmult_integral 111320 cos_lat) in E. destruct E as [E|E]; [discriminate|exact E].
Qed.

(** C10.  With [num_passes = 0] the rosette generator raises
    ZeroDivisionError (the angular step pi / num_passes).  With
    [num_passes >= 1], and the cosine of the centre latitude not zero (the
    divisor of every ray; [math.cos] returns no zero on a float), it returns
    2 * num_passes waypoints: at the even places the end of ray i, at the
    odd places the centre, every coordinate rounded to 6 decimals. *)
Theorem rosette_waypoints :
  generate_rosette cos sin center_lon center_lat radius_m 0 angle_offset
    = Raise ZeroDivisionError /\
  forall num_passes : Z,
    (1 <= num_passes)%Z ->
    ~ cos (radians center_lat) == 0 ->
    exists points,
      generate_rosette cos sin center_lon center_lat radius_m num_passes
        angle_offset = Ok points /\
      Z.of_nat (List.length points) = (2 * num_passes)%Z /\
      forall i, (i < Z.to_nat num_passes)%nat ->
        let angle := radians angle_offset
                     + inject_Z (Z.of_nat i) * (math_pi / inject_Z num_passes) in
        nth_error points (2 * i)
          = Some (round6 (center_lon + radius_m * cos angle
                                       / (111320 * cos (radians center_lat))),
                  round6 (center_lat + radius_m * sin angle / 111320)) /\
        nth_error points (2 * i + 1) = Some (round6 center_lon, round6 center_lat).
Proof.
  split; [reflexivity|].
  intros num_passes Hn Hcos. unfold generate_rosette.
  rewrite py_div_ok.
  2:{ intro E. unfold Qeq in E. simpl in E. lia. }
  cbn [bind].
  pose (f := fun k : nat =>
    ((center_lon + radius_m * cos (radians angle_offset
        + inject_Z (Z.of_nat k) * (math_pi / inject_Z num_passes))
        / (111320 * cos (radians center_lat)),
     center_lat + radius_m * sin (radians angle_offset
        + inject_Z (Z.of_nat k) * (math_pi / inject_Z num_passes)) / 111320) : point)).
  pose (g := fun _ : nat => ((center_lon, center_lat) : point)).
  rewrite (for_extend_total _ (fun k => [f k; g k]))
    by (intros i _; apply rosette_ray_ok; exact Hcos).
  cbn [bind]. eexists. split; [reflexivity|]. split.
  - rewrite length_map, flat_map_pairs_length by reflexivity.
    rewrite length_seq. lia.
  - intros i Hi. cbv zeta.
    rewrite !nth_error_map.
    destruct (nth_error_pairs f g (Z.to_nat num_passes) 0 i Hi) as [H1 H2].
    rewrite H1, H2. split; reflexivity.
Qed.

End Rosette.

Lemma rosette_waypoints_witness :
  (1 <= 6)%Z /\ ~ cos_series (radians 0) == 0 /\
  exists points,
    generate_rosette cos_series sin_series 0 0 10 6%Z 0 = Ok points /\
    Z.of_nat (List.length points) = 12%Z.
Proof.
  split; [lia|]. split; [discriminate|].
  destruct (proj2 (rosette_waypoints cos_series sin_series 0 0 10 0) 6%Z)
    as [points [E [L _]]]; [lia | discriminate |].
  exists points. split; assumption.
Defined.

Local Open Scope string_scope.

Lemma append_empty_r (s : string) : s ++ "" = s.
Proof. induction s as [|c s IH]; simpl; congruence. Qed.

Lemma append_assoc (a b c : string) : (a ++ b) ++ c = a ++ (b ++ c).
Proof. induction a as [|x a IH]; simpl; congruence. Qed.

Lemma split_from_comma_hd (s : string) : forall cur,
  hd "" (split_from "," 0 cur s) = cur ++ before_comma s.
Proof.
  induction s as [|c s IH]; intro cur.
  - simpl. rewrite append_empty_r. reflexivity.
  - cbn [split_from before_comma].
    cbn [String.prefix].
    destruct (Ascii.eqb c ",") eqn:E.
    + apply Ascii.eqb_eq in E. subst c.
      destruct (ascii_dec "," ","); [|congruence].
      replace (String.prefix "" s) with true by (destruct s; reflexivity).
      cbn [hd]. rewrite append_empty_r. reflexivity.
    + destruct (ascii_dec "," c) as [E'|_].
      * subst c. rewrite Ascii.eqb_refl in E. discriminate.
      * rewrite IH. rewrite append_assoc. reflexivity.
Qed.

(** [text.split(",")[0]] is the text before the first comma. *)
Lemma split_comma_hd (s : string) : hd "" (split "," s) = before_comma s.
Proof. unfold split. rewrite split_from_comma_hd. reflexivity. Qed.

Section DispatchFacts.

Variable self : Figure.
Variable params : dict pyval.
Variable text : string.
Hypothesis Hcommand : dict_get (key self) (command self) = Some (CParams params).
Hypothesis Htext : dict_get "траектория" params = Some (VStr text).

(** The chain of conditional expressions tries the keywords in the order of
    [pattern_keywords]. *)
Lemma trajectory_type_refines_spec :
  _get_trajectory_type self
  = Ok (spec_trajectory_type (key self) (lower (before_comma text))).
Proof.
  unfold _get_trajectory_type. rewrite Hcommand.
  unfold dict_get_default. rewrite Htext.
  rewrite split_comma_hd.
  set (traj := lower (before_comma text)).
  unfold spec_trajectory_type, first_keyword, pattern_keywords.
  cbn [find fst snd].
  destruct (contains "меандр" traj).
  - destruct (String.eqb (key self) "обследование_точки"); reflexivity.
  - cbn [andb].
    destruct (contains "спираль" traj); [reflexivity|].
    destruct (contains "звезда" traj); [reflexivity|].
    destruct (contains "розетка" traj); [reflexivity|].
    destruct (contains "веер" traj); reflexivity.
Qed.

(** C5, amended.  The dispatch lowers the text before the first comma of
    the survey-pattern parameter and takes the first of the keywords меандр,
    спираль, звезда, розетка and веер (a second name of the rosette) that
    occurs in it; the centred meander is selected exactly when the command
    is the point survey and the text holds меандр; a text that holds none of
    the five gives the empty waypoint list and no exception. *)
Theorem trajectory_dispatch :
  let traj := lower (before_comma text) in
  _get_trajectory_type self = Ok (spec_trajectory_type (key self) traj) /\
  (_get_trajectory_type self = Ok (Some "центральный_меандр") <->
   key self = "обследование_точки" /\ contains "меандр" traj = true) /\
  ((forall kw, In kw pattern_keywords -> contains (fst kw) traj = false) ->
   forall cos sin fuel, coordinates cos sin fuel self = Some (Ok [])).
Proof.
  intro traj. pose proof trajectory_type_refines_spec as Hty.
  fold traj in Hty. split; [exact Hty|]. split.
  - rewrite Hty.
    unfold spec_trajectory_type, first_keyword, pattern_keywords.
    cbn [find fst snd].
    destruct (contains "меандр" traj).
    + destruct (String.eqb (key self) "обследование_точки") eqn:Ek.
      * apply String.eqb_eq in Ek. cbn. tauto.
      * cbn. split; [discriminate|]. intros [Hk _].
        apply String.eqb_neq in Ek. contradiction.
    + split; [|intros [_ H]; discriminate].
      destruct (contains "спираль" traj); [discriminate|].
      destruct (contains "звезда" traj); [discriminate|].
      destruct (contains "розетка" traj); [discriminate|].
      destruct (contains "веер" traj); discriminate.
  - intros Hnone cos sin fuel. unfold coordinates. rewrite Hty.
    unfold spec_trajectory_type, first_keyword.
    destruct (find (fun kw => contains (fst kw) traj) pattern_keywords)
      as [kw|] eqn:Ef; [|reflexivity].
    apply find_some in Ef. destruct Ef as [Hin Hc].
    rewrite (Hnone kw Hin) in Hc. discriminate.
Qed.

End DispatchFacts.

Lemma trajectory_dispatch_witness :
  let self := mkFigure 30 60 "обследование_точки"
                [("обследование_точки",
                  CParams [("траектория", VStr "Меандр, вертикально")])] in
  _get_trajectory_type self = Ok (Some "центральный_меандр").
Proof.
  intro self.
  apply (proj1 (trajectory_dispatch self
                  [("траектория", VStr "Меандр, вертикально")]
                  "Меандр, вертикально" eq_refl eq_refl)).
Defined.

(** C5 with the five pattern names of the spec (the keys of
    [TRAJECTORY_MAP]) as the keywords fails: the text веер holds none of
    them and yet gives the 12 waypoints of a rosette. *)
Lemma dispatch_map_keys_fails :
  ~ (forall cos sin fuel self params text,
       dict_get (key self) (command self) = Some (CParams params) ->
       dict_get "траектория" params = Some (VStr text) ->
       (forall kw, In kw TRAJECTORY_MAP ->
                   contains kw (lower (before_comma text)) = false) ->
       coordinates cos sin fuel self = Some (Ok [])).
Proof.
  intro H.
  specialize (H cos_series sin_series 0%nat
                (mkFigure 0 0 "обследование_фигуры"
                   [("обследование_фигуры", CParams [("траектория", VStr "веер")])])
                [("траектория", VStr "веер")] "веер" eq_refl eq_refl).
  assert (Hkw : forall kw, In kw TRAJECTORY_MAP ->
                 contains kw (lower (before_comma "веер")) = false).
  { intros kw Hin. unfold TRAJECTORY_MAP in Hin. simpl in Hin.
    repeat (destruct Hin as [Hin|Hin]; [subst kw; vm_compute; reflexivity|]).
    contradiction. }
  specialize (H Hkw). vm_compute in H. discriminate.
Qed.

Local Close Scope string_scope.

End TrajectoryFacts.

(** ** Dictionaries *)

Local Open Scope string_scope.

Lemma dict_get_set_same {V : Type} (k : string) (v : V) (d : dict V) :
  dict_get k (dict_set k v d) = Some v.
Proof.
  induction d as [|[k' v'] d IH]; simpl.
  - rewrite String.eqb_refl. reflexivity.
  - destruct (String.eqb k k') eqn:E; simpl; rewrite E; [reflexivity|exact IH].
Qed.

Lemma dict_get_set_other {V : Type} (k k' : string) (v : V) (d : dict V) :
  k <> k' -> dict_get k (dict_set k' v d) = dict_get k d.
Proof.
  intro H. apply String.eqb_neq in H.
  induction d as [|[k0 v0] d IH]; simpl.
  - rewrite H. reflexivity.
  - destruct (String.eqb k' k0) eqn:E; simpl.
    + apply String.eqb_eq in E. subst k0. rewrite H. reflexivity.
    + rewrite IH. reflexivity.
Qed.

Local Close Scope string_scope.

(** ** The variable table *)

Module AnalyzatorFacts.

Import Analyzator.

Local Open Scope string_scope.

Lemma substring_whole (s : string) (k : nat) :
  substring 0 (String.length s + k) s = s.
Proof. induction s as [|c s IH]; simpl; [destruct k; reflexivity | congruence]. Qed.

(** ["name=value".split("=", 1)] when the name holds no [=]. *)
Lemma split_once_assignment (n v : string) : forall cur,
  contains "=" n = false ->
  split_once_from "=" cur (n ++ "=" ++ v) = [cur ++ n; v].
Proof.
  induction n as [|c n IH]; intros cur Hn.
  - cbn [append split_once_from String.prefix].
    destruct (ascii_dec "=" "="); [|congruence].
    replace (String.prefix "" v) with true by (destruct v; reflexivity).
    cbn [String.length substring].
    replace (S (String.length v)) with (String.length v + 1)%nat by lia.
    rewrite substring_whole.
    replace (cur ++ "") with cur; [reflexivity|].
    clear. induction cur; simpl; congruence.
  - cbn [contains String.prefix] in Hn.
    cbn [append split_once_from String.prefix].
    destruct (ascii_dec "=" c) as [E|E].
    + replace (String.prefix "" n) with true in Hn by (destruct n; reflexivity).
      discriminate.
    + rewrite IH by exact Hn.
      f_equal. clear. induction cur; simpl; congruence.
Qed.





(** [eval] returns a number, never a text. *)
Lemma py_eval_number (text : string) (v : pyval) :
  py_eval text = Some (Ok v) ->
  (exists z, v = VInt z) \/ (exists q, v = VFloat q).
Proof.
  unfold py_eval. destruct (parse text) as [e| |]; try discriminate.
  destruct (eval_expr e) as [[[z|f]|err]|]; try discriminate; cbn.
  - intro E. injection E as <-. left. eexists. reflexivity.
  - destruct (Binary64.is_finite f); cbn; [|discriminate].
    intro E. injection E as <-. right. eexists. reflexivity.
Qed.

Section Resolve.

Variable vars : variables.
Variables n v : string.
Hypothesis Hname : contains "=" n = false.

Lemma set_raw_variable_assignment :
  set_raw_variable (n ++ "=" ++ v) vars
  = Ok (dict_set (strip n) (VStr (strip v)) vars).
Proof.
  unfold set_raw_variable, split_once.
  rewrite split_once_assignment by exact Hname.
  reflexivity.
Qed.


End Resolve.


(** The other parts of C3 at work: a text that is not an expression and an
    expression over a variable of the table resolve to the literal string,
    and a division by zero is raised. *)
Example resolve_examples :
  map (fun text => get_variable [("x", VStr "5"); ("y", VStr text)] "y" VNone)
      ["10.0 ВД"; "x / 2"; "2.5 * x"; "1 / 0"; "0.1 + 0.2"]
  = [Some (Ok (VStr "10.0 ВД")); Some (Ok (VStr "x / 2"));
     Some (Ok (VStr "2.5 * x")); Some (Raise ZeroDivisionError);
     Some (Ok (VFloat (1351079888211149 # 4503599627370496)))].
Proof. vm_compute. reflexivity. Qed.


Local Close Scope string_scope.

End AnalyzatorFacts.

(** ** More on dictionaries *)

Local Open Scope string_scope.

Lemma dict_get_none_iff {V : Type} (k : string) (d : dict V) :
  dict_get k d = None <-> ~ In k (map fst d).
Proof.
  induction d as [|[k' v'] d IH]; simpl; [tauto|].
  destruct (String.eqb k k') eqn:E.
  - apply String.eqb_eq in E. subst k'. split; [discriminate|]. intro H. exfalso. tauto.
  - apply String.eqb_neq in E. rewrite IH. split; intro H; [intros [H1|H1]; [congruence|tauto]|tauto].
Qed.

Lemma dict_set_keys {V : Type} (k k' : string) (v : V) (d : dict V) :
  In k' (map fst (dict_set k v d)) <-> k' = k \/ In k' (map fst d).
Proof.
  induction d as [|[k0 v0] d IH]; simpl.
  - split; intros [H|H]; auto.
  - destruct (String.eqb k k0) eqn:E; simpl.
    + apply String.eqb_eq in E. subst k0. split; intros [H|H]; auto.
    + rewrite IH. tauto.
Qed.

Lemma dict_set_nodup {V : Type} (k : string) (v : V) (d : dict V) :
  NoDup (map fst d) -> NoDup (map fst (dict_set k v d)).
Proof.
  induction d as [|[k0 v0] d IH]; simpl; intro H.
  - constructor; [intros []|constructor].
  - inversion H as [|? ? Hnot Hd]; subst.
    destruct (String.eqb k k0) eqn:E; simpl.
    + constructor; assumption.
    + constructor; [|apply IH; exact Hd].
      rewrite dict_set_keys. intros [H1|H1]; [|contradiction].
      subst k0. rewrite String.eqb_refl in E. discriminate.
Qed.

Lemma dict_pop_keys {V : Type} (k k' : string) (d : dict V) :
  In k' (map fst (dict_pop k d)) -> In k' (map fst d).
Proof.
  induction d as [|[k0 v0] d IH]; simpl; [tauto|].
  destruct (String.eqb k k0); simpl; [tauto|]. intros [H|H]; auto.
Qed.

Lemma dict_pop_nodup {V : Type} (k : string) (d : dict V) :
  NoDup (map fst d) -> NoDup (map fst (dict_pop k d)).
Proof.
  induction d as [|[k0 v0] d IH]; simpl; intro H; [constructor|].
  inversion H as [|? ? Hnot Hd]; subst.
  destruct (String.eqb k k0); simpl; [exact Hd|].
  constructor; [|apply IH; exact Hd].
  intro Hin. apply Hnot. eapply dict_pop_keys. exact Hin.
Qed.

Lemma dict_get_pop_same {V : Type} (k : string) (d : dict V) :
  NoDup (map fst d) -> dict_get k (dict_pop k d) = None.
Proof.
  induction d as [|[k0 v0] d IH]; simpl; intro H; [reflexivity|].
  inversion H as [|? ? Hnot Hd]; subst.
  destruct (String.eqb k k0) eqn:E; simpl.
  - apply String.eqb_eq in E. subst k0. apply dict_get_none_iff. exact Hnot.
  - rewrite E. apply IH. exact Hd.
Qed.

Lemma dict_get_pop_other {V : Type} (k k' : string) (d : dict V) :
  k <> k' -> dict_get k (dict_pop k' d) = dict_get k d.
Proof.
  intro H. apply String.eqb_neq in H.
  induction d as [|[k0 v0] d IH]; simpl; [reflexivity|].
  destruct (String.eqb k' k0) eqn:E; simpl.
  - apply String.eqb_eq in E. subst k0. rewrite H. reflexivity.
  - rewrite IH. reflexivity.
Qed.

Lemma dict_mem_true {V : Type} (k : string) (d : dict V) :
  dict_mem k d = true <-> exists v, dict_get k d = Some v.
Proof.
  unfold dict_mem. destruct (dict_get k d) as [v|].
  - split; [eauto|reflexivity].
  - split; [discriminate|intros [v H]; discriminate].
Qed.

Lemma dict_mem_false {V : Type} (k : string) (d : dict V) :
  dict_mem k d = false <-> dict_get k d = None.
Proof.
  unfold dict_mem. destruct (dict_get k d) as [v|]; split; congruence.
Qed.

Local Close Scope string_scope.

(** ** The parameter validator *)

Module ProcessingFacts.

Import Processing.

Local Open Scope string_scope.

Section ValidatorFacts.

Variable float_of_string : string -> option Q.
Variable int_of_string : string -> option Z.
Variable _prompt_for_parameter : string -> string -> pyval.
Variable self : ParametersValidator.

Lemma prompt_missing_nodup cmd params p :
  NoDup (map fst params) -> NoDup (map fst (prompt_missing _prompt_for_parameter cmd params p)).
Proof.
  intro H. unfold prompt_missing.
  destruct (dict_mem p params); [exact H|apply dict_set_nodup; exact H].
Qed.

Lemma prompt_missing_present cmd params p k v :
  dict_get k params = Some v -> dict_get k (prompt_missing _prompt_for_parameter cmd params p) = Some v.
Proof.
  intro H. unfold prompt_missing.
  destruct (dict_mem p params) eqn:E; [exact H|].
  rewrite dict_get_set_other; [exact H|].
  intro Ek. subst p. apply dict_mem_false in E. congruence.
Qed.

Lemma prompt_missing_absent cmd params p k :
  k <> p -> dict_get k params = None ->
  dict_get k (prompt_missing _prompt_for_parameter cmd params p) = None.
Proof.
  intros Hk H. unfold prompt_missing.
  destruct (dict_mem p params); [exact H|].
  rewrite dict_get_set_other; assumption.
Qed.

Lemma prompt_all_nodup cmd (l : list string) : forall params,
  NoDup (map fst params) ->
  NoDup (map fst (fold_left (prompt_missing _prompt_for_parameter cmd) l params)).
Proof.
  induction l as [|p l IH]; intros params H; simpl; [exact H|].
  apply IH, prompt_missing_nodup, H.
Qed.

Lemma prompt_all_present cmd (l : list string) k v : forall params,
  dict_get k params = Some v ->
  dict_get k (fold_left (prompt_missing _prompt_for_parameter cmd) l params) = Some v.
Proof.
  induction l as [|p l IH]; intros params H; simpl; [exact H|].
  apply IH, prompt_missing_present, H.
Qed.

Lemma prompt_all_absent cmd (l : list string) k : forall params,
  ~ In k l -> dict_get k params = None ->
  dict_get k (fold_left (prompt_missing _prompt_for_parameter cmd) l params) = None.
Proof.
  induction l as [|p l IH]; intros params Hk H; simpl; [exact H|].
  apply IH; [intro Hin; apply Hk; right; exact Hin|].
  apply prompt_missing_absent; [|exact H].
  intro E. apply Hk. left. symmetry. exact E.
Qed.

Lemma defaults_present (optional : dict pyval) k v : forall params,
  dict_get k params = Some v ->
  dict_get k (fold_left apply_default optional params) = Some v.
Proof.
  induction optional as [|[p d] l IH]; intros params H; simpl; [exact H|].
  apply IH. unfold apply_default. cbn [fst snd].
  destruct (dict_mem p params) eqn:E; [exact H|].
  rewrite dict_get_set_other; [exact H|].
  intro Ek. subst p. apply dict_mem_false in E. congruence.
Qed.

Lemma defaults_absent (optional : dict pyval) k : forall params,
  dict_get k optional = None -> dict_get k params = None ->
  dict_get k (fold_left apply_default optional params) = None.
Proof.
  induction optional as [|[p d] l IH]; intros params Hk H; simpl; [exact H|].
  simpl in Hk. destruct (String.eqb k p) eqn:E; [discriminate|].
  apply IH; [exact Hk|]. unfold apply_default. cbn [fst snd].
  destruct (dict_mem p params); [exact H|].
  rewrite dict_get_set_other; [exact H|]. apply String.eqb_neq. exact E.
Qed.

Lemma point_survey_nodup (params params1 : dict pyval) :
  NoDup (map fst params) ->
  _process_point_survey _prompt_for_parameter self params = Ok params1 ->
  NoDup (map fst params1).
Proof.
  intros H. unfold _process_point_survey.
  pose proof (prompt_missing_nodup "обследование_точки" params "траектория" H) as H1.
  set (p1 := prompt_missing _prompt_for_parameter "обследование_точки" params "траектория") in *.
  destruct (dict_get "обследование_точки" (trajectory_dependent self)) as [dependent|].
  2:{ intro E. injection E as E. subst. exact H1. }
  destruct (dict_get "траектория" p1) as [[| | |text|]|]; try discriminate.
  intro E. injection E as E. subst params1.
  generalize dependent p1. clear.
  induction dependent as [|[traj deps] l IH]; intros p1 H1; simpl; [exact H1|].
  apply IH. destruct (contains traj (lower text)); [|exact H1].
  apply prompt_all_nodup. exact H1.
Qed.

(** The normalization step alone: no depth is left. *)
Lemma height_depth_normal cmd (params1 params2 : dict pyval) :
  NoDup (map fst params1) ->
  _process_height_depth float_of_string _prompt_for_parameter self cmd params1
    = Ok params2 ->
  dict_get "глубина" params2 = None /\
  (forall h d, dict_get "высота" params1 = Some h ->
               dict_get "глубина" params1 = Some d ->
               dict_get "высота" params2 = Some h) /\
  (forall d, dict_get "высота" params1 = None ->
             dict_get "глубина" params1 = Some d ->
             exists x, py_float float_of_string d = Ok x /\
                       dict_get "высота" params2 = Some (VFloat (- Qabs x))).
Proof.
  intros Hnd. unfold _process_height_depth, dict_mem, dict_item.
  destruct (dict_get "высота" params1) as [h|] eqn:Eh;
    destruct (dict_get "глубина" params1) as [d|] eqn:Ed; cbn [andb negb bind].
  - intro E. injection E as E. subst params2. split; [|split].
    + apply dict_get_pop_same. exact Hnd.
    + intros h0 d0 E1 _. rewrite dict_get_pop_other by discriminate. congruence.
    + intros d0 E1. discriminate.
  - intro E. injection E as E. subst params2. split; [exact Ed|].
    split; intros; discriminate.
  - destruct (py_float float_of_string d) as [x|e] eqn:Ex; cbn [bind]; [|discriminate].
    intro E. injection E as E. subst params2. split; [|split].
    + apply dict_get_pop_same. apply dict_set_nodup. exact Hnd.
    + intros h0 d0 E1. discriminate.
    + intros d0 _ E1. injection E1 as E1. subst d0. exists x. split; [exact Ex|].
      rewrite dict_get_pop_other by discriminate. apply dict_get_set_same.
  - destruct (dict_get cmd (required_keys self)) as [required|].
    + destruct (existsb (String.eqb "высота") required); intro E; injection E as E;
        subst params2; (split; [|split; intros; discriminate]).
      * rewrite dict_get_set_other by discriminate. exact Ed.
      * exact Ed.
    + intro E. injection E as E. subst params2. split; [exact Ed|].
      split; intros; discriminate.
Qed.

Lemma convert_absent (params : dict pyval) : forall (out : dict pyval) k,
  _convert_parameter_types float_of_string int_of_string params = Ok out ->
  dict_get k params = None -> dict_get k out = None.
Proof.
  induction params as [|[p v] l IH]; intros out k; cbn [_convert_parameter_types].
  - intro E. injection E as E. subst out. reflexivity.
  - destruct (match dict_get p PARAM_TYPES with
              | Some t => convert_value float_of_string int_of_string t v
              | None => Ok v end) as [v'|e]; cbn [bind]; [|discriminate].
    destruct (_convert_parameter_types float_of_string int_of_string l) as [l'|e];
      cbn [bind]; [|discriminate].
    intro E. injection E as E. subst out. simpl.
    destruct (String.eqb k p); [discriminate|]. apply IH. reflexivity.
Qed.

Lemma convert_present (params : dict pyval) : forall (out : dict pyval) k v t,
  _convert_parameter_types float_of_string int_of_string params = Ok out ->
  dict_get k params = Some v ->
  dict_get k PARAM_TYPES = Some t ->
  exists v', convert_value float_of_string int_of_string t v = Ok v' /\
             dict_get k out = Some v'.
Proof.
  induction params as [|[p v0] l IH]; intros out k v t;
    cbn [_convert_parameter_types]; [discriminate|].
  destruct (match dict_get p PARAM_TYPES with
            | Some t => convert_value float_of_string int_of_string t v0
            | None => Ok v0 end) as [v'|e] eqn:Ev; cbn [bind]; [|discriminate].
  destruct (_convert_parameter_types float_of_string int_of_string l) as [l'|e];
    cbn [bind]; [|discriminate].
  intro E. injection E as E. subst out. intros E1 Et.
  change (dict_get k ((p, v0) :: l))
    with (if String.eqb k p then Some v0 else dict_get k l) in E1.
  change (dict_get k ((p, v') :: l'))
    with (if String.eqb k p then Some v' else dict_get k l').
  destruct (String.eqb k p) eqn:Ek.
  - apply String.eqb_eq in Ek. subst p. injection E1 as E1. subst v0.
    rewrite Et in Ev. exists v'. split; [exact Ev|reflexivity].
  - apply (IH l' k v t eq_refl E1 Et).
Qed.

(** C4, amended.  Under a rule set whose Required and Optional entries for
    the command do not name depth, the output of an accepted command holds no
    depth, hence never both height and depth.  With [params1] the
    parameter map that enters the normalization (the input, or for a point
    survey the input after its bootstrap): if both were present the output
    height is the input height after its coercion to float; if only depth
    was present the output height is -|float(depth)|. *)
Theorem validated_height_depth cmd (params params1 out : dict pyval) :
  NoDup (map fst params) ->
  (forall required, dict_get cmd (required_keys self) = Some required ->
                   ~ In "глубина" required) ->
  (forall optional, dict_get cmd (optional_keys self) = Some optional ->
                   dict_get "глубина" optional = None) ->
  (if String.eqb cmd "обследование_точки"
   then _process_point_survey _prompt_for_parameter self params
   else Ok params) = Ok params1 ->
  validate_params float_of_string int_of_string _prompt_for_parameter self
    cmd params = Ok out ->
  dict_get "глубина" out = None /\
  (forall h d, dict_get "высота" params1 = Some h ->
               dict_get "глубина" params1 = Some d ->
               exists h', convert_value float_of_string int_of_string TFloat h = Ok h' /\
                          dict_get "высота" out = Some h') /\
  (forall d, dict_get "высота" params1 = None ->
             dict_get "глубина" params1 = Some d ->
             exists x, py_float float_of_string d = Ok x /\
                       dict_get "высота" out = Some (VFloat (- Qabs x))).
Proof.
  intros Hnd Hreq Hopt Hboot. unfold validate_params. rewrite Hboot. cbn [bind].
  assert (Hnd1 : NoDup (map fst params1)).
  { destruct (String.eqb cmd "обследование_точки").
    - eapply point_survey_nodup; eassumption.
    - injection Hboot as E. subst. exact Hnd. }
  destruct (_process_height_depth float_of_string _prompt_for_parameter self
              cmd params1) as [params2|e] eqn:E2; cbn [bind]; [|discriminate].
  destruct (height_depth_normal cmd params1 params2 Hnd1 E2) as [Hdepth [Hboth Honly]].
  set (params3 := _check_required_parameters _prompt_for_parameter self cmd params2).
  set (params4 := _apply_optional_parameters self cmd params3).
  intro Hout.
  assert (H3 : dict_get "глубина" params3 = None).
  { subst params3. unfold _check_required_parameters.
    destruct (dict_get cmd (required_keys self)) as [required|] eqn:Er;
      [|exact Hdepth].
    apply prompt_all_absent; [exact (Hreq required eq_refl)|exact Hdepth]. }
  assert (H4 : dict_get "глубина" params4 = None).
  { subst params4. unfold _apply_optional_parameters.
    destruct (dict_get cmd (optional_keys self)) as [optional|] eqn:Eo;
      [|exact H3].
    apply (defaults_absent optional "глубина" params3 (Hopt optional eq_refl) H3). }
  assert (Hkeep : forall v, dict_get "высота" params2 = Some v ->
                            dict_get "высота" params4 = Some v).
  { intros v Hv. subst params4 params3.
    unfold _apply_optional_parameters, _check_required_parameters.
    destruct (dict_get cmd (optional_keys self)) as [optional|];
      [apply (defaults_present optional)|];
      (destruct (dict_get cmd (required_keys self)) as [required|];
        [apply prompt_all_present|]; exact Hv). }
  split; [exact (convert_absent params4 out "глубина" Hout H4)|]. split.
  - intros h d Eh Ed.
    apply (convert_present params4 out "высота" h TFloat Hout
             (Hkeep h (Hboth h d Eh Ed)) eq_refl).
  - intros d Eh Ed. destruct (Honly d Eh Ed) as [x [Ex Hx]].
    exists x. split; [exact Ex|].
    destruct (convert_present params4 out "высота" _ TFloat Hout
                (Hkeep _ Hx) eq_refl) as [v' [Ev Hv]].
    cbn in Ev. injection Ev as Ev. subst v'. exact Hv.
Qed.

End ValidatorFacts.

Lemma validated_height_depth_witness :
  let self := mkValidator [("погружение", ["высота"])]
                [("погружение", [("скорость", VFloat 1)])] [] in
  exists out,
    validate_params float_of_decimal int_of_decimal operator_answer self
      "погружение" [("глубина", VStr "12.5")] = Ok out /\
    dict_get "глубина" out = None /\
    dict_get "высота" out = Some (VFloat (- Qabs (125 # 10))).
Proof.
  intro self.
  destruct (validate_params float_of_decimal int_of_decimal operator_answer self
              "погружение" [("глубина", VStr "12.5")]) as [out|e] eqn:E;
    [|vm_compute in E; discriminate].
  exists out. split; [reflexivity|].
  destruct (validated_height_depth float_of_decimal int_of_decimal
              operator_answer self "погружение"
              [("глубина", VStr "12.5")] [("глубина", VStr "12.5")] out)
    as [Hdepth [_ Honly]].
  - repeat constructor. intros [].
  - intros required Er. injection Er as Er. subst required.
    intros [H|[]]. discriminate.
  - intros optional Eo. injection Eo as Eo. subst optional. reflexivity.
  - reflexivity.
  - exact E.
  - split; [exact Hdepth|].
    destruct (Honly (VStr "12.5") eq_refl eq_refl) as [x [Ex Hx]].
    injection Ex as Ex. subst x. exact Hx.
Defined.

(** C4 for every rule set fails: when Optional names depth with a default,
    the defaults step puts depth back and the output holds both height and
    depth. *)
Lemma validated_depth_from_rules_fails :
  ~ (forall float_of_string int_of_string _prompt_for_parameter self cmd
            (params out : dict pyval),
       NoDup (map fst params) ->
       validate_params float_of_string int_of_string _prompt_for_parameter self
         cmd params = Ok out ->
       dict_get "глубина" out = None).
Proof.
  intro H.
  specialize (H float_of_decimal int_of_decimal operator_answer
                (mkValidator [] [("погружение", [("глубина", VFloat 10)])] [])
                "погружение" [("высота", VFloat 5)]
                [("высота", VFloat 5); ("глубина", VFloat 10)]).
  assert (Hnd : NoDup (map fst [("высота", VFloat 5)]))
    by (repeat constructor; intros []).
  specialize (H Hnd eq_refl). discriminate.
Qed.

Local Close Scope string_scope.

End ProcessingFacts.

(** ** The plan emitter *)

Module TranslatorFacts.

Import Translators.

Local Open Scope string_scope.
Local Open Scope list_scope.

Section Emission.

Variable params : dict pyval.
Variables depth speed dev : pyval.
Hypothesis Hdepth : dict_get "высота" params = Some depth.
Hypothesis Hspeed : dict_get "скорость" params = Some speed.
Hypothesis Hdev : dict_get "прибор" params = Some dev.

(** The first inner loop appends the interleaving and leaves the flag
    flipped once per waypoint. *)
Lemma toggle_waypoints_interleaved (coordinate : list (Q * Q)) :
  forall device acc,
    toggle_waypoints (CParams params) coordinate device acc
    = Ok (xorb device (Nat.odd (List.length coordinate)),
          acc ++ interleaved depth speed dev device coordinate).
Proof.
  induction coordinate as [|i rest IH]; intros device acc.
  - cbn. rewrite app_nil_r, xorb_false_r. reflexivity.
  - cbn [toggle_waypoints value_item]. unfold dict_item.
    rewrite Hdepth, Hspeed, Hdev. cbn [bind].
    destruct device; cbn [negb]; rewrite IH; cbn [interleaved negb List.length];
      rewrite Nat.odd_succ, <- Nat.negb_odd, <- !app_assoc; cbn [app];
      destruct (Nat.odd (List.length rest)); reflexivity.
Qed.

Lemma toggle_lists_interleaved (lists : list (string * list (Q * Q))) :
  forall device acc,
    toggle_lists (CParams params) lists device acc
    = Ok (acc ++ interleaved depth speed dev device (all_waypoints lists)).
Proof.
  assert (Happ : forall a b device,
    interleaved depth speed dev device (a ++ b)
    = interleaved depth speed dev device a
      ++ interleaved depth speed dev (xorb device (Nat.odd (List.length a))) b).
  { induction a as [|i a IH]; intros b device.
    - cbn. rewrite xorb_false_r. reflexivity.
    - cbn [app interleaved List.length]. rewrite IH.
      rewrite Nat.odd_succ, <- Nat.negb_odd.
      destruct device, (Nat.odd (List.length a)); reflexivity. }
  induction lists as [|[name coordinate] rest IH]; intros device acc.
  - cbn. rewrite app_nil_r. reflexivity.
  - cbn [toggle_lists]. rewrite toggle_waypoints_interleaved. cbn [bind fst snd].
    rewrite IH. unfold all_waypoints. cbn [map snd]. rewrite concat_cons.
    rewrite Happ, app_assoc. reflexivity.
Qed.

Lemma plain_waypoints_movements (coordinate : list (Q * Q)) :
  forall acc,
    plain_waypoints (CParams params) coordinate acc
    = Ok (acc ++ map (fun i => Some (movement depth speed (fst i) (snd i))) coordinate).
Proof.
  induction coordinate as [|i rest IH]; intro acc.
  - cbn. rewrite app_nil_r. reflexivity.
  - cbn [plain_waypoints value_item]. unfold dict_item.
    rewrite Hdepth, Hspeed. cbn [bind]. rewrite IH, <- app_assoc. reflexivity.
Qed.

Lemma plain_lists_movements (lists : list (string * list (Q * Q))) :
  forall acc,
    plain_lists (CParams params) lists acc
    = Ok (acc ++ map (fun i => Some (movement depth speed (fst i) (snd i)))
                     (all_waypoints lists)).
Proof.
  induction lists as [|[name coordinate] rest IH]; intro acc.
  - cbn. rewrite app_nil_r. reflexivity.
  - cbn [plain_lists]. rewrite plain_waypoints_movements. cbn [bind].
    rewrite IH. unfold all_waypoints. cbn [map snd]. rewrite concat_cons.
    rewrite map_app, app_assoc. reflexivity.
Qed.

Lemma interleaved_length device (waypoints : list (Q * Q)) :
  List.length (interleaved depth speed dev device waypoints)
  = (2 * List.length waypoints)%nat.
Proof.
  revert device. induction waypoints as [|i rest IH]; intro device;
    [reflexivity|].
  cbn [interleaved List.length]. rewrite IH. lia.
Qed.

Variable lists : list (string * list (Q * Q)).
Hypothesis Hlists : dict_get "координаты" params = Some (VCoords lists).

(** The plan of a figure survey. *)
Lemma figure_survey_plan :
  Translator [[("обследование_фигуры", CParams params)]]
  = Ok (action dev "вкл"
        :: interleaved depth speed dev false (all_waypoints lists)
        ++ [action dev "выкл"]).
Proof.
  unfold Translator. cbn [translate translate_command].
  unfold translate_item.
  replace (String.eqb "обследование_фигуры" "обследование_фигуры") with true
    by reflexivity.
  cbn [bind]. unfold coordinate_lists. cbn [value_item]. unfold dict_item.
  rewrite Hdev, Hlists. cbn [bind app].
  rewrite toggle_lists_interleaved. cbn [bind app].
  reflexivity.
Qed.

(** The plan of a point survey whose pattern is the text [меандр] and no
    more: the same interleaving. *)
Lemma point_survey_exact_meander_plan :
  dict_get "траектория" params = Some (VStr "меандр") ->
  Translator [[("обследование_точки", CParams params)]]
  = Ok (action dev "вкл"
        :: interleaved depth speed dev false (all_waypoints lists)
        ++ [action dev "выкл"]).
Proof.
  intro Htext.
  unfold Translator. cbn [translate translate_command].
  unfold translate_item.
  replace (String.eqb "обследование_точки" "обследование_фигуры") with false
    by reflexivity.
  replace (String.eqb "обследование_точки" "обследование_точки") with true
    by reflexivity.
  unfold is_meander, coordinate_lists. cbn [value_item]. unfold dict_item.
  rewrite Htext. cbn [bind].
  replace (String.eqb "меандр" "меандр") with true by reflexivity.
  cbn [bind]. rewrite Hdev, Hlists. cbn [bind app].
  rewrite toggle_lists_interleaved. cbn [bind app].
  reflexivity.
Qed.

(** The interleaved plan has 2W + 2 entries. *)
Lemma interleaved_plan_length :
  List.length (action dev "вкл"
               :: interleaved depth speed dev false (all_waypoints lists)
               ++ [action dev "выкл"])
  = (2 * List.length (all_waypoints lists) + 2)%nat.
Proof.
  cbn [List.length]. rewrite length_app, interleaved_length.
  cbn [List.length]. lia.
Qed.

(** The plan of a point survey whose pattern is not the text [меандр]. *)
Lemma point_survey_plain_plan (text : string) :
  dict_get "траектория" params = Some (VStr text) ->
  text <> "меандр" ->
  Translator [[("обследование_точки", CParams params)]]
  = Ok (action dev "вкл"
        :: map (fun i => Some (movement depth speed (fst i) (snd i)))
               (all_waypoints lists)
        ++ [action dev "выкл"]).
Proof.
  intros Htext Hne. apply String.eqb_neq in Hne.
  unfold Translator. cbn [translate translate_command].
  unfold translate_item.
  replace (String.eqb "обследование_точки" "обследование_фигуры") with false
    by reflexivity.
  replace (String.eqb "обследование_точки" "обследование_точки") with true
    by reflexivity.
  unfold is_meander, coordinate_lists. cbn [value_item]. unfold dict_item.
  rewrite Htext. cbn [bind]. rewrite Hne. cbn [bind].
  rewrite Hdev, Hlists. cbn [bind app].
  rewrite plain_lists_movements. cbn [bind app].
  reflexivity.
Qed.

End Emission.

Lemma interleaved_toggle depth speed dev (waypoints : list (Q * Q)) :
  forall device j, (j < List.length waypoints)%nat ->
    nth_error (interleaved depth speed dev device waypoints) (2 * j + 1)
    = Some (action dev (if xorb device (Nat.odd j) then "продолжить" else "пауза")).
Proof.
  induction waypoints as [|i rest IH]; intros device j Hj; [simpl in Hj; lia|].
  destruct j as [|j].
  - cbn. rewrite xorb_false_r. reflexivity.
  - replace (2 * S j + 1)%nat with (S (S (2 * j + 1))) by lia.
    cbn [interleaved nth_error]. rewrite IH by (simpl in Hj; lia).
    rewrite Nat.odd_succ, <- Nat.negb_odd.
    destruct device, (Nat.odd j); reflexivity.
Qed.

(** C8, what the code does.  [action] has no branch for the multibeam
    echosounder with the resume status and returns None there, and the
    emission appends whatever [action] returns: the plan of a multibeam
    figure survey keeps its 2W + 2 entries, and the entry after every second
    waypoint, where the side-scan sonar has its resume action, is a null
    entry.  The claim has no entry for the pair. *)
Theorem multibeam_resume_null_entry params depth speed lists :
  dict_get "высота" params = Some depth ->
  dict_get "скорость" params = Some speed ->
  dict_get "прибор" params = Some (VStr "млэ") ->
  dict_get "координаты" params = Some (VCoords lists) ->
  action (VStr "млэ") "продолжить" = None /\
  action (VStr "гбо") "продолжить" = Some SidesonarResume /\
  exists plan,
    Translator [[("обследование_фигуры", CParams params)]] = Ok plan /\
    List.length plan = (2 * List.length (all_waypoints lists) + 2)%nat /\
    forall j, (j < List.length (all_waypoints lists))%nat -> Nat.odd j = true ->
      nth_error plan (2 * j + 2) = Some None.
Proof.
  intros Hdepth Hspeed Hdev Hlists.
  split; [reflexivity|]. split; [reflexivity|].
  rewrite (figure_survey_plan params depth speed (VStr "млэ") Hdepth Hspeed Hdev
             lists Hlists).
  eexists. split; [reflexivity|]. split.
  - cbn [List.length]. rewrite length_app, interleaved_length. cbn [List.length]. lia.
  - intros j Hj Hodd.
    replace (2 * j + 2)%nat with (S (2 * j + 1)) by lia. cbn [nth_error].
    rewrite nth_error_app1 by (rewrite interleaved_length; lia).
    rewrite interleaved_toggle by exact Hj.
    rewrite Hodd. reflexivity.
Qed.

Lemma multibeam_resume_null_entry_witness :
  exists plan,
    Translator [[("обследование_фигуры",
                  CParams [("прибор", VStr "млэ"); ("высота", VFloat 5);
                           ("скорость", VFloat 1);
                           ("координаты",
                            VCoords [("координаты", [(10, 20); (10, 21)])])])]]
    = Ok plan /\
    List.length plan = 6%nat /\
    nth_error plan 4 = Some None.
Proof.
  destruct (multibeam_resume_null_entry
              [("прибор", VStr "млэ"); ("высота", VFloat 5);
               ("скорость", VFloat 1);
               ("координаты", VCoords [("координаты", [(10, 20); (10, 21)])])]
              (VFloat 5) (VFloat 1)
              [("координаты", [(10, 20); (10, 21)])]
              eq_refl eq_refl eq_refl eq_refl)
    as [_ [_ [plan [Hplan [Hlen Hnull]]]]].
  exists plan. split; [exact Hplan|]. split; [exact Hlen|].
  exact (Hnull 1%nat (le_n 2) eq_refl).
Defined.

(** C2, what the code does.  A point survey whose survey-pattern parameter
    is the text [меандр, вертикально] is not taken by the toggling branch
    (it compares the whole text with [меандр]): its plan is the
    instrument-ON action, one movement per waypoint and the instrument-OFF
    action, W + 2 entries with no pause or resume, where the claim has
    2W + 2. *)
Theorem point_survey_meander_vertical_plan params depth speed dev lists :
  dict_get "высота" params = Some depth ->
  dict_get "скорость" params = Some speed ->
  dict_get "прибор" params = Some dev ->
  dict_get "координаты" params = Some (VCoords lists) ->
  dict_get "траектория" params = Some (VStr "меандр, вертикально") ->
  exists plan,
    Translator [[("обследование_точки", CParams params)]] = Ok plan /\
    plan = action dev "вкл"
           :: map (fun i => Some (movement depth speed (fst i) (snd i)))
                  (all_waypoints lists)
           ++ [action dev "выкл"] /\
    List.length plan = (List.length (all_waypoints lists) + 2)%nat.
Proof.
  intros Hdepth Hspeed Hdev Hlists Htext.
  rewrite (point_survey_plain_plan params depth speed dev Hdepth Hspeed Hdev
             lists Hlists "меандр, вертикально" Htext) by discriminate.
  eexists. split; [reflexivity|]. split; [reflexivity|].
  cbn [List.length]. rewrite length_app, length_map. cbn [List.length]. lia.
Qed.

Lemma point_survey_meander_vertical_plan_witness :
  exists plan,
    Translator [[("обследование_точки",
                  CParams [("прибор", VStr "гбо"); ("высота", VFloat 5);
                           ("скорость", VFloat 1);
                           ("координаты",
                            VCoords [("координаты",
                                      [(10, 20); (10, 21); (11, 21); (11, 20);
                                       (12, 20); (12, 21)])]);
                           ("траектория", VStr "меандр, вертикально")])]]
    = Ok plan /\
    List.length plan = 8%nat /\
    ~ In (Some SidesonarPause) plan.
Proof.
  destruct (point_survey_meander_vertical_plan
              [("прибор", VStr "гбо"); ("высота", VFloat 5);
               ("скорость", VFloat 1);
               ("координаты",
                VCoords [("координаты",
                          [(10, 20); (10, 21); (11, 21); (11, 20);
                           (12, 20); (12, 21)])]);
               ("траектория", VStr "меандр, вертикально")]
              (VFloat 5) (VFloat 1) (VStr "гбо")
              [("координаты",
                [(10, 20); (10, 21); (11, 21); (11, 20); (12, 20); (12, 21)])]
              eq_refl eq_refl eq_refl eq_refl eq_refl)
    as [plan [Hplan [Hshape Hlen]]].
  exists plan. split; [exact Hplan|]. split; [exact Hlen|].
  subst plan. cbn. intuition discriminate.
Defined.

Local Close Scope list_scope.
Local Close Scope string_scope.

End TranslatorFacts.

(** ** More on strings *)

Local Open Scope string_scope.

Import TrajectoryFacts.

Lemma rev_string_spec (s : string) : forall acc,
  rev_string acc s = rev_string "" s ++ acc.
Proof.
  induction s as [|c s IH]; intro acc; simpl; [reflexivity|].
  rewrite IH, (IH (String c "")), append_assoc. reflexivity.
Qed.

Lemma rev_string_append (a b : string) :
  rev_string "" (a ++ b) = rev_string "" b ++ rev_string "" a.
Proof.
  induction a as [|c a IH]; simpl.
  - rewrite append_empty_r. reflexivity.
  - rewrite (rev_string_spec (a ++ b) (String c "")), IH,
      (rev_string_spec a (String c "")), append_assoc.
    reflexivity.
Qed.

Lemma rev_string_involutive (s : string) :
  rev_string "" (rev_string "" s) = s.
Proof.
  induction s as [|c s IH]; simpl; [reflexivity|].
  rewrite (rev_string_spec s (String c "")), rev_string_append, IH. reflexivity.
Qed.

Lemma prefix_char (a c : ascii) (t : string) :
  String.prefix (String a "") (String c t) = Ascii.eqb a c.
Proof.
  cbn [String.prefix]. destruct (ascii_dec a c) as [E|E].
  - subst. rewrite Ascii.eqb_refl. destruct t; reflexivity.
  - symmetry. apply Ascii.eqb_neq. exact E.
Qed.

Lemma lstrip_fixed (c : ascii) (s : string) :
  is_space c = false -> lstrip (String c s) = String c s.
Proof. intro H. simpl. rewrite H. reflexivity. Qed.

Lemma lstrip_shape (s : string) :
  lstrip s = "" \/ exists c t, lstrip s = String c t /\ is_space c = false.
Proof.
  induction s as [|c s IH]; simpl; [left; reflexivity|].
  destruct (is_space c) eqn:E; [exact IH|].
  right. exists c, s. split; [reflexivity|exact E].
Qed.

Lemma lstrip_idempotent (s : string) : lstrip (lstrip s) = lstrip s.
Proof.
  destruct (lstrip_shape s) as [E|[c [t [E Hc]]]]; rewrite E; [reflexivity|].
  apply lstrip_fixed, Hc.
Qed.

Lemma lstrip_keeps_last (a : string) (c : ascii) :
  is_space c = false -> exists u, lstrip (a ++ String c "") = u ++ String c "".
Proof.
  intro Hc. induction a as [|x a IH]; simpl.
  - rewrite Hc. exists "". reflexivity.
  - destruct (is_space x); [exact IH|].
    exists (String x a). reflexivity.
Qed.

Lemma rstrip_keeps_head (c : ascii) (t : string) :
  is_space c = false -> exists u, rstrip (String c t) = String c u.
Proof.
  intro Hc. unfold rstrip. simpl. rewrite (rev_string_spec t (String c "")).
  destruct (lstrip_keeps_last (rev_string "" t) c Hc) as [u Hu].
  rewrite Hu, rev_string_append. simpl. eexists. reflexivity.
Qed.

Lemma rstrip_idempotent (s : string) : rstrip (rstrip s) = rstrip s.
Proof.
  unfold rstrip. rewrite rev_string_involutive, lstrip_idempotent. reflexivity.
Qed.

Lemma strip_shape (s : string) :
  strip s = "" \/
  exists c t u, lstrip s = String c t /\ strip s = String c u /\ is_space c = false.
Proof.
  unfold strip.
  destruct (lstrip_shape s) as [E|[c [t [E Hc]]]]; rewrite E.
  - left. reflexivity.
  - right. destruct (rstrip_keeps_head c t Hc) as [u Hu].
    exists c, t, u. auto.
Qed.

Lemma strip_idempotent (s : string) : strip (strip s) = strip s.
Proof.
  destruct (strip_shape s) as [E|[c [t [u [_ [E Hc]]]]]]; rewrite E; [reflexivity|].
  unfold strip. rewrite lstrip_fixed by exact Hc.
  rewrite <- E. unfold strip. apply rstrip_idempotent.
Qed.

Local Close Scope string_scope.

(** ** The lines of a mission file *)

Module ParserFacts.

Import Parser.

Local Open Scope string_scope.

Lemma kept_strip (line : string) : kept line = true -> kept (strip line) = true.
Proof.
  unfold kept. intro H. apply andb_true_iff in H. destruct H as [H1 H2].
  rewrite strip_idempotent, H1. cbn [andb].
  destruct (strip_shape line) as [E|[c [t [u [El [E Hc]]]]]].
  - rewrite E in H1. discriminate.
  - rewrite E, lstrip_fixed by exact Hc.
    rewrite El in H2. rewrite prefix_char in H2 |- *.
    destruct (Ascii.eqb "#" c); [discriminate|reflexivity].
Qed.

(** X1.  Every line [preprocess_lines] returns is stripped, not empty and
    starts with no [#]; applying it again changes nothing. *)
Theorem preprocess_lines_normal (lines : list string) :
  (forall line, In line (preprocess_lines lines) ->
     line <> "" /\ strip line = line /\ String.prefix "#" line = false) /\
  preprocess_lines (preprocess_lines lines) = preprocess_lines lines.
Proof.
  assert (Hkept : forall line, In line (preprocess_lines lines) ->
            kept line = true /\ strip line = line).
  { intros line Hin. unfold preprocess_lines in Hin.
    apply in_map_iff in Hin. destruct Hin as [x [Hx Hin]].
    apply filter_In in Hin. destruct Hin as [_ Hk].
    subst line. split; [apply kept_strip, Hk|apply strip_idempotent]. }
  split.
  - intros line Hin. destruct (Hkept line Hin) as [Hk Hs].
    unfold kept in Hk. apply andb_true_iff in Hk. destruct Hk as [H1 H2].
    rewrite Hs in H1. split; [|split; [exact Hs|]].
    + intro E. subst line. discriminate.
    + destruct (strip_shape line) as [E|[c [t [u [El [E Hc]]]]]].
      * rewrite Hs in E. subst line. discriminate.
      * rewrite Hs in E. rewrite E in *. rewrite lstrip_fixed in H2 by exact Hc.
        apply negb_true_iff in H2. exact H2.
  - generalize (preprocess_lines lines) Hkept. intros l Hl.
    unfold preprocess_lines.
    induction l as [|x l IH]; [reflexivity|].
    destruct (Hl x (or_introl eq_refl)) as [Hk Hs].
    simpl. rewrite Hk. simpl. rewrite Hs. f_equal.
    apply IH. intros y Hy. apply Hl. right. exact Hy.
Qed.

Lemma preprocess_lines_normal_witness :
  In "a" (preprocess_lines ["  a  "; "# c"; ""]) /\ strip "a" = "a".
Proof.
  split; [left; reflexivity|].
  apply (proj1 (preprocess_lines_normal ["  a  "; "# c"; ""]) "a").
  left. reflexivity.
Defined.

Local Close Scope string_scope.

End ParserFacts.

(** ** The token classifier and the analyzer *)

Module LexerFacts.

Import Analyzator Lexer AnalyzatorFacts.

Local Open Scope string_scope.

Lemma contains_char (c : ascii) (s : string) :
  contains (String c "") s = true <-> (1 <= count c s)%nat.
Proof.
  induction s as [|x s IH].
  - simpl. split; [discriminate|lia].
  - cbn [contains count]. rewrite prefix_char.
    rewrite (Ascii.eqb_sym c x).
    destruct (Ascii.eqb x c); [split; [lia|reflexivity]|].
    rewrite IH. simpl. tauto.
Qed.

Lemma rfind_from_absent (c : ascii) (s : string) : forall i last,
  count c s = 0%nat -> rfind_from c i last s = last.
Proof.
  induction s as [|x s IH]; intros i last H; simpl in *; [reflexivity|].
  destruct (Ascii.eqb x c); [discriminate|]. apply IH. exact H.
Qed.

Lemma rfind_from_bounds (c : ascii) (s : string) : forall i last,
  (1 <= count c s)%nat ->
  (i <= rfind_from c i last s < i + Z.of_nat (String.length s))%Z.
Proof.
  induction s as [|x s IH]; intros i last H; [simpl in H; lia|].
  cbn [rfind_from count String.length] in *.
  destruct (count c s) as [|k] eqn:Ek.
  - destruct (Ascii.eqb x c); [|simpl in H; lia].
    rewrite rfind_from_absent by exact Ek. lia.
  - specialize (IH (i + 1)%Z (if Ascii.eqb x c then i else last)).
    assert (1 <= S k)%nat by lia. specialize (IH H0). lia.
Qed.

Lemma get_some (s : string) : forall k,
  (k < String.length s)%nat -> exists c, String.get k s = Some c.
Proof.
  induction s as [|x s IH]; intros k H; [simpl in H; lia|].
  destruct k as [|k]; simpl; [eauto|]. apply IH. simpl in H. lia.
Qed.

Lemma item_ok (s : string) (i : Z) :
  (- Z.of_nat (String.length s) <= i < Z.of_nat (String.length s))%Z ->
  exists c, item s i = Ok c.
Proof.
  intro H. unfold item.
  set (n := Z.of_nat (String.length s)) in *.
  set (j := if (i <? 0)%Z then (i + n)%Z else i).
  assert (Hj : (0 <= j < n)%Z) by (subst j; destruct (Z.ltb_spec i 0); lia).
  replace ((j <? 0)%Z || (n <=? j)%Z) with false
    by (symmetry; apply orb_false_iff; split; [apply Z.ltb_ge|apply Z.leb_gt]; lia).
  destruct (get_some s (Z.to_nat j)) as [c Hc]; [lia|].
  rewrite Hc. eauto.
Qed.

Lemma isfunction_total (token : string) : exists b, isfunction token = Ok b.
Proof.
  unfold isfunction.
  destruct (contains "(" token) eqn:Ec; [|eauto].
  destruct (count ")" token <? count "(" token)%nat; [eauto|].
  destruct (count "(" token =? count ")" token)%nat eqn:Eq; [|eauto].
  apply Nat.eqb_eq in Eq. apply contains_char in Ec.
  destruct (item_ok token (rfind ")" token - 1)) as [c Hc].
  - pose proof (rfind_from_bounds ")" token 0 (-1)) as Hb.
    unfold rfind. lia.
  - rewrite Hc. cbn [bind]. eauto.
Qed.

(** Every token gets one of the four kinds. *)
Lemma check_type_kinds (token : string) :
  exists token_type,
    check_type token = Ok token_type /\
    In token_type ["variable"; "function"; "condition"; "addition"].
Proof.
  unfold check_type.
  destruct (isvariable token); [eexists; split; [reflexivity|simpl; tauto]|].
  destruct (isfunction_total token) as [b Hb]. rewrite Hb. cbn [bind].
  destruct b; [eexists; split; [reflexivity|simpl; tauto]|].
  destruct (iscondition token); eexists; (split; [reflexivity|simpl; tauto]).
Qed.

(** X2.  The classifier never raises: the index [token.rfind(")") - 1] it
    reads is always inside the token, and every token gets one of the four
    kinds. *)
Theorem check_type_total (token : string) :
  exists token_type,
    check_type token = Ok token_type /\
    In token_type ["variable"; "function"; "condition"; "addition"].
Proof. exact (check_type_kinds token). Qed.

Lemma count_append (c : ascii) (a b : string) :
  count c (a ++ b) = (count c a + count c b)%nat.
Proof. induction a as [|x a IH]; simpl; [reflexivity|rewrite IH; lia]. Qed.

Lemma length_append (a b : string) :
  String.length (a ++ b) = (String.length a + String.length b)%nat.
Proof. induction a as [|x a IH]; simpl; [reflexivity|rewrite IH; reflexivity]. Qed.

Lemma rfind_from_last (c : ascii) (a : string) : forall i last,
  rfind_from c i last (a ++ String c "") = (i + Z.of_nat (String.length a))%Z.
Proof.
  induction a as [|x a IH]; intros i last.
  - simpl. rewrite Ascii.eqb_refl. lia.
  - cbn [append rfind_from String.length]. rewrite IH. lia.
Qed.

Lemma get_append (a : string) (c : ascii) (r : string) :
  String.get (String.length a) (a ++ String c r) = Some c.
Proof. induction a as [|x a IH]; simpl; [reflexivity|exact IH]. Qed.

Lemma string_last (u : string) :
  u = "" \/ exists v x, u = v ++ String x "".
Proof.
  induction u as [|c u IH]; [left; reflexivity|right].
  destruct IH as [E|[v [x E]]]; subst.
  - exists "", c. reflexivity.
  - exists (String c v), x. reflexivity.
Qed.

(** The character before the last [)] of a text that ends with [)]. *)
Lemma item_before_close (v : string) (x : ascii) :
  item (v ++ String x (String ")" "")) (rfind ")" (v ++ String x (String ")" "")) - 1)
  = Ok x.
Proof.
  unfold rfind.
  replace (v ++ String x (String ")" "")) with ((v ++ String x "") ++ String ")" "")
    by (rewrite append_assoc; reflexivity).
  rewrite rfind_from_last. unfold item.
  rewrite !length_append. cbn [String.length].
  replace (0 + Z.of_nat (String.length v + 1) - 1)%Z with (Z.of_nat (String.length v))
    by lia.
  replace (Z.of_nat (String.length v) <? 0)%Z with false
    by (symmetry; apply Z.ltb_ge; lia).
  replace ((Z.of_nat (String.length v) <? 0)%Z
           || (Z.of_nat (String.length v + 1 + 1) <=? Z.of_nat (String.length v))%Z)
    with false
    by (symmetry; apply orb_false_iff; split; [apply Z.ltb_ge|apply Z.leb_gt]; lia).
  rewrite Nat2Z.id. rewrite append_assoc. cbn [append].
  rewrite get_append. reflexivity.
Qed.

Lemma not_variable_append (u w : string) :
  contains "=" u = false -> count "=" w = 0%nat -> isvariable (u ++ w) = false.
Proof.
  intros Hu Hw. unfold isvariable.
  destruct (contains "=" (u ++ w)) eqn:E; [|reflexivity].
  apply contains_char in E. rewrite count_append, Hw in E.
  assert (H : contains "=" u = true) by (apply contains_char; lia).
  congruence.
Qed.

(** X3.  A call closed on its line with a single pair of parentheses,
    [name(args)], is not classified as a function; a balanced token that ends
    with [))] and holds no [=] is. *)
Theorem call_classification :
  (forall u, contains "=" u = false ->
     count "(" u = 1%nat -> count ")" u = 0%nat ->
     exists token_type, check_type (u ++ ")") = Ok token_type /\
                        token_type <> "function") /\
  (forall b, contains "=" b = false ->
     count "(" (b ++ "))") = count ")" (b ++ "))") ->
     check_type (b ++ "))") = Ok "function").
Proof.
  split.
  - intros u Heq Hopen Hclose. unfold check_type.
    rewrite not_variable_append by (exact Heq || reflexivity).
    unfold isfunction.
    assert (Hc : contains "(" (u ++ ")") = true)
      by (apply contains_char; rewrite count_append; lia).
    rewrite Hc, !count_append, Hopen, Hclose. cbn [count Ascii.eqb Bool.eqb Nat.add].
    replace (1 <? 1)%nat with false by reflexivity.
    replace (1 =? 1)%nat with true by reflexivity.
    destruct (string_last u) as [E|[v [x E]]]; [subst u; discriminate|].
    subst u. rewrite append_assoc. cbn [append].
    rewrite item_before_close. cbn [bind].
    assert (Hx : Ascii.eqb x ")" = false).
    { rewrite count_append in Hclose. cbn [count] in Hclose.
      destruct (Ascii.eqb x ")"); [lia|reflexivity]. }
    rewrite Hx.
    destruct (iscondition (v ++ String x (String ")" "")));
      eexists; (split; [reflexivity|discriminate]).
  - intros b Heq Hbal. unfold check_type.
    rewrite not_variable_append by (exact Heq || reflexivity).
    unfold isfunction.
    assert (Hc : contains "(" (b ++ "))") = true).
    { apply contains_char. rewrite Hbal, count_append. cbn. lia. }
    rewrite Hc, Hbal, Nat.ltb_irrefl, Nat.eqb_refl.
    change (b ++ "))") with (b ++ String ")" (String ")" "")).
    rewrite item_before_close. reflexivity.
Qed.

Lemma call_classification_witness :
  (exists token_type,
     check_type "высота(5)" = Ok token_type /\ token_type <> "function") /\
  check_type "миссия(имя(x))" = Ok "function".
Proof.
  split.
  - apply (proj1 call_classification "высота(5"); reflexivity.
  - apply (proj2 call_classification "миссия(имя(x"); reflexivity.
Defined.

Lemma join_cons (sep x : string) (l : list string) :
  l <> [] -> join sep (x :: l) = x ++ sep ++ join sep l.
Proof. destruct l; [congruence|reflexivity]. Qed.

Lemma join_merge (sep x y : string) (b : list string) : forall a,
  join sep (a ++ String.append x (String.append sep y) :: b)%list
  = join sep (a ++ x :: y :: b)%list.
Proof.
  induction a as [|h a IH].
  - cbn [app]. rewrite (join_cons sep x (y :: b)) by discriminate.
    destruct b as [|z b].
    + reflexivity.
    + rewrite !join_cons by discriminate. rewrite !append_assoc. reflexivity.
  - cbn [app]. rewrite !join_cons by (destruct a; discriminate).
    rewrite IH. reflexivity.
Qed.

Lemma lexical_loop_invariants (data : list string) :
  forall token_types tokens,
    List.length token_types = List.length tokens ->
    (forall t, In t (tl token_types) -> t <> "addition") ->
    exists token_types' tokens',
      lexical_loop data token_types tokens = Ok (token_types', tokens') /\
      List.length token_types' = List.length tokens' /\
      (forall t, In t (tl token_types') -> t <> "addition") /\
      join " " tokens' = join " " (tokens ++ data)%list.
Proof.
  induction data as [|line rest IH]; intros token_types tokens Hlen Htl.
  - exists token_types, tokens. rewrite app_nil_r. auto.
  - cbn [lexical_loop].
    destruct (check_type_kinds line) as [ty [Hty _]]. rewrite Hty. cbn [bind].
    assert (Happend :
      (String.eqb ty "addition" = false \/ tokens = []) ->
      exists token_types' tokens',
        lexical_loop rest (token_types ++ [ty])%list (tokens ++ [line])%list
          = Ok (token_types', tokens') /\
        List.length token_types' = List.length tokens' /\
        (forall t, In t (tl token_types') -> t <> "addition") /\
        join " " tokens' = join " " (tokens ++ line :: rest)%list).
    { intro Hcase.
      destruct (IH (token_types ++ [ty])%list (tokens ++ [line])%list)
        as [tt [tk [E [L [T J]]]]].
      - rewrite !length_app. simpl. lia.
      - intros t Hin. destruct token_types as [|t0 token_types]; [contradiction|].
        cbn [app tl] in Hin. apply in_app_or in Hin. destruct Hin as [Hin|[Hin|[]]].
        + apply Htl. exact Hin.
        + subst t. destruct Hcase as [Hc|Hc].
          * apply String.eqb_neq. exact Hc.
          * subst tokens. discriminate.
      - exists tt, tk. rewrite <- app_assoc in J. auto. }
    destruct (String.eqb ty "addition") eqn:Eadd.
    + destruct tokens as [|t0 tokens'] eqn:Etok; [apply Happend; right; reflexivity|].
      rewrite <- Etok in *.
      assert (Hne : tokens <> []) by (subst tokens; discriminate).
      destruct (IH token_types
                  (removelast tokens
                   ++ [String.append (last tokens "") (String.append " " line)])%list)
        as [tt [tk [E [L [T J]]]]].
      * rewrite length_app. cbn [List.length].
        rewrite (app_removelast_last "" Hne) in Hlen at 1.
        rewrite length_app in Hlen. cbn [List.length] in Hlen. lia.
      * exact Htl.
      * exists tt, tk. split; [exact E|]. split; [exact L|]. split; [exact T|].
        rewrite J. rewrite <- app_assoc. cbn [app].
        rewrite (join_merge " " (last tokens "") line rest (removelast tokens)).
        rewrite (app_removelast_last "" Hne) at 3.
        rewrite <- app_assoc. reflexivity.
    + apply Happend. left. reflexivity.
Qed.

(** X4.  [lexical_analysis] never raises and returns as many kinds as
    tokens; no kind after the first is [addition]; and the tokens joined by
    a space are the lines joined by a space: a continuation is glued to the
    token before it and nothing is lost. *)
Theorem lexical_analysis_invariants (data : list string) :
  exists token_types tokens,
    lexical_analysis data = Ok (token_types, tokens) /\
    List.length token_types = List.length tokens /\
    (forall t, In t (tl token_types) -> t <> "addition") /\
    join " " tokens = join " " data.
Proof.
  apply (lexical_loop_invariants data [] []); [reflexivity|intros t []].
Qed.

Lemma lexical_analysis_invariants_witness :
  exists token_types tokens,
    lexical_analysis ["скорость(1),"; "обследование_точки(прибор(гбо),";
                      "высота(5))"; "x = 1"]
      = Ok (token_types, tokens) /\
    List.length token_types = List.length tokens /\
    ~ In "addition" (tl token_types).
Proof.
  destruct (lexical_analysis_invariants
              ["скорость(1),"; "обследование_точки(прибор(гбо),";
               "высота(5))"; "x = 1"])
    as [token_types [tokens [E [L [T _]]]]].
  exists token_types, tokens. split; [exact E|]. split; [exact L|].
  intro Hin. exact (T "addition" Hin eq_refl).
Defined.

Lemma dict_set_set {V : Type} (k : string) (v1 v2 : V) (d : dict V) :
  dict_set k v2 (dict_set k v1 d) = dict_set k v2 d.
Proof.
  induction d as [|[k0 v0] d IH]; simpl.
  - rewrite String.eqb_refl. reflexivity.
  - destruct (String.eqb k k0) eqn:E; simpl; rewrite E; [reflexivity|].
    rewrite IH. reflexivity.
Qed.

(** X5.  Binding a name twice leaves the table of the second binding alone
    (the last writer wins, in the place of the first); a binding keeps the
    names unique; and every other name that resolved before, its stored text
    being one [eval] is followed on, resolves to the same value after.  (A
    stored text that reads the table itself, outside the fragment, may
    change its value and is left out.) *)
Theorem rebinding_replaces (vars : variables) (n v1 v2 : string) :
  contains "=" n = false ->
  bind_lines [n ++ "=" ++ v1; n ++ "=" ++ v2] vars
    = set_raw_variable (n ++ "=" ++ v2) vars /\
  exists vars',
    set_raw_variable (n ++ "=" ++ v1) vars = Ok vars' /\
    (NoDup (map fst vars) -> NoDup (map fst vars')) /\
    forall x default r, x <> strip n ->
      get_variable vars x default = Some r ->
      get_variable vars' x default = Some r.
Proof.
  intro Hn. split.
  - cbn [bind_lines]. rewrite !set_raw_variable_assignment by exact Hn.
    cbn [bind]. rewrite set_raw_variable_assignment by exact Hn.
    rewrite dict_set_set. reflexivity.
  - eexists. split; [apply set_raw_variable_assignment; exact Hn|]. split.
    + apply dict_set_nodup.
    + intros x default r Hx Hr. unfold get_variable in *.
      rewrite dict_get_set_other by exact Hx. exact Hr.
Qed.

Lemma rebinding_replaces_witness :
  bind_lines ["x = 1"; "x = 2"] [("y", VStr "7")]
    = Ok [("y", VStr "7"); ("x", VStr "2")] /\
  exists vars',
    set_raw_variable "x = 1" [("y", VStr "7")] = Ok vars' /\
    get_variable vars' "y" VNone = Some (Ok (VInt 7)).
Proof.
  destruct (rebinding_replaces [("y", VStr "7")] "x " " 1" " 2" eq_refl)
    as [Hbind [vars' [Hset [_ Hget]]]].
  split; [exact (eq_trans Hbind eq_refl)|].
  exists vars'. split; [exact Hset|].
  apply Hget; [discriminate|reflexivity].
Defined.

(** X6.  [set_variable], which evaluates at once, and [set_raw_variable],
    which stores the text, resolve to the same value whenever the text
    evaluates to a number or raises NameError. *)
Theorem set_variable_agrees (vars : variables) (name value : string)
    (default : pyval) :
  (exists v, py_eval value = Some (Ok v)) \/ py_eval value = Some (Raise NameError) ->
  exists vars',
    set_variable name value vars = Some (Ok vars') /\
    get_variable vars' name default
      = get_variable (dict_set name (VStr value) vars) name default.
Proof.
  intros [[v Hv]|Hn]; unfold set_variable.
  - rewrite Hv. eexists. split; [reflexivity|].
    unfold get_variable. rewrite !dict_get_set_same, Hv.
    destruct (py_eval_number value v Hv) as [[z ->]|[q ->]]; reflexivity.
  - rewrite Hn. eexists. split; reflexivity.
Qed.

Lemma set_variable_agrees_witness :
  exists vars',
    set_variable "speed" "2 * 3" [] = Some (Ok vars') /\
    get_variable vars' "speed" VNone = Some (Ok (VInt 6)).
Proof.
  destruct (set_variable_agrees [] "speed" "2 * 3" VNone) as [vars' [E G]].
  - left. exists (VInt 6). reflexivity.
  - exists vars'. split; [exact E|]. rewrite G. reflexivity.
Defined.

Lemma semantic_params_unchanged (vars : variables) (params : dict pyval) :
  (forall k s, In (k, VStr s) params -> dict_get s vars = None) ->
  semantic_params vars params = Some (Ok params).
Proof.
  induction params as [|[k v] rest IH]; intro H; [reflexivity|].
  cbn [semantic_params].
  assert (Hs : substitute vars v = Some (Ok v)).
  { destruct v as [| | |s|]; try reflexivity. unfold substitute.
    specialize (H k s (or_introl eq_refl)).
    replace (existsb (String.eqb s) (get_variable_names vars)) with false;
      [reflexivity|].
    symmetry. apply not_true_is_false. intro E.
    apply existsb_exists in E. destruct E as [x [Hx Ex]].
    apply String.eqb_eq in Ex. subst x.
    apply dict_get_none_iff in H. contradiction. }
  rewrite Hs, IH; [reflexivity|].
  intros k' s Hin. apply (H k'). right. exact Hin.
Qed.

Lemma semantic_params_keys (vars : variables) (params : dict pyval) :
  forall out, semantic_params vars params = Some (Ok out) ->
              map fst out = map fst params.
Proof.
  induction params as [|[k v] rest IH]; intros out; cbn [semantic_params].
  - intro E. injection E as E. subst out. reflexivity.
  - destruct (substitute vars v) as [[v'|e]|]; try discriminate.
    destruct (semantic_params vars rest) as [[rest'|e]|]; try discriminate.
    intro E. injection E as E. subst out. simpl. f_equal. apply IH. reflexivity.
Qed.

(** X7.  The semantic analysis keeps the name of the command and the names
    and order of its parameters; it leaves the command as it is when no
    parameter value is the name of a variable; and a value that is such a
    name is replaced by what the variable resolves to. *)
Theorem semantic_analysis_substitutes (vars : variables) (key : string)
    (params : dict pyval) :
  (forall out, semantic_analysis vars [(key, CParams params)] = Some (Ok out) ->
     exists params', out = [(key, CParams params')] /\
                     map fst params' = map fst params) /\
  ((forall k s, In (k, VStr s) params -> dict_get s vars = None) ->
   semantic_analysis vars [(key, CParams params)]
     = Some (Ok [(key, CParams params)])) /\
  (forall k s v, NoDup (map fst params) ->
     dict_get k params = Some (VStr s) -> dict_get s vars = Some v ->
     forall out, semantic_analysis vars [(key, CParams params)] = Some (Ok out) ->
       exists params' r, out = [(key, CParams params')] /\
         get_variable vars s VNone = Some (Ok r) /\
         dict_get k params' = Some r).
Proof.
  split; [|split].
  - intros out. cbn [semantic_analysis].
    destruct (semantic_params vars params) as [[params'|e]|] eqn:E; try discriminate.
    intro H. injection H as H. subst out. exists params'. split; [reflexivity|].
    apply (semantic_params_keys vars params params' E).
  - intro H. cbn [semantic_analysis].
    rewrite semantic_params_unchanged by exact H. reflexivity.
  - intros k s v Hnd Hk Hs out. cbn [semantic_analysis].
    destruct (semantic_params vars params) as [[params'|e]|] eqn:E; try discriminate.
    intro H. injection H as H. subst out.
    revert params' E Hk Hnd. induction params as [|[k0 v0] rest IH];
      intros params' E Hk Hnd; [discriminate|].
    cbn [semantic_params] in E.
    destruct (substitute vars v0) as [[v0'|e]|] eqn:Es; try discriminate.
    destruct (semantic_params vars rest) as [[rest'|e]|] eqn:Er; try discriminate.
    injection E as E. subst params'.
    cbn [dict_get] in Hk |- *.
    destruct (String.eqb k k0) eqn:Ek.
    + injection Hk as Hk. subst v0. unfold substitute in Es.
      replace (existsb (String.eqb s) (get_variable_names vars)) with true in Es.
      * exists ((k0, v0') :: rest'), v0'. cbn [dict_get]. rewrite Ek. auto.
      * symmetry. apply existsb_exists. exists s. split; [|apply String.eqb_refl].
        destruct (in_dec string_dec s (get_variable_names vars)) as [Hin|Hout];
          [exact Hin|].
        apply dict_get_none_iff in Hout. congruence.
    + inversion Hnd as [|? ? _ Hnd']; subst.
      destruct (IH rest' eq_refl Hk Hnd') as [p' [r [Ep [Hg Hd]]]].
      injection Ep as Ep. subst p'.
      exists ((k0, v0') :: rest'), r. cbn [dict_get]. rewrite Ek. auto.
Qed.

Lemma semantic_analysis_substitutes_witness :
  semantic_analysis [("h", VStr "2 + 3")]
    [("движение", CParams [("высота", VStr "speed"); ("скорость", VFloat 1)])]
  = Some (Ok [("движение",
               CParams [("высота", VStr "speed"); ("скорость", VFloat 1)])]).
Proof.
  apply (proj1 (proj2 (semantic_analysis_substitutes [("h", VStr "2 + 3")]
                         "движение"
                         [("высота", VStr "speed"); ("скорость", VFloat 1)]))).
  intros k s [H|[H|[]]]; [injection H as _ H; subst s; reflexivity|discriminate].
Defined.

Section AnalyzeFacts.

Variable set_raw_command : string -> result command_dict.

Lemma analyze_loop_result (pairs : list (string * string)) :
  forall vars acc vars' acc',
    analyze_loop set_raw_command pairs vars acc = Some (Ok (vars', acc')) ->
    bind_lines (variable_tokens pairs) vars = Ok vars' /\
    List.length acc' = (List.length acc + other_tokens pairs)%nat.
Proof.
  induction pairs as [|[ty tok] rest IH]; intros vars acc vars' acc'.
  - cbn. intro E. injection E as E1 E2. subst. split; [reflexivity|lia].
  - cbn [analyze_loop]. unfold variable_tokens, other_tokens.
    cbn [filter fst]. destruct (String.eqb ty "variable") eqn:Ety; cbn [negb map snd].
    + cbn [bind_lines].
      destruct (set_raw_variable tok vars) as [vars1|e]; [|discriminate].
      cbn [bind]. intro E. apply (IH _ _ _ _ E).
    + destruct (syntactic_analysis set_raw_command vars ty tok) as [[entry|e]|];
        try discriminate.
      intro E. destruct (IH _ _ _ _ E) as [Hb Hl]. split; [exact Hb|].
      rewrite Hl, length_app. unfold other_tokens. cbn [List.length]. lia.
Qed.

(** X8.  When [analyze] succeeds, the variable table it leaves is the one
    the variable tokens bind in their order, and the result list has one
    entry for each token of another kind. *)
Theorem analyze_result (data : list string) (vars' : variables)
    (entries : list command_dict) :
  analyze set_raw_command data = Some (Ok (vars', entries)) ->
  exists token_types tokens,
    lexical_analysis data = Ok (token_types, tokens) /\
    bind_lines (variable_tokens (combine token_types tokens)) [] = Ok vars' /\
    List.length entries = other_tokens (combine token_types tokens).
Proof.
  unfold analyze.
  destruct (lexical_analysis data) as [[token_types tokens]|e]; [|discriminate].
  intro E. exists token_types, tokens. split; [reflexivity|].
  apply (analyze_loop_result _ _ _ _ _ E).
Qed.

End AnalyzeFacts.

Lemma analyze_result_witness :
  exists token_types tokens,
    lexical_analysis ["x = 1"; "событие связь"; "потеряна"; "y = x"]
      = Ok (token_types, tokens) /\
    bind_lines (variable_tokens (combine token_types tokens)) []
      = Ok [("x", VStr "1"); ("y", VStr "x")].
Proof.
  destruct (analyze_result command_without_parameters
              ["x = 1"; "событие связь"; "потеряна"; "y = x"]
              [("x", VStr "1"); ("y", VStr "x")]
              [[("type", CText "condition");
                ("value", CText "событие связь потеряна")]]
              eq_refl)
    as [token_types [tokens [E [B _]]]].
  exists token_types, tokens. split; assumption.
Defined.

Local Close Scope string_scope.

End LexerFacts.

(** ** More on the trajectory generators *)

Module GeneratorFacts.

Import Trajectories TrajectoryFacts.

Lemma last_append {A : Type} (l l' : list A) (d : A) :
  l' <> [] -> last (l ++ l') d = last l' d.
Proof.
  intro H. induction l as [|a l IH]; [reflexivity|].
  cbn [app last]. destruct (l ++ l')%list eqn:E; [|exact IH].
  apply app_eq_nil in E. destruct E as [_ E]. contradiction.
Qed.

Lemma last_of_map {A B : Type} (f : A -> B) (l : list A) (d : B) (d' : A) :
  l <> [] -> last (map f l) d = f (last l d').
Proof.
  induction l as [|a l IH]; intro H; [congruence|].
  destruct l as [|b l]; [reflexivity|].
  change (last (map f (b :: l)) d = f (last (b :: l) d')).
  apply IH. discriminate.
Qed.

Section Star.

Variables cos sin : Q -> Q.
Variables center_lon center_lat radius_m angle_offset line_length : Q.

Lemma star_ray_ok angle_step cos_lat i :
  ~ cos_lat == 0 ->
  exists ps,
    star_ray cos sin center_lon center_lat radius_m angle_step cos_lat
      angle_offset line_length i = Ok ps /\
    List.length ps = (if Qlt_bool 0 radius_m then 3 else 2)%nat /\
    last ps (0, 0) = (center_lon, center_lat).
Proof.
  intro H.
  assert (Hd : ~ 111320 * cos_lat == 0).
  { intro E. apply H. apply (Qmult_integral 111320 cos_lat) in E.
    destruct E as [E|E]; [discriminate|exact E]. }
  unfold star_ray. rewrite py_div_ok by exact Hd. cbn [bind].
  destruct (Qlt_bool 0 radius_m).
  - rewrite py_div_ok by exact Hd. cbn [bind]. eexists. repeat split.
  - eexists. repeat split.
Qed.

(** X13.  [generate_star] raises ValueError for fewer than 2 lines.  With
    at least 2 lines, and the cosine of the centre latitude not zero, it
    returns 3 * int(num_lines) waypoints when the inner radius is positive
    and 2 * int(num_lines) otherwise, and the last waypoint is the centre
    rounded to 6 decimals. *)
Theorem star_waypoints (num_lines : Q) :
  (num_lines < 2 ->
   generate_star cos sin center_lon center_lat radius_m num_lines angle_offset
     line_length = Raise ValueError) /\
  (2 <= num_lines -> ~ cos (center_lat * math_pi / 180) == 0 ->
   exists points,
     generate_star cos sin center_lon center_lat radius_m num_lines angle_offset
       line_length = Ok points /\
     Z.of_nat (List.length points)
       = ((if Qlt_bool 0 radius_m then 3 else 2) * Qfloor num_lines)%Z /\
     last points (0, 0) = (round6 center_lon, round6 center_lat)).
Proof.
  split.
  - intro H. unfold generate_star. apply Qlt_bool_iff in H. rewrite H. reflexivity.
  - intros H Hc. unfold generate_star.
    assert (E : Qlt_bool num_lines 2 = false).
    { destruct (Qlt_bool num_lines 2) eqn:E; [|reflexivity].
      apply Qlt_bool_iff in E. exfalso. apply (Qlt_not_le _ _ E). exact H. }
    rewrite E.
    assert (Hn : (2 <= Qfloor num_lines)%Z).
    { change 2%Z with (Qfloor 2). apply Qfloor_resp_le. exact H. }
    rewrite py_int_nonneg
      by (eapply Qle_trans; [|exact H]; discriminate).
    set (k := (if Qlt_bool 0 radius_m then 3 else 2)%nat).
    assert (Hloop : forall range : list nat, range <> [] ->
      exists ps,
        for_extend
          (star_ray cos sin center_lon center_lat radius_m
             (2 * math_pi / num_lines) (cos (center_lat * math_pi / 180))
             angle_offset line_length) range = Ok ps /\
        List.length ps = (k * List.length range)%nat /\
        last ps (0, 0) = (center_lon, center_lat)).
    { induction range as [|i range IH]; intro Hne; [congruence|].
      destruct (star_ray_ok (2 * math_pi / num_lines)
                  (cos (center_lat * math_pi / 180)) i Hc) as [ps [E1 [L1 T1]]].
      cbn [for_extend]. rewrite E1. cbn [bind].
      destruct range as [|j range].
      - cbn [for_extend bind]. rewrite app_nil_r. exists ps.
        split; [reflexivity|]. split; [cbn [List.length]; fold k in L1; lia|exact T1].
      - destruct IH as [qs [E2 [L2 T2]]]; [discriminate|].
        rewrite E2. cbn [bind]. exists (ps ++ qs)%list.
        split; [reflexivity|]. split.
        + rewrite length_app, L1, L2. fold k. cbn [List.length]. lia.
        + assert (Hq : qs <> []).
          { intro Eq. subst qs. cbn [List.length] in L2.
            subst k. destruct (Qlt_bool 0 radius_m); simpl in L2; lia. }
          rewrite last_append by exact Hq. exact T2. }
    destruct (Hloop (seq 0 (Z.to_nat (Qfloor num_lines)))) as [ps [E1 [L1 T1]]].
    { destruct (Z.to_nat (Qfloor num_lines)) eqn:En; [lia|discriminate]. }
    rewrite E1. cbn [bind]. eexists. split; [reflexivity|]. split.
    + rewrite length_map, L1, length_seq. subst k.
      destruct (Qlt_bool 0 radius_m); lia.
    + assert (Hne : ps <> []).
      { intro Eq. subst ps. cbn [List.length] in L1. rewrite length_seq in L1.
        subst k. destruct (Qlt_bool 0 radius_m); lia. }
      rewrite (last_of_map round_point ps (0, 0) (0, 0)) by exact Hne.
      rewrite T1. reflexivity.
Qed.

End Star.

Lemma star_waypoints_witness :
  exists points,
    generate_star cos_series sin_series 10 20 3 5 0 7 = Ok points /\
    Z.of_nat (List.length points) = 15%Z.
Proof.
  destruct (proj2 (star_waypoints cos_series sin_series 10 20 3 0 7 5))
    as [points [E [L _]]]; [discriminate|vm_compute; discriminate|].
  exists points. split; [exact E|exact L].
Defined.

Local Open Scope string_scope.

Lemma append_cons_r (cur : string) (c : ascii) (s : string) :
  (cur ++ String c "") ++ s = cur ++ String c s.
Proof. induction cur as [|a cur IH]; simpl; [reflexivity|]. rewrite IH. reflexivity. Qed.

(** A text that does not hold the separator is not cut. *)
Lemma split_from_absent (sep : string) : forall s cur,
  contains sep s = false -> split_from sep 0 cur s = [cur ++ s].
Proof.
  induction s as [|c s IH]; intros cur H.
  - cbn [split_from]. rewrite append_empty_r. reflexivity.
  - cbn [split_from]. cbn [contains] in H.
    destruct (String.prefix sep (String c s)); [discriminate|].
    rewrite IH by exact H. rewrite append_cons_r. reflexivity.
Qed.

Lemma split_absent (sep s : string) :
  contains sep s = false -> split sep s = [s].
Proof. intro H. unfold split. rewrite split_from_absent by exact H. reflexivity. Qed.

(** Whenever a segment is returned it has an even number of waypoints, at
    least four. *)
Lemma meander_segment_even cos slon slat width_m length_m spacing_m direction
    (points : list point) :
  _generate_meander_segment cos slon slat width_m length_m spacing_m direction
    = Ok points ->
  exists k, (2 <= k)%nat /\ List.length points = (2 * k)%nat.
Proof.
  unfold _generate_meander_segment, meander_num_passes, py_div.
  destruct (String.eqb direction vertical);
    destruct (Qeq_bool spacing_m 0); cbn [bind]; try discriminate;
    intro H; injection H as <-;
    rewrite flat_map_pairs_length by (intro; apply meander_pass_length);
    rewrite length_seq; eexists; (split; [|reflexivity]); lia.
Qed.

Section DispatchEdges.

Variables cos sin : Q -> Q.
Variable fuel : nat.
Variable self : Figure.

(** X14.  A figure whose command does not hold its own name, or whose
    parameters hold no survey pattern, gets the empty waypoint list and no
    exception: the pattern defaults to the empty text, which selects no
    generator. *)
Theorem coordinates_without_pattern :
  (dict_get (key self) (command self) = None ->
   coordinates cos sin fuel self = Some (Ok [])) /\
  (forall params,
     dict_get (key self) (command self) = Some (CParams params) ->
     dict_get "траектория" params = None ->
     coordinates cos sin fuel self = Some (Ok [])).
Proof.
  split.
  - intro H. unfold coordinates, _get_trajectory_type. rewrite H. reflexivity.
  - intros params H Ht. unfold coordinates, _get_trajectory_type.
    rewrite H. unfold dict_get_default. rewrite Ht. reflexivity.
Qed.

Variable params : dict pyval.
Variable text : string.
Hypothesis Hcommand : dict_get (key self) (command self) = Some (CParams params).
Hypothesis Htext : dict_get "траектория" params = Some (VStr text).
Hypothesis Hmeander : contains "меандр" (lower (before_comma text)) = true.

Lemma meander_dispatch :
  coordinates cos sin fuel self
  = meander_call
      (if String.eqb (key self) "обследование_точки"
       then generate_centered_meander cos sin else generate_meander cos sin)
      self params.
Proof.
  unfold coordinates.
  rewrite (trajectory_type_refines_spec self params text Hcommand Htext).
  unfold spec_trajectory_type, first_keyword, pattern_keywords.
  cbn [find fst snd]. rewrite Hmeander. cbn [snd].
  change (String.eqb "меандр" "меандр") with true. cbn [andb].
  destruct (String.eqb (key self) "обследование_точки");
    rewrite Hcommand; reflexivity.
Qed.

(** X15.  A meander pattern written without the direction (no ", " in the
    text) makes [coordinates] raise IndexError, although the three meander
    parameters are present: the direction is read as the second piece of
    the text. *)
Theorem meander_needs_direction (width length spacing : pyval) :
  dict_get "длина" params = Some width ->
  dict_get "ширина" params = Some length ->
  dict_get "межгалс" params = Some spacing ->
  contains ", " text = false ->
  coordinates cos sin fuel self = Some (Raise IndexError).
Proof.
  intros Hw Hl Hs Hsep. rewrite meander_dispatch.
  unfold meander_call. rewrite Hw, Hl, Hs.
  unfold dict_get_default. rewrite Htext.
  unfold direction_of. rewrite split_absent by exact Hsep. reflexivity.
Qed.

(** X16.  [Figure.coordinates] on a meander pattern is the call of the
    meander generator, the centred one for a point survey, with the
    parameter длина as [width_m] and ширина as [length_m] (so the passes of
    a vertical meander are counted along длина), the spacing межгалс, the
    direction read after the comma and the angle угол or 0.  Whenever it
    returns, the figure survey has an even number of waypoints, at least
    four, and the point survey an odd number, at least three. *)
Theorem coordinates_meander_call (direction : string)
    (width length spacing : pyval) (L W S a : Q) :
  dict_get "длина" params = Some width -> num width = Some L ->
  dict_get "ширина" params = Some length -> num length = Some W ->
  dict_get "межгалс" params = Some spacing -> num spacing = Some S ->
  num (dict_get_default "угол" (VInt 0) params) = Some a ->
  direction_of text = Ok direction ->
  coordinates cos sin fuel self
  = Some (if String.eqb (key self) "обследование_точки"
          then generate_centered_meander cos sin (lon self) (lat self) L W S
                 direction a
          else generate_meander cos sin (lon self) (lat self) L W S
                 direction a) /\
  forall points, coordinates cos sin fuel self = Some (Ok points) ->
    if String.eqb (key self) "обследование_точки"
    then (3 <= List.length points)%nat /\ Nat.odd (List.length points) = true
    else (4 <= List.length points)%nat /\ Nat.even (List.length points) = true.
Proof.
  intros Hw Nw Hl Nl Hs Ns Ha Hd.
  assert (E : coordinates cos sin fuel self
              = Some (if String.eqb (key self) "обследование_точки"
                      then generate_centered_meander cos sin (lon self)
                             (lat self) L W S direction a
                      else generate_meander cos sin (lon self) (lat self)
                             L W S direction a)).
  { rewrite meander_dispatch.
    unfold meander_call. rewrite Hw, Hl, Hs.
    unfold dict_get_default at 1. rewrite Htext, Hd, Ha, Nw, Nl, Ns.
    destruct (String.eqb (key self) "обследование_точки"); reflexivity. }
  split; [exact E|]. intros points Hp. rewrite E in Hp.
  injection Hp as Hp.
  destruct (String.eqb (key self) "обследование_точки").
  - unfold generate_centered_meander in Hp.
    destruct (add_meters_to_coordinates cos (lat self) (lon self)
                (- (W / 2)) (- (L / 2))) as [lon0 lat0].
    destruct (_generate_meander_segment cos lon0 lat0 L W S direction)
      as [seg|e] eqn:Es; cbn [bind] in Hp; [|discriminate].
    destruct (meander_segment_even cos lon0 lat0 L W S direction seg Es)
      as [k [Hk Hlen]].
    assert (Htl : List.length (tl seg) = (2 * k - 1)%nat).
    { destruct seg; simpl in *; lia. }
    assert (Hout : List.length points = (2 * k - 1)%nat).
    { destruct (Qeq_bool a 0); injection Hp as <-;
        rewrite ?length_map; exact Htl. }
    rewrite Hout. split; [lia|].
    replace (2 * k - 1)%nat with (Datatypes.S (2 * (k - 1))%nat) by lia.
    rewrite Nat.odd_succ, Nat.even_mul. reflexivity.
  - unfold generate_meander in Hp.
    destruct (_generate_meander_segment cos (lon self) (lat self) L W S direction)
      as [seg|e] eqn:Es; cbn [bind] in Hp; [|discriminate].
    destruct (meander_segment_even cos (lon self) (lat self) L W S direction
                seg Es) as [k [Hk Hlen]].
    assert (Hout : List.length points = (2 * k)%nat).
    { destruct (Qeq_bool a 0); injection Hp as <-;
        rewrite ?length_map; exact Hlen. }
    rewrite Hout. split; [lia|]. rewrite Nat.even_mul. reflexivity.
Qed.

End DispatchEdges.

Lemma meander_needs_direction_witness :
  coordinates cos_series sin_series 0
    (mkFigure 30 60 "обследование_фигуры"
       [("обследование_фигуры",
         CParams [("траектория", VStr "меандр"); ("длина", VInt 20);
                  ("ширина", VInt 10); ("межгалс", VInt 5)])])
  = Some (Raise IndexError).
Proof.
  apply (meander_needs_direction cos_series sin_series 0
           (mkFigure 30 60 "обследование_фигуры"
              [("обследование_фигуры",
                CParams [("траектория", VStr "меандр"); ("длина", VInt 20);
                         ("ширина", VInt 10); ("межгалс", VInt 5)])])
           [("траектория", VStr "меандр"); ("длина", VInt 20);
            ("ширина", VInt 10); ("межгалс", VInt 5)]
           "меандр" eq_refl eq_refl eq_refl (VInt 20) (VInt 10) (VInt 5)
           eq_refl eq_refl eq_refl eq_refl).
Defined.

Lemma coordinates_without_pattern_witness :
  coordinates cos_series sin_series 0
    (mkFigure 30 60 "обследование_фигуры"
       [("обследование_фигуры", CParams [("длина", VInt 20)])])
  = Some (Ok []).
Proof.
  apply (proj2 (coordinates_without_pattern cos_series sin_series 0
                  (mkFigure 30 60 "обследование_фигуры"
                     [("обследование_фигуры", CParams [("длина", VInt 20)])]))
           [("длина", VInt 20)] eq_refl eq_refl).
Defined.

Lemma coordinates_meander_call_witness :
  coordinates cos_series sin_series 0
    (mkFigure 30 60 "обследование_точки"
       [("обследование_точки",
         CParams [("траектория", VStr "меандр, вертикально");
                  ("длина", VInt 20); ("ширина", VFloat 10);
                  ("межгалс", VFloat 5)])])
  = Some (generate_centered_meander cos_series sin_series 30 60 20 10 5
            "вертикально" 0).
Proof.
  exact (proj1 (coordinates_meander_call cos_series sin_series 0
           (mkFigure 30 60 "обследование_точки"
              [("обследование_точки",
                CParams [("траектория", VStr "меандр, вертикально");
                         ("длина", VInt 20); ("ширина", VFloat 10);
                         ("межгалс", VFloat 5)])])
           [("траектория", VStr "меандр, вертикально");
            ("длина", VInt 20); ("ширина", VFloat 10); ("межгалс", VFloat 5)]
           "меандр, вертикально" eq_refl eq_refl eq_refl
           "вертикально" (VInt 20) (VFloat 10) (VFloat 5) 20 10 5 0
           eq_refl eq_refl eq_refl eq_refl eq_refl eq_refl
           eq_refl eq_refl)).
Defined.

Local Close Scope string_scope.

End GeneratorFacts.

(** ** The parallel line *)

Module ParallelFacts.

Import Trajectories Parallel.

Local Open Scope string_scope.

Section ParallelLineFacts.

Variables cos sin : Q -> Q.
Variable atan2 : Q -> Q -> Q.
Variable asin : Q -> result Q.

Lemma for_append_length (body : nat -> result point) (range : list nat) out :
  for_append body range = Ok out -> List.length out = List.length range.
Proof.
  revert out. induction range as [|i range IH]; intros out H; cbn [for_append] in H.
  - injection H as <-. reflexivity.
  - destruct (body i) as [p|e]; cbn [bind] in H; [|discriminate].
    destruct (for_append body range) as [ps|e]; cbn [bind] in H; [|discriminate].
    injection H as <-. cbn [List.length]. rewrite (IH ps eq_refl). reflexivity.
Qed.

(** X17.  [generate_parallel_line] raises ValueError for fewer than 2
    points; whenever it returns, it returns as many points as it was
    given; for a position that is neither left nor right it always
    returns, keeps every longitude and moves every latitude by
    distance / 111320 degrees, to the north for top and to the south for
    every other text. *)
Theorem parallel_line_shape (points : list point) (distance_m : Q)
    (position : string) :
  ((List.length points < 2)%nat ->
   generate_parallel_line cos sin atan2 asin points distance_m position
   = Raise ValueError) /\
  (forall out,
     generate_parallel_line cos sin atan2 asin points distance_m position = Ok out ->
     List.length out = List.length points) /\
  ((2 <= List.length points)%nat -> position <> "left" -> position <> "right" ->
   exists out,
     generate_parallel_line cos sin atan2 asin points distance_m position = Ok out /\
     forall i p, nth_error points i = Some p ->
       nth_error out i
       = Some (fst p,
               snd p + (if String.eqb position "top" then 1 else - (1))
                       * distance_m / 111320)).
Proof.
  unfold generate_parallel_line. split; [|split].
  - intro H. apply Nat.ltb_lt in H. rewrite H. reflexivity.
  - intros out H. destruct (List.length points <? 2)%nat; [discriminate|].
    destruct (String.eqb position "left" || String.eqb position "right").
    + apply for_append_length in H. rewrite length_seq in H. exact H.
    + injection H as <-. apply length_map.
  - intros H Hl Hr. apply Nat.ltb_ge in H. rewrite H.
    apply String.eqb_neq in Hl, Hr. rewrite Hl, Hr. cbn [orb].
    eexists. split; [reflexivity|].
    intros i p Hp.
    change 111320 with METERS_PER_DEGREE.
    exact (map_nth_error
             (fun p : point =>
                (fst p,
                 snd p + (if String.eqb position "top" then 1 else - (1))
                         * distance_m / METERS_PER_DEGREE)) i points Hp).
Qed.

End ParallelLineFacts.

Lemma parallel_line_shape_witness :
  exists out,
    generate_parallel_line cos_series sin_series (fun _ _ => 0) (fun x => Ok x)
      [(30, 60); (31, 61)] 111320 "north" = Ok out /\
    nth_error out 1 = Some (31, 61 + - (1) * 111320 / 111320).
Proof.
  destruct (proj2 (proj2 (parallel_line_shape cos_series sin_series
                     (fun _ _ => 0) (fun x => Ok x) [(30, 60); (31, 61)]
                     111320 "north")))
    as [out [E H]]; [simpl; lia|discriminate|discriminate|].
  exists out. split; [exact E|]. apply (H 1%nat (31, 61)). reflexivity.
Defined.

Local Close Scope string_scope.

End ParallelFacts.

(** ** More on the parameter validator *)

Module ValidationFacts.

Import Processing ProcessingFacts Examples.

Local Open Scope string_scope.

Section Presence.

Variable _prompt_for_parameter : string -> string -> pyval.

Lemma prompt_missing_fixed cmd (params : dict pyval) p :
  dict_mem p params = true ->
  prompt_missing _prompt_for_parameter cmd params p = params.
Proof. intro H. unfold prompt_missing. rewrite H. reflexivity. Qed.

Lemma prompt_missing_mem cmd (params : dict pyval) p :
  dict_mem p (prompt_missing _prompt_for_parameter cmd params p) = true.
Proof.
  unfold prompt_missing. destruct (dict_mem p params) eqn:E; [exact E|].
  apply dict_mem_true. eexists. apply dict_get_set_same.
Qed.

Lemma prompt_missing_keeps cmd (params : dict pyval) p k :
  dict_mem k params = true ->
  dict_mem k (prompt_missing _prompt_for_parameter cmd params p) = true.
Proof.
  intro H. apply dict_mem_true in H. destruct H as [v H].
  apply dict_mem_true. exists v. apply prompt_missing_present. exact H.
Qed.

Lemma prompt_all_keeps cmd (l : list string) k : forall params : dict pyval,
  dict_mem k params = true ->
  dict_mem k (fold_left (prompt_missing _prompt_for_parameter cmd) l params) = true.
Proof.
  induction l as [|p l IH]; intros params H; simpl; [exact H|].
  apply IH, prompt_missing_keeps, H.
Qed.

Lemma prompt_all_mem cmd (l : list string) p : forall params : dict pyval,
  In p l ->
  dict_mem p (fold_left (prompt_missing _prompt_for_parameter cmd) l params) = true.
Proof.
  induction l as [|q l IH]; intros params H; simpl; [destruct H|].
  destruct H as [H|H].
  - subst q. apply prompt_all_keeps, prompt_missing_mem.
  - apply IH, H.
Qed.

Lemma prompt_all_fixed cmd (l : list string) (params : dict pyval) :
  (forall p, In p l -> dict_mem p params = true) ->
  fold_left (prompt_missing _prompt_for_parameter cmd) l params = params.
Proof.
  induction l as [|q l IH]; intro H; simpl; [reflexivity|].
  rewrite prompt_missing_fixed by (apply H; left; reflexivity).
  apply IH. intros p Hp. apply H. right. exact Hp.
Qed.

End Presence.

Lemma defaults_keeps (optional : dict pyval) k : forall params : dict pyval,
  dict_mem k params = true ->
  dict_mem k (fold_left apply_default optional params) = true.
Proof.
  intros params H. apply dict_mem_true in H. destruct H as [v H].
  apply dict_mem_true. exists v. apply defaults_present. exact H.
Qed.

Lemma defaults_mem (optional : dict pyval) p : forall params : dict pyval,
  In p (map fst optional) ->
  dict_mem p (fold_left apply_default optional params) = true.
Proof.
  induction optional as [|[q d] l IH]; intros params H; simpl; [destruct H|].
  destruct H as [H|H].
  - cbn [fst] in H. subst q. apply defaults_keeps.
    unfold apply_default. cbn [fst snd].
    destruct (dict_mem p params) eqn:E; [exact E|].
    apply dict_mem_true. eexists. apply dict_get_set_same.
  - apply IH, H.
Qed.

Lemma defaults_fixed (optional : dict pyval) (params : dict pyval) :
  (forall p, In p (map fst optional) -> dict_mem p params = true) ->
  fold_left apply_default optional params = params.
Proof.
  induction optional as [|[q d] l IH]; intro H; simpl; [reflexivity|].
  unfold apply_default at 2. cbn [fst snd].
  rewrite (H q) by (left; reflexivity).
  apply IH. intros p Hp. apply H. right. exact Hp.
Qed.

Lemma defaults_nodup (optional : dict pyval) : forall params : dict pyval,
  NoDup (map fst params) ->
  NoDup (map fst (fold_left apply_default optional params)).
Proof.
  induction optional as [|[q d] l IH]; intros params H; simpl; [exact H|].
  apply IH. unfold apply_default. cbn [fst snd].
  destruct (dict_mem q params); [exact H|apply dict_set_nodup; exact H].
Qed.

Section Conversion.

Variable float_of_string : string -> option Q.
Variable int_of_string : string -> option Z.

Lemma convert_value_typed t v v' :
  convert_value float_of_string int_of_string t v = Ok v' ->
  v' = VNone \/
  match t with
  | TFloat => exists q, v' = VFloat q
  | TInt => exists z, v' = VInt z
  end.
Proof.
  unfold convert_value.
  destruct v, t; cbn;
    try (intro E; injection E as <-; (left; reflexivity) || (right; eexists; reflexivity));
    try discriminate;
    try (destruct (float_of_string s); intro E; [injection E as <-; right; eexists; reflexivity|discriminate]);
    try (destruct (int_of_string s); intro E; [injection E as <-; right; eexists; reflexivity|discriminate]).
Qed.

Lemma convert_step (params : dict pyval) p v out :
  _convert_parameter_types float_of_string int_of_string ((p, v) :: params) = Ok out ->
  exists v' out',
    out = (p, v') :: out' /\
    match dict_get p PARAM_TYPES with
    | Some t => convert_value float_of_string int_of_string t v = Ok v'
    | None => v' = v
    end /\
    _convert_parameter_types float_of_string int_of_string params = Ok out'.
Proof.
  cbn [_convert_parameter_types].
  destruct (dict_get p PARAM_TYPES) as [t|].
  - destruct (convert_value float_of_string int_of_string t v) as [v'|e];
      cbn [bind]; [|discriminate].
    destruct (_convert_parameter_types float_of_string int_of_string params)
      as [out'|e]; cbn [bind]; [|discriminate].
    intro E. injection E as <-. exists v', out'. repeat split.
  - cbn [bind].
    destruct (_convert_parameter_types float_of_string int_of_string params)
      as [out'|e]; cbn [bind]; [|discriminate].
    intro E. injection E as <-. exists v, out'. repeat split.
Qed.

Lemma convert_keys (params : dict pyval) : forall out : dict pyval,
  _convert_parameter_types float_of_string int_of_string params = Ok out ->
  map fst out = map fst params.
Proof.
  induction params as [|[p v] l IH]; intros out H.
  - injection H as <-. reflexivity.
  - apply convert_step in H. destruct H as [v' [out' [-> [_ H]]]].
    cbn [map fst]. rewrite (IH out' H). reflexivity.
Qed.

Lemma convert_get (params : dict pyval) : forall (out : dict pyval) k v,
  _convert_parameter_types float_of_string int_of_string params = Ok out ->
  dict_get k params = Some v ->
  exists v', dict_get k out = Some v' /\
    match dict_get k PARAM_TYPES with
    | Some t => convert_value float_of_string int_of_string t v = Ok v'
    | None => v' = v
    end.
Proof.
  induction params as [|[p v0] l IH]; intros out k v H Hk; [discriminate|].
  apply convert_step in H. destruct H as [v' [out' [-> [Hv H]]]].
  cbn [dict_get] in *. destruct (String.eqb k p) eqn:E.
  - apply String.eqb_eq in E. subst p. injection Hk as ->.
    exists v'. split; [reflexivity|exact Hv].
  - apply (IH out' k v H Hk).
Qed.

Lemma convert_back (params : dict pyval) : forall (out : dict pyval) k v',
  _convert_parameter_types float_of_string int_of_string params = Ok out ->
  dict_get k out = Some v' ->
  exists v, dict_get k params = Some v /\
    match dict_get k PARAM_TYPES with
    | Some t => convert_value float_of_string int_of_string t v = Ok v'
    | None => v' = v
    end.
Proof.
  intros out k v' H Hk.
  destruct (dict_get k params) as [v|] eqn:E.
  - destruct (convert_get params out k v H E) as [v1 [E1 Hv]].
    rewrite Hk in E1. injection E1 as <-. exists v. split; [reflexivity|exact Hv].
  - rewrite (convert_absent float_of_string int_of_string params out k H E) in Hk.
    discriminate.
Qed.

Lemma convert_mem (params out : dict pyval) k :
  _convert_parameter_types float_of_string int_of_string params = Ok out ->
  dict_mem k params = true -> dict_mem k out = true.
Proof.
  intros H Hk. apply dict_mem_true in Hk. destruct Hk as [v Hk].
  destruct (convert_get params out k v H Hk) as [v' [E _]].
  apply dict_mem_true. exists v'. exact E.
Qed.

End Conversion.

Lemma convert_value_fixed fs is_ fs' is' t v v' :
  convert_value fs is_ t v = Ok v' -> convert_value fs' is' t v' = Ok v'.
Proof.
  intro H. destruct (convert_value_typed fs is_ t v v' H) as [->|Ht];
    [reflexivity|].
  destruct t; destruct Ht as [x ->]; reflexivity.
Qed.

Lemma convert_idempotent fs is_ fs' is' (params : dict pyval) :
  forall out : dict pyval,
  _convert_parameter_types fs is_ params = Ok out ->
  _convert_parameter_types fs' is' out = Ok out.
Proof.
  induction params as [|[p v] l IH]; intros out H.
  - injection H as <-. reflexivity.
  - apply convert_step in H. destruct H as [v' [out' [-> [Hv H]]]].
    cbn [_convert_parameter_types]. rewrite (IH out' H).
    destruct (dict_get p PARAM_TYPES) as [t|].
    + rewrite (convert_value_fixed fs is_ fs' is' t v v' Hv). reflexivity.
    + reflexivity.
Qed.

Section Stages.

Variable float_of_string : string -> option Q.
Variable int_of_string : string -> option Z.
Variable _prompt_for_parameter : string -> string -> pyval.
Variable self : ParametersValidator.

Lemma validate_stages cmd (params out : dict pyval) :
  validate_params float_of_string int_of_string _prompt_for_parameter self
    cmd params = Ok out ->
  exists params1 params2 : dict pyval,
    (if String.eqb cmd "обследование_точки"
     then _process_point_survey _prompt_for_parameter self params
     else Ok params) = Ok params1 /\
    _process_height_depth float_of_string _prompt_for_parameter self cmd params1
      = Ok params2 /\
    _convert_parameter_types float_of_string int_of_string
      (_apply_optional_parameters self cmd
         (_check_required_parameters _prompt_for_parameter self cmd params2))
      = Ok out.
Proof.
  unfold validate_params.
  destruct (if String.eqb cmd "обследование_точки"
            then _process_point_survey _prompt_for_parameter self params
            else Ok params) as [params1|e] eqn:E1; cbn [bind]; [|discriminate].
  destruct (_process_height_depth float_of_string _prompt_for_parameter self
              cmd params1) as [params2|e] eqn:E2; cbn [bind]; [|discriminate].
  intro H. exists params1, params2.
  split; [reflexivity|]. split; [exact E2|exact H].
Qed.

(** The bootstrap of a point survey keeps what the command gave. *)
Lemma dependent_fold_present (trajectory : string) k v
    (dependent : dict (list string)) : forall params : dict pyval,
  dict_get k params = Some v ->
  dict_get k
    (fold_left
       (fun params (item : string * list string) =>
          if contains (fst item) trajectory
          then fold_left (prompt_missing _prompt_for_parameter "обследование_точки")
                 (snd item) params
          else params)
       dependent params) = Some v.
Proof.
  induction dependent as [|[traj deps] l IH]; intros params H; simpl; [exact H|].
  apply IH. destruct (contains traj trajectory); [|exact H].
  apply prompt_all_present. exact H.
Qed.

Lemma dependent_fold_mem (trajectory : string) traj deps p
    (dependent : dict (list string)) : forall params : dict pyval,
  In (traj, deps) dependent -> contains traj trajectory = true -> In p deps ->
  dict_mem p
    (fold_left
       (fun params (item : string * list string) =>
          if contains (fst item) trajectory
          then fold_left (prompt_missing _prompt_for_parameter "обследование_точки")
                 (snd item) params
          else params)
       dependent params) = true.
Proof.
  induction dependent as [|[traj0 deps0] l IH]; intros params Hin Hc Hp;
    [destruct Hin|].
  destruct Hin as [Hin|Hin].
  - injection Hin as -> ->. cbn [fold_left fst snd]. rewrite Hc.
    pose proof (prompt_all_mem _prompt_for_parameter "обследование_точки"
                  deps p params Hp) as Hm.
    apply dict_mem_true in Hm. destruct Hm as [v Hm].
    apply dict_mem_true. exists v. apply dependent_fold_present. exact Hm.
  - cbn [fold_left]. apply IH; assumption.
Qed.

Lemma point_survey_present (params params1 : dict pyval) k v :
  _process_point_survey _prompt_for_parameter self params = Ok params1 ->
  dict_get k params = Some v -> dict_get k params1 = Some v.
Proof.
  unfold _process_point_survey. intros H Hk.
  pose proof (prompt_missing_present _prompt_for_parameter "обследование_точки"
                params "траектория" k v Hk) as H0.
  destruct (dict_get "обследование_точки" (trajectory_dependent self))
    as [dependent|]; [|injection H as <-; exact H0].
  destruct (dict_get "траектория" _) as [[| | |text|]|]; try discriminate.
  injection H as <-. apply dependent_fold_present. exact H0.
Qed.

Lemma height_depth_present cmd (params1 params2 : dict pyval) k v :
  _process_height_depth float_of_string _prompt_for_parameter self cmd params1
    = Ok params2 ->
  k <> "глубина" ->
  dict_get k params1 = Some v -> dict_get k params2 = Some v.
Proof.
  unfold _process_height_depth, dict_mem, dict_item. intros H Hk Hv.
  destruct (dict_get "высота" params1) as [h|] eqn:Eh;
    destruct (dict_get "глубина" params1) as [d|] eqn:Ed;
    cbn [andb negb bind] in H.
  - injection H as <-. rewrite dict_get_pop_other by exact Hk. exact Hv.
  - injection H as <-. exact Hv.
  - destruct (py_float float_of_string d) as [x|e]; cbn [bind] in H; [|discriminate].
    injection H as <-. rewrite dict_get_pop_other by exact Hk.
    rewrite dict_get_set_other; [exact Hv|]. intro E. subst k. congruence.
  - assert (Hh : k <> "высота") by (intro E; subst k; congruence).
    destruct (dict_get cmd (required_keys self)) as [required|].
    + destruct (existsb (String.eqb "высота") required); injection H as <-;
        [rewrite dict_get_set_other by exact Hh|]; exact Hv.
    + injection H as <-. exact Hv.
Qed.

Lemma height_depth_nodup cmd (params1 params2 : dict pyval) :
  _process_height_depth float_of_string _prompt_for_parameter self cmd params1
    = Ok params2 ->
  NoDup (map fst params1) -> NoDup (map fst params2).
Proof.
  unfold _process_height_depth, dict_item. intros H Hnd.
  destruct (dict_mem "высота" params1); destruct (dict_mem "глубина" params1);
    cbn [andb negb] in H.
  - injection H as <-. apply dict_pop_nodup. exact Hnd.
  - injection H as <-. exact Hnd.
  - destruct (dict_get "глубина" params1) as [d|]; cbn [bind] in H; [|discriminate].
    destruct (py_float float_of_string d) as [x|e]; cbn [bind] in H; [|discriminate].
    injection H as <-. apply dict_pop_nodup, dict_set_nodup. exact Hnd.
  - destruct (dict_get cmd (required_keys self)) as [required|].
    + destruct (existsb (String.eqb "высота") required); injection H as <-;
        [apply dict_set_nodup|]; exact Hnd.
    + injection H as <-. exact Hnd.
Qed.

Lemma rules_present cmd (params2 : dict pyval) k v :
  dict_get k params2 = Some v ->
  dict_get k (_apply_optional_parameters self cmd
                (_check_required_parameters _prompt_for_parameter self cmd params2))
  = Some v.
Proof.
  intro H. unfold _apply_optional_parameters, _check_required_parameters.
  destruct (dict_get cmd (optional_keys self)) as [optional|];
    [apply (defaults_present optional)|];
    (destruct (dict_get cmd (required_keys self)) as [required|];
      [apply prompt_all_present|]; exact H).
Qed.

Lemma rules_nodup cmd (params2 : dict pyval) :
  NoDup (map fst params2) ->
  NoDup (map fst (_apply_optional_parameters self cmd
                    (_check_required_parameters _prompt_for_parameter self cmd
                       params2))).
Proof.
  intro H. unfold _apply_optional_parameters, _check_required_parameters.
  destruct (dict_get cmd (optional_keys self)) as [optional|];
    [apply defaults_nodup|];
    (destruct (dict_get cmd (required_keys self)) as [required|];
      [apply prompt_all_nodup|]; exact H).
Qed.

(** X18.  A command the validator accepts holds every parameter its
    Required rule names and every parameter its Optional rule names. *)
Theorem validated_names_present cmd (params out : dict pyval) :
  validate_params float_of_string int_of_string _prompt_for_parameter self
    cmd params = Ok out ->
  (forall required p,
     dict_get cmd (required_keys self) = Some required -> In p required ->
     dict_mem p out = true) /\
  (forall optional p,
     dict_get cmd (optional_keys self) = Some optional ->
     In p (map fst optional) ->
     dict_mem p out = true).
Proof.
  intro H. apply validate_stages in H.
  destruct H as [params1 [params2 [_ [_ H]]]].
  split.
  - intros required p Er Hp.
    apply (convert_mem float_of_string int_of_string _ out p H).
    unfold _apply_optional_parameters, _check_required_parameters. rewrite Er.
    destruct (dict_get cmd (optional_keys self)) as [optional|];
      [apply defaults_keeps|]; apply prompt_all_mem; exact Hp.
  - intros optional p Eo Hp.
    apply (convert_mem float_of_string int_of_string _ out p H).
    unfold _apply_optional_parameters. rewrite Eo.
    apply defaults_mem. exact Hp.
Qed.

(** X19.  In a command the validator accepts, every parameter with a
    declared type is [None] or a value of that type: a float for the eight
    float parameters, an int for the three int parameters. *)
Theorem validated_types cmd (params out : dict pyval) :
  validate_params float_of_string int_of_string _prompt_for_parameter self
    cmd params = Ok out ->
  forall p v, dict_get p out = Some v ->
    match dict_get p PARAM_TYPES with
    | Some TFloat => v = VNone \/ exists q, v = VFloat q
    | Some TInt => v = VNone \/ exists z, v = VInt z
    | None => True
    end.
Proof.
  intro H. apply validate_stages in H.
  destruct H as [params1 [params2 [_ [_ H]]]].
  intros p v Hv.
  destruct (convert_back float_of_string int_of_string _ out p v H Hv)
    as [v0 [_ Ht]].
  destruct (dict_get p PARAM_TYPES) as [t|]; [|exact I].
  apply convert_value_typed in Ht. destruct t; exact Ht.
Qed.

(** X20.  Validation drops no parameter but the depth and lets no prompt
    or default replace a value the command gave: a given parameter is in
    the output with its own value, coerced to the declared type when it has
    one.  It keeps the parameter names unique. *)
Theorem validated_parameters_kept cmd (params out : dict pyval) :
  validate_params float_of_string int_of_string _prompt_for_parameter self
    cmd params = Ok out ->
  (forall p v, p <> "глубина" -> dict_get p params = Some v ->
     exists v', dict_get p out = Some v' /\
       match dict_get p PARAM_TYPES with
       | Some t => convert_value float_of_string int_of_string t v = Ok v'
       | None => v' = v
       end) /\
  (NoDup (map fst params) -> NoDup (map fst out)).
Proof.
  intro H. apply validate_stages in H.
  destruct H as [params1 [params2 [H1 [H2 H]]]].
  split.
  - intros p v Hp Hv.
    apply (convert_get float_of_string int_of_string _ out p v H).
    apply rules_present.
    apply (height_depth_present cmd params1 params2 p v H2 Hp).
    destruct (String.eqb cmd "обследование_точки").
    + apply (point_survey_present params params1 p v H1 Hv).
    + injection H1 as <-. exact Hv.
  - intro Hnd.
    rewrite (convert_keys float_of_string int_of_string _ out H).
    apply rules_nodup. apply (height_depth_nodup cmd params1 params2 H2).
    destruct (String.eqb cmd "обследование_точки").
    + apply (point_survey_nodup _prompt_for_parameter self params params1 Hnd H1).
    + injection H1 as <-. exact Hnd.
Qed.

End Stages.

Section Idempotence.

Variable float_of_string : string -> option Q.
Variable int_of_string : string -> option Z.
Variable _prompt_for_parameter : string -> string -> pyval.
Variable self : ParametersValidator.

Lemma dependent_fold_fixed prompt (trajectory : string)
    (dependent : dict (list string)) (params : dict pyval) :
  (forall traj deps p, In (traj, deps) dependent ->
     contains traj trajectory = true -> In p deps -> dict_mem p params = true) ->
  fold_left
    (fun params (item : string * list string) =>
       if contains (fst item) trajectory
       then fold_left (prompt_missing prompt "обследование_точки")
              (snd item) params
       else params)
    dependent params = params.
Proof.
  induction dependent as [|[traj deps] l IH]; intro H; [reflexivity|].
  cbn [fold_left fst snd].
  assert (E : (if contains traj trajectory
               then fold_left (prompt_missing prompt "обследование_точки") deps params
               else params) = params).
  { destruct (contains traj trajectory) eqn:Ec; [|reflexivity].
    apply prompt_all_fixed. intros p Hp.
    apply (H traj deps p (or_introl eq_refl) Ec Hp). }
  rewrite E. apply IH. intros traj0 deps0 p Hin. apply (H traj0 deps0 p).
  right. exact Hin.
Qed.

(** What the bootstrap of a point survey leaves. *)
Lemma point_survey_settled (params params1 : dict pyval) :
  _process_point_survey _prompt_for_parameter self params = Ok params1 ->
  dict_mem "траектория" params1 = true /\
  forall dependent,
    dict_get "обследование_точки" (trajectory_dependent self) = Some dependent ->
    exists text,
      dict_get "траектория" params1 = Some (VStr text) /\
      forall traj deps p, In (traj, deps) dependent ->
        contains traj (lower text) = true -> In p deps ->
        dict_mem p params1 = true.
Proof.
  unfold _process_point_survey.
  pose proof (prompt_missing_mem _prompt_for_parameter "обследование_точки"
                params "траектория") as H0.
  set (params0 := prompt_missing _prompt_for_parameter "обследование_точки"
                    params "траектория") in *.
  destruct (dict_get "обследование_точки" (trajectory_dependent self))
    as [dependent|].
  - destruct (dict_get "траектория" params0) as [[| | |text|]|] eqn:Et;
      try discriminate.
    intro H. injection H as <-. split.
    + apply dict_mem_true. exists (VStr text).
      apply dependent_fold_present. exact Et.
    + intros dependent0 E. injection E as <-. exists text. split.
      * apply dependent_fold_present. exact Et.
      * intros traj deps p Hin Hc Hp.
        apply (dependent_fold_mem _prompt_for_parameter (lower text) traj deps p
                 dependent params0 Hin Hc Hp).
  - intro H. injection H as <-. split; [exact H0|]. intros dependent E.
    discriminate.
Qed.

(** X21.  Under a rule set that does not name the depth, validating the
    output of a validation returns it unchanged; nothing is asked and
    nothing is parsed in the second run, whatever the prompt and the
    conversions of texts would answer. *)
Theorem validation_idempotent cmd (params out : dict pyval) :
  NoDup (map fst params) ->
  (forall required, dict_get cmd (required_keys self) = Some required ->
                   ~ In "глубина" required) ->
  (forall optional, dict_get cmd (optional_keys self) = Some optional ->
                   dict_get "глубина" optional = None) ->
  (forall dependent traj deps,
     dict_get "обследование_точки" (trajectory_dependent self) = Some dependent ->
     In (traj, deps) dependent -> ~ In "глубина" deps) ->
  validate_params float_of_string int_of_string _prompt_for_parameter self
    cmd params = Ok out ->
  forall float_of_string' int_of_string' _prompt_for_parameter',
    validate_params float_of_string' int_of_string' _prompt_for_parameter' self
      cmd out = Ok out.
Proof.
  intros Hnd Hreq Hopt Hdep H fs' is' prompt'.
  apply validate_stages in H. destruct H as [params1 [params2 [H1 [H2 H]]]].
  set (params3 := _check_required_parameters _prompt_for_parameter self cmd params2) in *.
  set (params4 := _apply_optional_parameters self cmd params3) in *.
  assert (Hnd1 : NoDup (map fst params1)).
  { destruct (String.eqb cmd "обследование_точки").
    - eapply point_survey_nodup; eassumption.
    - injection H1 as <-. exact Hnd. }
  (* what enters the rules reaches the output *)
  assert (Hkeep1 : forall k, k <> "глубина" -> dict_mem k params1 = true ->
                             dict_mem k out = true).
  { intros k Hk Hm. apply dict_mem_true in Hm. destruct Hm as [v Hm].
    apply (convert_mem float_of_string int_of_string params4 out k H).
    apply dict_mem_true. exists v. apply rules_present.
    apply (height_depth_present float_of_string _prompt_for_parameter self
             cmd params1 params2 k v H2 Hk Hm). }
  (* no depth in the output *)
  assert (Hdepth : dict_mem "глубина" out = false).
  { apply dict_mem_false.
    apply (convert_absent float_of_string int_of_string params4 out "глубина" H).
    destruct (height_depth_normal float_of_string _prompt_for_parameter self
                cmd params1 params2 Hnd1 H2) as [Hd _].
    assert (H3 : dict_get "глубина" params3 = None).
    { subst params3. unfold _check_required_parameters.
      destruct (dict_get cmd (required_keys self)) as [required|] eqn:Er;
        [|exact Hd].
      apply prompt_all_absent; [exact (Hreq required eq_refl)|exact Hd]. }
    subst params4. unfold _apply_optional_parameters.
    destruct (dict_get cmd (optional_keys self)) as [optional|] eqn:Eo;
      [|exact H3].
    apply (defaults_absent optional "глубина" params3 (Hopt optional eq_refl) H3). }
  (* the names of the rules are in the output *)
  assert (Hrequired : forall required p,
            dict_get cmd (required_keys self) = Some required -> In p required ->
            dict_mem p out = true).
  { intros required p Er Hp.
    apply (convert_mem float_of_string int_of_string params4 out p H).
    subst params4 params3.
    unfold _apply_optional_parameters, _check_required_parameters. rewrite Er.
    destruct (dict_get cmd (optional_keys self)) as [optional|];
      [apply defaults_keeps|]; apply prompt_all_mem; exact Hp. }
  assert (Hoptional : forall optional p,
            dict_get cmd (optional_keys self) = Some optional ->
            In p (map fst optional) -> dict_mem p out = true).
  { intros optional p Eo Hp.
    apply (convert_mem float_of_string int_of_string params4 out p H).
    subst params4. unfold _apply_optional_parameters. rewrite Eo.
    apply defaults_mem. exact Hp. }
  (* the second run *)
  unfold validate_params.
  assert (Hboot : (if String.eqb cmd "обследование_точки"
                   then _process_point_survey prompt' self out
                   else Ok out) = Ok out).
  { destruct (String.eqb cmd "обследование_точки"); [|reflexivity].
    destruct (point_survey_settled params params1 H1) as [Ht Hd].
    unfold _process_point_survey.
    rewrite prompt_missing_fixed by (apply Hkeep1; [discriminate|exact Ht]).
    destruct (dict_get "обследование_точки" (trajectory_dependent self))
      as [dependent|] eqn:Ed; [|reflexivity].
    destruct (Hd dependent eq_refl) as [text [Et Hp]].
    assert (Eo : dict_get "траектория" out = Some (VStr text)).
    { destruct (convert_get float_of_string int_of_string params4 out
                  "траектория" (VStr text) H) as [v' [E Hv]].
      - apply rules_present.
        apply (height_depth_present float_of_string _prompt_for_parameter self
                 cmd params1 params2 _ _ H2); [discriminate|exact Et].
      - change (v' = VStr text) in Hv. subst v'. exact E. }
    rewrite Eo. f_equal. apply dependent_fold_fixed.
    intros traj deps p Hin Hc Hpd. apply Hkeep1.
    - intro E. subst p. apply (Hdep dependent traj deps eq_refl Hin Hpd).
    - apply (Hp traj deps p Hin Hc Hpd). }
  rewrite Hboot. cbn [bind].
  assert (Hhd : _process_height_depth fs' prompt' self cmd out = Ok out).
  { unfold _process_height_depth. rewrite Hdepth.
    rewrite andb_false_r.
    destruct (dict_mem "высота" out) eqn:Eh; cbn [negb]; [reflexivity|].
    destruct (dict_get cmd (required_keys self)) as [required|] eqn:Er;
      [|reflexivity].
    destruct (existsb (String.eqb "высота") required) eqn:Ex; [|reflexivity].
    apply existsb_exists in Ex. destruct Ex as [p [Hp Ep]].
    apply String.eqb_eq in Ep. subst p.
    rewrite (Hrequired required "высота" eq_refl Hp) in Eh. discriminate. }
  rewrite Hhd. cbn [bind].
  assert (Hr : _check_required_parameters prompt' self cmd out = out).
  { unfold _check_required_parameters.
    destruct (dict_get cmd (required_keys self)) as [required|] eqn:Er;
      [|reflexivity].
    apply prompt_all_fixed. intros p Hp. apply (Hrequired required p eq_refl Hp). }
  rewrite Hr.
  assert (Ho : _apply_optional_parameters self cmd out = out).
  { unfold _apply_optional_parameters.
    destruct (dict_get cmd (optional_keys self)) as [optional|] eqn:Eo;
      [|reflexivity].
    apply defaults_fixed. intros p Hp. apply (Hoptional optional p eq_refl Hp). }
  rewrite Ho.
  apply (convert_idempotent float_of_string int_of_string fs' is' params4 out H).
Qed.

End Idempotence.

Lemma example_validates :
  validate_params float_of_decimal int_of_decimal operator_answer example_rules
    "обследование_точки" example_params
  = Ok example_out.
Proof. vm_compute. reflexivity. Qed.

Lemma validated_names_present_witness :
  dict_mem "скорость" example_out = true /\ dict_mem "угол" example_out = true.
Proof.
  destruct (validated_names_present float_of_decimal int_of_decimal
              operator_answer example_rules "обследование_точки"
              example_params example_out example_validates) as [Hr Ho].
  split.
  - apply (Hr ["высота"; "скорость"] "скорость" eq_refl). simpl. auto.
  - apply (Ho [("угол", VInt 0)] "угол" eq_refl). simpl. auto.
Defined.

Lemma validated_types_witness :
  VFloat 20 = VNone \/ exists q, VFloat 20 = VFloat q.
Proof.
  exact (validated_types float_of_decimal int_of_decimal operator_answer
           example_rules "обследование_точки" example_params example_out
           example_validates "длина" (VFloat 20) eq_refl).
Defined.

Lemma validated_parameters_kept_witness :
  exists v', dict_get "длина" example_out = Some v' /\
             convert_value float_of_decimal int_of_decimal TFloat (VInt 20) = Ok v'.
Proof.
  exact (proj1 (validated_parameters_kept float_of_decimal int_of_decimal
                  operator_answer example_rules "обследование_точки"
                  example_params example_out example_validates)
           "длина" (VInt 20) ltac:(discriminate) eq_refl).
Defined.

Lemma validation_idempotent_witness :
  validate_params (fun _ => None) (fun _ => None) (fun _ _ => VNone)
    example_rules "обследование_точки" example_out = Ok example_out.
Proof.
  apply (validation_idempotent float_of_decimal int_of_decimal operator_answer
           example_rules "обследование_точки" example_params example_out).
  - repeat constructor; simpl; intuition discriminate.
  - intros required E. injection E as <-. simpl. intuition discriminate.
  - intros optional E. injection E as <-. reflexivity.
  - intros dependent traj deps E. injection E as <-.
    intros [H|[]]. injection H as <- <-. simpl. intuition discriminate.
  - exact example_validates.
Defined.

Local Close Scope string_scope.

End ValidationFacts.

(** ** More on the translator *)

Module PlanFacts.

Import Translators TranslatorFacts Plan Examples.

Local Open Scope string_scope.
Local Open Scope list_scope.

Lemma after_after a b r : after a (after b r) = after (a ++ b) r.
Proof. destruct r; cbn; [rewrite app_assoc|]; reflexivity. Qed.

Lemma after_nil r : after [] r = r.
Proof. destruct r; reflexivity. Qed.

Lemma toggle_waypoints_frame value (coordinate : list (Q * Q)) :
  forall device acc,
    toggle_waypoints value coordinate device acc
    = match toggle_waypoints value coordinate device [] with
      | Ok r => Ok (fst r, acc ++ snd r)
      | Raise e => Raise e
      end.
Proof.
  induction coordinate as [|i rest IH]; intros device acc.
  - cbn. rewrite app_nil_r. reflexivity.
  - cbn [toggle_waypoints].
    destruct (value_item "высота" value) as [depth|e]; cbn [bind]; [|reflexivity].
    destruct (value_item "скорость" value) as [speed|e]; cbn [bind]; [|reflexivity].
    destruct (value_item "прибор" value) as [dev|e]; cbn [bind]; [|reflexivity].
    destruct (negb device).
    + rewrite (IH true ((acc ++ _) ++ _)), (IH true (([] ++ _) ++ _)).
      destruct (toggle_waypoints value rest true []) as [[d p]|e]; [|reflexivity].
      cbn [fst snd app]. rewrite <- !app_assoc. reflexivity.
    + rewrite (IH false ((acc ++ _) ++ _)), (IH false (([] ++ _) ++ _)).
      destruct (toggle_waypoints value rest false []) as [[d p]|e]; [|reflexivity].
      cbn [fst snd app]. rewrite <- !app_assoc. reflexivity.
Qed.

Lemma toggle_lists_frame value (lists : list (string * list (Q * Q))) :
  forall device acc,
    toggle_lists value lists device acc
    = after acc (toggle_lists value lists device []).
Proof.
  induction lists as [|[name coordinate] rest IH]; intros device acc.
  - cbn. rewrite app_nil_r. reflexivity.
  - cbn [toggle_lists]. rewrite (toggle_waypoints_frame value coordinate device acc).
    destruct (toggle_waypoints value coordinate device []) as [[d p]|e];
      cbn [bind fst snd]; [|reflexivity].
    rewrite (IH d (acc ++ p)), (IH d p), after_after. reflexivity.
Qed.

Lemma plain_waypoints_frame value (coordinate : list (Q * Q)) :
  forall acc,
    plain_waypoints value coordinate acc
    = after acc (plain_waypoints value coordinate []).
Proof.
  induction coordinate as [|i rest IH]; intro acc.
  - cbn. rewrite app_nil_r. reflexivity.
  - cbn [plain_waypoints].
    destruct (value_item "высота" value) as [depth|e]; cbn [bind]; [|reflexivity].
    destruct (value_item "скорость" value) as [speed|e]; cbn [bind]; [|reflexivity].
    rewrite (IH (acc ++ _)), (IH ([] ++ _)), after_after. reflexivity.
Qed.

Lemma plain_lists_frame value (lists : list (string * list (Q * Q))) :
  forall acc,
    plain_lists value lists acc = after acc (plain_lists value lists []).
Proof.
  induction lists as [|[name coordinate] rest IH]; intro acc.
  - cbn. rewrite app_nil_r. reflexivity.
  - cbn [plain_lists]. rewrite (plain_waypoints_frame value coordinate acc).
    destruct (plain_waypoints value coordinate []) as [p|e];
      cbn [bind after]; [|reflexivity].
    rewrite (IH (acc ++ p)), (IH p), after_after. reflexivity.
Qed.

Lemma translate_item_frame key value acc :
  translate_item key value acc = after acc (translate_item key value []).
Proof.
  unfold translate_item.
  destruct (if String.eqb key "обследование_фигуры" then Ok true
            else if String.eqb key "обследование_точки" then is_meander value
            else Ok false) as [toggling|e]; cbn [bind]; [|reflexivity].
  destruct toggling.
  - destruct (value_item "прибор" value) as [dev|e]; cbn [bind]; [|reflexivity].
    destruct (coordinate_lists value) as [lists|e]; cbn [bind]; [|reflexivity].
    rewrite (toggle_lists_frame value lists false (acc ++ _)),
            (toggle_lists_frame value lists false ([] ++ _)).
    destruct (toggle_lists value lists false []) as [p|e]; cbn [after bind];
      [|reflexivity].
    rewrite <- !app_assoc. reflexivity.
  - destruct (String.eqb key "обследование_точки").
    + destruct (value_item "прибор" value) as [dev|e]; cbn [bind]; [|reflexivity].
      destruct (coordinate_lists value) as [lists|e]; cbn [bind]; [|reflexivity].
      rewrite (plain_lists_frame value lists (acc ++ _)),
              (plain_lists_frame value lists ([] ++ _)).
      destruct (plain_lists value lists []) as [p|e]; cbn [after bind];
        [|reflexivity].
      rewrite <- !app_assoc. reflexivity.
    + cbn. rewrite app_nil_r. reflexivity.
Qed.

Lemma translate_command_frame (items : command_dict) :
  forall acc,
    translate_command items acc = after acc (translate_command items []).
Proof.
  induction items as [|[key value] rest IH]; intro acc.
  - cbn. rewrite app_nil_r. reflexivity.
  - cbn [translate_command]. rewrite (translate_item_frame key value acc).
    destruct (translate_item key value []) as [p|e]; cbn [after bind];
      [|reflexivity].
    rewrite (IH (acc ++ p)), (IH p), after_after. reflexivity.
Qed.

Lemma translate_frame (commands : list command_dict) :
  forall acc, translate commands acc = after acc (translate commands []).
Proof.
  induction commands as [|command rest IH]; intro acc.
  - cbn. rewrite app_nil_r. reflexivity.
  - cbn [translate]. rewrite (translate_command_frame command acc).
    destruct (translate_command command []) as [p|e]; cbn [after bind];
      [|reflexivity].
    rewrite (IH (acc ++ p)), (IH p), after_after. reflexivity.
Qed.

Lemma translate_append (a b : list command_dict) :
  forall acc,
    translate (a ++ b) acc
    = match translate a acc with
      | Ok p => translate b p
      | Raise e => Raise e
      end.
Proof.
  induction a as [|command rest IH]; intro acc; [reflexivity|].
  cbn [app translate].
  destruct (translate_command command acc) as [p|e]; cbn [bind]; [|reflexivity].
  apply IH.
Qed.

(** X22.  The plan of a mission is the concatenation of the plans of its
    parts, the first exception of the first failing part is the exception
    of the whole, and a command that is neither survey adds nothing. *)
Theorem plans_compose (a b : list command_dict) :
  (forall pa pb, Translator a = Ok pa -> Translator b = Ok pb ->
     Translator (a ++ b) = Ok (pa ++ pb)) /\
  (forall e, Translator a = Raise e -> Translator (a ++ b) = Raise e) /\
  (forall pa e, Translator a = Ok pa -> Translator b = Raise e ->
     Translator (a ++ b) = Raise e) /\
  (forall key value,
     key <> "обследование_фигуры" -> key <> "обследование_точки" ->
     Translator [[(key, value)]] = Ok []).
Proof.
  unfold Translator. split; [|split; [|split]].
  - intros pa pb Ha Hb. rewrite translate_append, Ha, translate_frame, Hb.
    reflexivity.
  - intros e Ha. rewrite translate_append, Ha. reflexivity.
  - intros pa e Ha Hb. rewrite translate_append, Ha, translate_frame, Hb.
    reflexivity.
  - intros key value H1 H2. apply String.eqb_neq in H1, H2.
    cbn [translate translate_command]. unfold translate_item.
    rewrite H1, H2. reflexivity.
Qed.

Lemma action_no_waypoint dev status : waypoint_of (action dev status) = [].
Proof.
  unfold action. destruct dev; try reflexivity.
  repeat match goal with
         | |- context [if ?b then _ else _] => destruct b
         end; reflexivity.
Qed.

Lemma waypoints_of_app (a b : tasks) :
  waypoints_of (a ++ b) = waypoints_of a ++ waypoints_of b.
Proof. unfold waypoints_of. apply flat_map_app. Qed.

Lemma interleaved_waypoints depth speed dev (waypoints : list (Q * Q)) :
  forall device,
    waypoints_of (interleaved depth speed dev device waypoints) = waypoints.
Proof.
  induction waypoints as [|[lon lat] rest IH]; intro device; [reflexivity|].
  cbn [interleaved]. unfold waypoints_of. cbn [flat_map].
  rewrite action_no_waypoint. fold (waypoints_of (interleaved depth speed dev (negb device) rest)).
  rewrite IH. reflexivity.
Qed.

Lemma movements_waypoints depth speed (waypoints : list (Q * Q)) :
  waypoints_of (map (fun i => Some (movement depth speed (fst i) (snd i))) waypoints)
  = waypoints.
Proof.
  induction waypoints as [|[lon lat] rest IH]; [reflexivity|].
  unfold waypoints_of in *. cbn [map flat_map]. rewrite IH. reflexivity.
Qed.

Section Order.

Variable params : dict pyval.
Variables depth speed dev : pyval.
Variable lists : list (string * list (Q * Q)).
Hypothesis Hdepth : dict_get "высота" params = Some depth.
Hypothesis Hspeed : dict_get "скорость" params = Some speed.
Hypothesis Hdev : dict_get "прибор" params = Some dev.
Hypothesis Hlists : dict_get "координаты" params = Some (VCoords lists).

(** X23.  The movements of a survey plan are the waypoints of the command
    in their order, list after list, none lost, repeated or added by the
    instrument actions; in a figure survey each movement carries the height
    and the speed of the command. *)
Theorem waypoints_in_order :
  (exists plan,
     Translator [[("обследование_фигуры", CParams params)]] = Ok plan /\
     waypoints_of plan = all_waypoints lists /\
     forall t, In (Some t) plan ->
       match t with
       | TackPoint up velocity _ _ => up = depth /\ velocity = speed
       | _ => True
       end) /\
  (forall text,
     dict_get "траектория" params = Some (VStr text) ->
     exists plan,
       Translator [[("обследование_точки", CParams params)]] = Ok plan /\
       waypoints_of plan = all_waypoints lists).
Proof.
  split.
  - rewrite (figure_survey_plan params depth speed dev Hdepth Hspeed Hdev lists Hlists).
    eexists. split; [reflexivity|]. split.
    + change (action dev "вкл" :: ?l) with ([action dev "вкл"] ++ l).
      rewrite !waypoints_of_app, interleaved_waypoints.
      unfold waypoints_of. cbn [flat_map]. rewrite !action_no_waypoint.
      cbn [app]. apply app_nil_r.
    + intros t Hin.
      assert (Ha : forall s up velocity lon lat,
                action dev s <> Some (TackPoint up velocity lon lat)).
      { intros s up velocity lon lat E.
        pose proof (action_no_waypoint dev s) as Hn. rewrite E in Hn.
        discriminate. }
      assert (Hi : forall w device, In (Some t) (interleaved depth speed dev device w) ->
                match t with
                | TackPoint up velocity _ _ => up = depth /\ velocity = speed
                | _ => True
                end).
      { induction w as [|i w IH]; intros device Hw; [destruct Hw|].
        cbn [interleaved] in Hw. destruct Hw as [Hw|[Hw|Hw]].
        - injection Hw as <-. split; reflexivity.
        - destruct t; try exact I. exfalso. apply (Ha _ _ _ _ _ Hw).
        - apply (IH _ Hw). }
      destruct Hin as [Hin|Hin].
      * destruct t; try exact I. exfalso. apply (Ha _ _ _ _ _ Hin).
      * apply in_app_or in Hin. destruct Hin as [Hin|[Hin|[]]].
        -- apply (Hi _ _ Hin).
        -- destruct t; try exact I. exfalso. apply (Ha _ _ _ _ _ Hin).
  - intros text Htext. destruct (string_dec text "меандр") as [->|Hne].
    + rewrite (point_survey_exact_meander_plan params depth speed dev Hdepth
                 Hspeed Hdev lists Hlists Htext).
      eexists. split; [reflexivity|].
      change (action dev "вкл" :: ?l) with ([action dev "вкл"] ++ l).
      rewrite !waypoints_of_app, interleaved_waypoints.
      unfold waypoints_of. cbn [flat_map]. rewrite !action_no_waypoint.
      cbn [app]. apply app_nil_r.
    + rewrite (point_survey_plain_plan params depth speed dev Hdepth Hspeed Hdev
                 lists Hlists text Htext Hne).
      eexists. split; [reflexivity|].
      change (action dev "вкл" :: ?l) with ([action dev "вкл"] ++ l).
      rewrite !waypoints_of_app, movements_waypoints.
      unfold waypoints_of. cbn [flat_map]. rewrite !action_no_waypoint.
      cbn [app]. apply app_nil_r.
Qed.

End Order.

Section MissingKeys.

Variable params : dict pyval.

Lemma toggle_lists_no_height (lists : list (string * list (Q * Q))) :
  dict_get "высота" params = None ->
  forall device acc,
    toggle_lists (CParams params) lists device acc
    = match all_waypoints lists with
      | [] => Ok acc
      | _ :: _ => Raise KeyError
      end.
Proof.
  intro H. induction lists as [|[name coordinate] rest IH]; intros device acc;
    [reflexivity|].
  cbn [toggle_lists]. unfold all_waypoints. cbn [map snd List.concat].
  destruct coordinate as [|i coordinate].
  - cbn [toggle_waypoints bind fst snd app]. apply IH.
  - cbn [toggle_waypoints value_item app]. unfold dict_item. rewrite H.
    reflexivity.
Qed.

(** X24.  The translator raises KeyError for a figure survey without
    instrument, for a point survey without survey pattern, and for a figure
    survey without waypoint map.  The height is read once per waypoint: a
    figure survey without height raises KeyError exactly when it has a
    waypoint, and is the plan of the two instrument actions otherwise. *)
Theorem survey_missing_keys :
  (dict_get "прибор" params = None ->
   Translator [[("обследование_фигуры", CParams params)]] = Raise KeyError) /\
  (dict_get "траектория" params = None ->
   Translator [[("обследование_точки", CParams params)]] = Raise KeyError) /\
  (forall dev, dict_get "прибор" params = Some dev ->
   dict_get "координаты" params = None ->
   Translator [[("обследование_фигуры", CParams params)]] = Raise KeyError) /\
  (forall dev lists, dict_get "прибор" params = Some dev ->
   dict_get "координаты" params = Some (VCoords lists) ->
   dict_get "высота" params = None ->
   Translator [[("обследование_фигуры", CParams params)]]
   = match all_waypoints lists with
     | [] => Ok [action dev "вкл"; action dev "выкл"]
     | _ :: _ => Raise KeyError
     end).
Proof.
  unfold Translator. cbn [translate translate_command]. unfold translate_item.
  replace (String.eqb "обследование_фигуры" "обследование_фигуры") with true
    by reflexivity.
  replace (String.eqb "обследование_точки" "обследование_фигуры") with false
    by reflexivity.
  replace (String.eqb "обследование_точки" "обследование_точки") with true
    by reflexivity.
  unfold is_meander, coordinate_lists. cbn [value_item bind]. unfold dict_item.
  split; [|split; [|split]].
  - intro H. rewrite H. reflexivity.
  - intro H. rewrite H. reflexivity.
  - intros dev Hd Hc. rewrite Hd, Hc. reflexivity.
  - intros dev lists Hd Hc Hh. rewrite Hd, Hc. cbn [bind app].
    rewrite (toggle_lists_no_height lists Hh).
    destruct (all_waypoints lists); reflexivity.
Qed.

End MissingKeys.

Lemma plans_compose_witness :
  Translator ([[("обследование_фигуры", CParams example_survey)]]
              ++ [[("обследование_точки", CParams example_survey)]])
  = Ok ([Some SidesonarOn;
         Some (TackPoint (VFloat 5) (VFloat 1) 30 60); Some SidesonarPause;
         Some (TackPoint (VFloat 5) (VFloat 1) 31 61); Some SidesonarResume;
         Some SidesonarOff]
        ++ [Some SidesonarOn;
            Some (TackPoint (VFloat 5) (VFloat 1) 30 60);
            Some (TackPoint (VFloat 5) (VFloat 1) 31 61);
            Some SidesonarOff]).
Proof.
  apply (proj1 (plans_compose [[("обследование_фигуры", CParams example_survey)]]
                  [[("обследование_точки", CParams example_survey)]]));
    reflexivity.
Defined.

Lemma waypoints_in_order_witness :
  exists plan,
    Translator [[("обследование_точки", CParams example_survey)]] = Ok plan /\
    waypoints_of plan = [(30, 60); (31, 61)].
Proof.
  exact (proj2 (waypoints_in_order example_survey (VFloat 5) (VFloat 1)
                  (VStr "гбо") [("координаты", [(30, 60); (31, 61)])]
                  eq_refl eq_refl eq_refl eq_refl)
           "звезда" eq_refl).
Defined.

Lemma survey_missing_keys_witness :
  Translator [[("обследование_фигуры",
                CParams [("прибор", VStr "гбо");
                         ("координаты", VCoords [("координаты", [(30, 60)])])])]]
  = Raise KeyError.
Proof.
  exact (proj2 (proj2 (proj2 (survey_missing_keys
           [("прибор", VStr "гбо");
            ("координаты", VCoords [("координаты", [(30, 60)])])])))
           (VStr "гбо") [("координаты", [(30, 60)])] eq_refl eq_refl eq_refl).
Defined.

Local Close Scope list_scope.
Local Close Scope string_scope.

End PlanFacts.

(** ** The generators on binary64 *)

Module Binary64Facts.

Import Binary64 Generators64.

Lemma pass_length cos round6 slon slat size spacing_m is_vertical i :
  List.length (meander_pass cos round6 slon slat size spacing_m is_vertical i) = 2%nat.
Proof.
  unfold meander_pass. destruct is_vertical, (Nat.even i); reflexivity.
Qed.

Lemma for_each_length {A B : Type} (f : A -> result B) (l : list A) :
  forall out, for_each f l = Ok out -> List.length out = List.length l.
Proof.
  induction l as [|a l IH]; intros out H; cbn [for_each] in H.
  - injection H as <-. reflexivity.
  - destruct (f a) as [b|e]; cbn [bind] in H; [|discriminate].
    destruct (for_each f l) as [bs|e]; cbn [bind] in H; [|discriminate].
    injection H as <-. cbn [List.length]. rewrite (IH bs eq_refl). reflexivity.
Qed.

Lemma for_each_total {A B : Type} (f : A -> result B) (l : list A) :
  (forall a, exists b, f a = Ok b) -> exists out, for_each f l = Ok out.
Proof.
  intro H. induction l as [|a l [out IH]]; [exists []; reflexivity|].
  destruct (H a) as [b Hb]. exists (b :: out).
  cbn [for_each]. rewrite Hb, IH. reflexivity.
Qed.

Section Meander.

Variables cos sin round6 : float -> float.
Variables start_lon start_lat width_m length_m spacing_m : float.
Variable direction : string.

(** The cross extent: the extent the passes are counted along. *)
Let steps : float :=
  if String.eqb direction Trajectories.vertical then width_m else length_m.

(** The segment when the pass count is [n]. *)
Lemma segment_of_passes (n : Z) :
  meander_num_passes steps spacing_m = Ok n ->
  exists points,
    _generate_meander_segment cos round6 start_lon start_lat width_m length_m
      spacing_m direction = Ok points /\
    List.length points = (2 * Z.to_nat (n + 1))%nat.
Proof.
  intro H. unfold _generate_meander_segment. subst steps.
  destruct (String.eqb direction Trajectories.vertical); rewrite H; cbn [bind];
    eexists; (split; [reflexivity|]);
    rewrite flat_map_pairs_length by (intro; apply pass_length);
    rewrite length_seq; reflexivity.
Qed.

Lemma segment_raises (e : exn) :
  meander_num_passes steps spacing_m = Raise e ->
  _generate_meander_segment cos round6 start_lon start_lat width_m length_m
    spacing_m direction = Raise e.
Proof.
  intro H. unfold _generate_meander_segment. subst steps.
  destruct (String.eqb direction Trajectories.vertical); rewrite H; reflexivity.
Qed.

Lemma num_passes_finite :
  is_zero spacing_m = false ->
  is_finite (div steps spacing_m) = true ->
  exists n, to_int (div steps spacing_m) = Ok n /\
            meander_num_passes steps spacing_m = Ok (Z.max 1 n).
Proof.
  intros Hs Hf. unfold meander_num_passes, truediv. rewrite Hs. cbn [bind].
  destruct (div steps spacing_m) as [s|s| |s m e]; try discriminate;
    eexists; split; reflexivity.
Qed.

(** C1, amended.  For a cross extent C and a spacing S, both positive,
    whose binary64 quotient C / S is finite, the meander generator returns
    exactly 2 * (max(1, int(C / S)) + 1) waypoints, [int] truncating the
    rounded quotient the code computes: the pass count is that integer but
    never less than 1, and each of the (pass count + 1) passes has two
    waypoints. *)
Theorem meander_waypoint_count :
  ltb zero steps = true -> ltb zero spacing_m = true ->
  is_finite (div steps spacing_m) = true ->
  exists n points,
    to_int (div steps spacing_m) = Ok n /\
    _generate_meander_segment cos round6 start_lon start_lat width_m length_m
      spacing_m direction = Ok points /\
    Z.of_nat (List.length points) = (2 * (Z.max 1 n + 1))%Z.
Proof.
  intros _ Hs Hf.
  assert (Hz : is_zero spacing_m = false).
  { destruct spacing_m; try reflexivity. discriminate Hs. }
  destruct (num_passes_finite Hz Hf) as [n [Hn Hp]].
  destruct (segment_of_passes _ Hp) as [points [E L]].
  exists n, points. split; [exact Hn|]. split; [exact E|].
  rewrite L. lia.
Qed.

(** X9.  The outcomes of a meander segment by the binary64 quotient
    steps / spacing: a zero spacing raises ZeroDivisionError; a quotient that
    overflows to an infinity raises OverflowError and one that is a NaN
    raises ValueError (both from [int]); every other quotient gives an even
    number of waypoints, at least four. *)
Theorem meander_segment_shape :
  (is_zero spacing_m = true ->
   _generate_meander_segment cos round6 start_lon start_lat width_m length_m
     spacing_m direction = Raise ZeroDivisionError) /\
  (is_zero spacing_m = false -> is_infinite (div steps spacing_m) = true ->
   _generate_meander_segment cos round6 start_lon start_lat width_m length_m
     spacing_m direction = Raise OverflowError) /\
  (is_zero spacing_m = false -> is_nan (div steps spacing_m) = true ->
   _generate_meander_segment cos round6 start_lon start_lat width_m length_m
     spacing_m direction = Raise ValueError) /\
  (is_zero spacing_m = false -> is_finite (div steps spacing_m) = true ->
   exists points,
     _generate_meander_segment cos round6 start_lon start_lat width_m length_m
       spacing_m direction = Ok points /\
     (4 <= List.length points)%nat /\
     Nat.even (List.length points) = true).
Proof.
  split; [|split; [|split]].
  - intro Hs. apply segment_raises. unfold meander_num_passes, truediv.
    rewrite Hs. reflexivity.
  - intros Hs Hi. apply segment_raises. unfold meander_num_passes, truediv.
    rewrite Hs. cbn [bind].
    destruct (div steps spacing_m); try discriminate. reflexivity.
  - intros Hs Hn. apply segment_raises. unfold meander_num_passes, truediv.
    rewrite Hs. cbn [bind].
    destruct (div steps spacing_m); try discriminate. reflexivity.
  - intros Hs Hf. destruct (num_passes_finite Hs Hf) as [n [_ Hp]].
    destruct (segment_of_passes _ Hp) as [points [E L]].
    exists points. split; [exact E|]. rewrite L. split; [lia|].
    rewrite Nat.even_mul. reflexivity.
Qed.

Variable angle_deg : float.

Lemma rotate_total origin p :
  is_infinite (mul angle_deg DEG_TO_RAD) = false ->
  exists q, rotate_point cos sin round6 origin p angle_deg = Ok q.
Proof.
  intro H. unfold rotate_point, math_cos, math_sin.
  destruct origin as [ox oy], p as [px py]. rewrite H. cbn [bind].
  eexists. reflexivity.
Qed.

(** X10.  For a spacing that is no zero, a binary64 quotient
    steps / spacing that [int] turns into n, and a rotation angle whose
    radians are no infinity, [generate_meander] returns
    2 * (max(1, n) + 1) waypoints, rotated or not, and
    [generate_centered_meander], which drops the first waypoint of its
    segment, one fewer. *)
Theorem meander_family_counts (n : Z) :
  is_zero spacing_m = false ->
  to_int (div steps spacing_m) = Ok n ->
  is_infinite (mul angle_deg DEG_TO_RAD) = false ->
  (exists points,
     generate_meander cos sin round6 start_lon start_lat width_m length_m
       spacing_m direction angle_deg = Ok points /\
     Z.of_nat (List.length points) = (2 * (Z.max 1 n + 1))%Z) /\
  (exists points,
     generate_centered_meander cos sin round6 start_lon start_lat width_m
       length_m spacing_m direction angle_deg = Ok points /\
     Z.of_nat (List.length points) = (2 * Z.max 1 n + 1)%Z).
Proof.
  intros Hs Hn Ha.
  assert (Hp : meander_num_passes steps spacing_m = Ok (Z.max 1 n)).
  { unfold meander_num_passes, truediv. rewrite Hs. cbn [bind]. rewrite Hn.
    reflexivity. }
  assert (Hl : forall l : list point,
            List.length (tl l) = (List.length l - 1)%nat)
    by (intros [|x l]; simpl; lia).
  split.
  - unfold generate_meander.
    destruct (segment_of_passes _ Hp) as [points [E L]].
    rewrite E. cbn [bind]. destruct (is_zero angle_deg).
    + exists points. split; [reflexivity|]. rewrite L. lia.
    + destruct (for_each_total
                  (fun p => rotate_point cos sin round6 (start_lon, start_lat) p
                              angle_deg) points) as [out Hout].
      { intro p. apply rotate_total. exact Ha. }
      exists out. split; [exact Hout|].
      rewrite (for_each_length _ _ _ Hout), L. lia.
  - unfold generate_centered_meander.
    destruct (add_meters_to_coordinates cos round6 start_lat start_lon
                (neg (div length_m (of_int 2))) (neg (div width_m (of_int 2))))
      as [lon0 lat0].
    assert (Hseg : exists points,
              _generate_meander_segment cos round6 lon0 lat0 width_m length_m
                spacing_m direction = Ok points /\
              List.length points = (2 * Z.to_nat (Z.max 1 n + 1))%nat).
    { unfold _generate_meander_segment. subst steps.
      destruct (String.eqb direction Trajectories.vertical); rewrite Hp;
        cbn [bind]; eexists; (split; [reflexivity|]);
        rewrite flat_map_pairs_length by (intro; apply pass_length);
        rewrite length_seq; reflexivity. }
    destruct Hseg as [points [E L]].
    rewrite E. cbn [bind]. destruct (is_zero angle_deg).
    + exists (tl points). split; [reflexivity|]. rewrite Hl, L. lia.
    + destruct (for_each_total
                  (fun p => rotate_point cos sin round6 (start_lon, start_lat) p
                              angle_deg) (tl points)) as [out Hout].
      { intro p. apply rotate_total. exact Ha. }
      exists out. split; [exact Hout|].
      rewrite (for_each_length _ _ _ Hout), Hl, L. lia.
Qed.

End Meander.

Section Spiral.

Variables cos sin round6 : float -> float.
Variables center_lon center_lat max_radius_m spacing_m : float.
Variable clockwise : bool.
Variable point_freq : Z.

Let direction : Z := if clockwise then 1%Z else (-1)%Z.

(** The growth of the radius in one turn. *)
Let increment : float := div (mul spacing_m ANGLE_STEP) (mul (of_int 2) math_pi).

(** A turn that starts at radius 0 with an increment that 0 absorbs ends at
    radius 0. *)
Lemma stalled_step (points : list point) :
  add zero increment = zero ->
  is_zero spacing_m = false ->
  point_freq <> 0%Z ->
  exists points',
    spiral_step cos sin round6 center_lon center_lat spacing_m direction
      point_freq zero points = Ok (zero, points').
Proof.
  intros Hinc Hs Hp. unfold spiral_step. fold increment. rewrite Hinc.
  unfold truediv. rewrite Hs. cbn [bind].
  assert (Hangle : is_infinite
            (div (mul (mul (of_int (direction * 2)) math_pi) zero) spacing_m)
          = false).
  { subst direction. destruct clockwise;
      destruct spacing_m as [s|s| |s m e]; try reflexivity; discriminate Hs. }
  unfold math_cos, math_sin. rewrite Hangle. cbn [bind].
  apply Z.eqb_neq in Hp. rewrite Hp.
  destruct (Z.of_nat (List.length points) mod point_freq =? 0)%Z;
    eexists; reflexivity.
Qed.

Lemma stalled_loop :
  add zero increment = zero ->
  is_zero spacing_m = false ->
  point_freq <> 0%Z ->
  leb zero max_radius_m = true ->
  forall fuel points,
    spiral_loop cos sin round6 fuel center_lon center_lat max_radius_m
      spacing_m direction point_freq zero points = None.
Proof.
  intros Hinc Hs Hp Hm. induction fuel as [|fuel IH]; intro points;
    cbn [spiral_loop]; rewrite Hm; [reflexivity|].
  destruct (stalled_step points Hinc Hs Hp) as [points' E].
  rewrite E. apply IH.
Qed.

(** C7, what the code does.  When the growth of the radius,
    spacing * ANGLE_STEP / (2 * pi) on binary64, is absorbed by the radius
    0, which is the case of a spacing so small that the product rounds to
    zero, the radius never leaves 0: for a maximum radius that is not
    negative the loop test stays true and the generator does not return,
    whatever number of turns is granted.  The claim has it terminate for
    every positive spacing. *)
Theorem spiral_stalls :
  ltb zero spacing_m = true ->
  leb zero max_radius_m = true ->
  add zero increment = zero ->
  point_freq <> 0%Z ->
  forall fuel,
    generate_spiral cos sin round6 fuel center_lon center_lat max_radius_m
      spacing_m clockwise point_freq = None.
Proof.
  intros Hs Hm Hinc Hp fuel. unfold generate_spiral.
  apply stalled_loop; try assumption.
  destruct spacing_m; try reflexivity. discriminate Hs.
Qed.

(** X12.  The edges of the spiral loop: with a maximum radius that is not
    negative and a spacing that is a zero, the first turn raises
    ZeroDivisionError (the division of the angle by the spacing); with a
    maximum radius that is negative or a NaN the loop is not entered and the
    generator returns the centre alone, whatever the spacing. *)
Theorem spiral_bad_spacing :
  (leb zero max_radius_m = true -> is_zero spacing_m = true ->
   forall fuel, (1 <= fuel)%nat ->
     generate_spiral cos sin round6 fuel center_lon center_lat max_radius_m
       spacing_m clockwise point_freq = Some (Raise ZeroDivisionError)) /\
  (leb zero max_radius_m = false ->
   forall fuel,
     generate_spiral cos sin round6 fuel center_lon center_lat max_radius_m
       spacing_m clockwise point_freq = Some (Ok [(center_lon, center_lat)])).
Proof.
  split.
  - intros Hm Hs fuel Hf. destruct fuel as [|fuel]; [lia|].
    unfold generate_spiral. cbn [spiral_loop]. rewrite Hm.
    unfold spiral_step, truediv. rewrite Hs. reflexivity.
  - intros Hm fuel. unfold generate_spiral.
    destruct fuel; cbn [spiral_loop]; rewrite Hm; reflexivity.
Qed.

End Spiral.

Lemma meander_waypoint_count_witness :
  exists points,
    _generate_meander_segment cos_stub round_stub (of_int 30) (of_int 60)
      half (of_int 20) tenth Trajectories.vertical = Ok points /\
    Z.of_nat (List.length points) = 12%Z.
Proof.
  destruct (meander_waypoint_count cos_stub round_stub (of_int 30) (of_int 60)
              half (of_int 20) tenth Trajectories.vertical
              eq_refl eq_refl eq_refl)
    as [n [points [Hn [E L]]]].
  exists points. split; [exact E|].
  vm_compute in Hn. injection Hn as <-. exact L.
Defined.

(** C1 as the spec words it fails.  With C = 3 and S = 5 the generator
    returns 4 waypoints where 2 * (floor(C/S) + 1) is 2: the pass count is
    never less than 1.  With C = 0.5 and S = 0.1 it returns 12 where the
    formula, on the rationals the two floats stand for, gives 10: the
    binary64 quotient is 5.0, the exact one is below 5.  With C = 10 and S
    the smallest positive float it returns nothing: the quotient is an
    infinity and [int] raises OverflowError. *)
Lemma meander_count_floor_fails :
  (exists points,
     _generate_meander_segment cos_stub round_stub (of_int 30) (of_int 60)
       (of_int 3) (of_int 20) (of_int 5) Trajectories.vertical = Ok points /\
     List.length points = 4%nat /\
     (2 * (Qfloor (to_Q (of_int 3) / to_Q (of_int 5)) + 1) = 2)%Z) /\
  (exists points,
     _generate_meander_segment cos_stub round_stub (of_int 30) (of_int 60)
       half (of_int 20) tenth Trajectories.vertical = Ok points /\
     List.length points = 12%nat /\
     (2 * (Qfloor (to_Q half / to_Q tenth) + 1) = 10)%Z) /\
  (ltb zero smallest = true /\
   _generate_meander_segment cos_stub round_stub (of_int 30) (of_int 60)
     (of_int 10) (of_int 20) smallest Trajectories.vertical
   = Raise OverflowError).
Proof.
  split; [|split];
    [eexists; (split; [vm_compute; reflexivity|]); split; reflexivity ..
    |split; vm_compute; reflexivity].
Qed.

Lemma meander_segment_shape_witness :
  _generate_meander_segment cos_stub round_stub (of_int 30) (of_int 60)
    (of_int 10) (of_int 20) smallest Trajectories.vertical
  = Raise OverflowError.
Proof.
  apply (proj1 (proj2 (meander_segment_shape cos_stub round_stub (of_int 30)
                         (of_int 60) (of_int 10) (of_int 20) smallest
                         Trajectories.vertical)));
    reflexivity.
Defined.

Lemma meander_family_counts_witness :
  exists points,
    generate_centered_meander cos_stub sin_stub round_stub (of_int 30)
      (of_int 60) half (of_int 20) tenth Trajectories.vertical (of_int 45)
    = Ok points /\
    Z.of_nat (List.length points) = 11%Z.
Proof.
  exact (proj2 (meander_family_counts cos_stub sin_stub round_stub (of_int 30)
                  (of_int 60) half (of_int 20) tenth Trajectories.vertical
                  (of_int 45) 5 eq_refl eq_refl eq_refl)).
Defined.

Lemma spiral_stalls_witness :
  generate_spiral cos_stub sin_stub round_stub 1000 zero zero zero smallest
    true 2 = None.
Proof.
  apply (spiral_stalls cos_stub sin_stub round_stub zero zero zero smallest
           true 2); [reflexivity|reflexivity|reflexivity|discriminate].
Defined.

Lemma spiral_bad_spacing_witness :
  generate_spiral cos_stub sin_stub round_stub 3 (of_int 30) (of_int 60)
    (of_int 10) zero true 1 = Some (Raise ZeroDivisionError).
Proof.
  apply (proj1 (spiral_bad_spacing cos_stub sin_stub round_stub (of_int 30)
                  (of_int 60) (of_int 10) zero true 1));
    [reflexivity|reflexivity|lia].
Defined.

End Binary64Facts.
